(** * FitELP kinematics: a shallow embedding of [kinematics.py]

    The script fits emission-line profiles with a linear continuum plus
    [N] Gaussians (through the [lmfit] library), hands the fitted centres
    and widths of a zone's reference line to the other lines of the zone,
    and corrects the fitted widths for instrumental and thermal broadening.

    The embedding follows the source function by function.  Python
    exceptions are values of [exn]; functions that can raise return a
    [result]; functions that also print or plot return an [io] value, which
    carries what was printed.  Python dicts are [gmap]s keyed by strings.
    lmfit is an interface ([Lmfit]); what the proofs need of it is stated
    in [LmfitLaws].

    Arithmetic is written once, over a class [Arith] of number types, and
    read in two ways:
    - over the real numbers [R] (exact arithmetic: the reading in which
      the formulas of the specification are identities);
    - over IEEE 754 binary64 ([float], what Python computes with), for the
      statements about NaN and infinities, which have no counterpart
      in [R].
    A scalar argument is a Python [float] or a numpy [float64]
    ([scalar]): the two agree on values and differ in raising
    [ZeroDivisionError] and [OverflowError].

    Left out: the parsing of the FITS files ([read_spectra] starts from the
    spectra that were read), [plot_order] and [plot_emission_line], the
    warnings that numpy prints, lines 353 to 359 of the loop body (the
    report collected after each fit, which reads [model]), and what follows
    the loop. *)

From Stdlib Require Import Reals Lra Floats ZArith Ascii.
From stdpp Require Import base strings gmap pretty list.

(** ** Exceptions and results *)

(** The exceptions the modelled code can raise.  [InvalidParameterError]
    and [OrderingError] are the names the specification uses for contract
    violations; no statement of [kinematics.py] constructs them. *)
Inductive exn : Type :=
| UnboundLocalError (name : string)  (* a [NameError]: local read before assignment *)
| KeyError (key : string)
| IndexError
| ZeroDivisionError
| OverflowError
| LmfitError                         (* raised inside lmfit *)
| InvalidParameterError
| OrderingError.

Inductive result (T : Type) : Type :=
| Ok (v : T)
| Raise (e : exn).
Arguments Ok {T} v.
Arguments Raise {T} e.

Global Instance result_ret : MRet result := λ _ v, Ok v.
Global Instance result_bind : MBind result := λ _ _ f r,
  match r with
  | Ok v => f v
  | Raise e => Raise e
  end.

Global Instance result_fmap : FMap result := λ _ _ f r,
  match r with
  | Ok v => Ok (f v)
  | Raise e => Raise e
  end.

Definition raises {T} (r : result T) (e : exn) : Prop := r = Raise e.

(** ** Numbers *)

(** The operations the script applies to floating-point numbers.  The four
    operations and the square root are total, as they are on numpy values;
    Python's own [float] adds exceptions on top of them (see [py_div] and
    [py_pow2]).  [lit n d] is the decimal literal [n/d]. *)
Class Arith (A : Type) : Type := {
  lit : Z → positive → A;
  add : A → A → A;
  sub : A → A → A;
  mul : A → A → A;
  div : A → A → A;
  sqrt : A → A;
  is_zero : A → bool;        (* [x == 0.0] *)
  is_inf : A → bool;         (* [x] is [inf] or [-inf] *)
}.

Declare Scope num_scope.
Delimit Scope num_scope with num.
Notation "x + y" := (add x y) : num_scope.
Notation "x - y" := (sub x y) : num_scope.
Notation "x * y" := (mul x y) : num_scope.
Notation "x / y" := (div x y) : num_scope.

(** Exact arithmetic. *)
Global Instance R_eq_dec : EqDecision R := Req_EM_T.

Global Instance Arith_R : Arith R := {|
  lit n d := (IZR n / IZR (Zpos d))%R;
  add := Rplus;
  sub := Rminus;
  mul := Rmult;
  div := Rdiv;
  sqrt := R_sqrt.sqrt;
  is_zero x := bool_decide (x = 0%R);
  is_inf _ := false;
|}.

(** Binary64 arithmetic.  An integer below [2^53] converts exactly, and
    the quotient of two such integers is rounded to nearest, which is
    the value Python gives the decimal literal. *)
Definition float_of_Z (z : Z) : float :=
  match z with
  | Z0 => 0%float
  | Zpos _ => PrimFloat.of_uint63 (Uint63.of_Z z)
  | Zneg p => PrimFloat.opp (PrimFloat.of_uint63 (Uint63.of_Z (Zpos p)))
  end.

Global Instance Arith_float : Arith float := {|
  lit n d := PrimFloat.div (float_of_Z n) (float_of_Z (Zpos d));
  add := PrimFloat.add;
  sub := PrimFloat.sub;
  mul := PrimFloat.mul;
  div := PrimFloat.div;
  sqrt := PrimFloat.sqrt;
  is_zero x := PrimFloat.eqb x 0%float;
  is_inf := PrimFloat.is_infinity;
|}.

(** A scalar is a Python [float] or a numpy [float64]; both hold a
    binary64 value and differ in what their operators do at the edges. *)
Inductive scalar (A : Type) : Type :=
| PyFloat (x : A)
| NpFloat64 (x : A).
Arguments PyFloat {A} x.
Arguments NpFloat64 {A} x.

Definition val {A} (a : scalar A) : A :=
  match a with PyFloat x | NpFloat64 x => x end.

Definition is_py {A} (a : scalar A) : bool :=
  match a with PyFloat _ => true | NpFloat64 _ => false end.

Section scalar_ops.
Context `{Arith A}.

(** A binary operator of two Python floats gives a Python float; as soon
    as one operand is a numpy scalar, numpy's operator runs and the
    result is a numpy scalar. *)
Definition lift2 (op : A → A → A) (a b : scalar A) : scalar A :=
  if is_py a && is_py b then PyFloat (op (val a) (val b))
  else NpFloat64 (op (val a) (val b)).

Definition py_sub := lift2 sub.
Definition py_mul := lift2 mul.

(** [a / b]: Python's float division raises on a zero divisor, numpy's
    returns [inf] or [nan]. *)
Definition py_div (a b : scalar A) : result (scalar A) :=
  if is_py a && is_py b && is_zero (val b) then Raise ZeroDivisionError
  else Ok (lift2 div a b).

(** [a ** 2]: the square, rounded once.  Python's float power raises
    when a finite base overflows, numpy's returns [inf]. *)
Definition py_pow2 (a : scalar A) : result (scalar A) :=
  let y := (val a * val a)%num in
  match a with
  | PyFloat x =>
      if is_inf y && negb (is_inf x) then Raise OverflowError
      else Ok (PyFloat y)
  | NpFloat64 _ => Ok (NpFloat64 y)
  end.

(** [np.sqrt(a)] never raises and always gives a numpy scalar. *)
Definition np_sqrt (a : scalar A) : scalar A := NpFloat64 (sqrt (val a)).

(** A literal of the source: a Python float. *)
Definition pyfloat (n : Z) (d : positive) : scalar A := PyFloat (lit n d).
End scalar_ops.

(** ** Module-level definitions *)

Section kinematics.
Context `{Arith A}.

(** [SpOfLi = 300000.] *)
Definition SpOfLi : A := lit 300000 1.

(** The local [sigmaInstr] of [vel_dispersion]: bound only for the two
    known filters. *)
Definition sigmaInstr_of (filter : string) : option (scalar A) :=
  if decide (filter = "blue") then Some (pyfloat 49 10)
  else if decide (filter = "red") then Some (pyfloat 56 10)
  else None.

(** Reading a local that may be unbound. *)
Definition read_local (name : string) (v : option (scalar A)) : result (scalar A) :=
  match v with
  | Some x => Ok x
  | None => Raise (UnboundLocalError name)
  end.

(** [vel_dispersion(sigmaObs, sigmaObsError, sigmaTemp2, filter)].
    Operands are evaluated left to right, so [sigmaObs**2] is computed
    before [sigmaInstr] is read. *)
Definition vel_dispersion (sigmaObs sigmaObsError sigmaTemp2 : scalar A)
    (filter : string) : result (scalar A * scalar A) :=
  let sigmaInstr := sigmaInstr_of filter in
  (* intrinsic = np.sqrt(sigmaObs**2 - sigmaInstr**2 - sigmaTemp2) *)
  o2 ← py_pow2 sigmaObs;
  si ← read_local "sigmaInstr" sigmaInstr;
  i2 ← py_pow2 si;
  let intrinsic := np_sqrt (py_sub (py_sub o2 i2) sigmaTemp2) in
  (* squareError = 2 * sigmaObsError/sigmaObs * sigmaObs**2 *)
  q ← py_div (py_mul (pyfloat 2 1) sigmaObsError) sigmaObs;
  o2' ← py_pow2 sigmaObs;
  let squareError := py_mul q o2' in
  (* intrinsicError = 0.5 * squareError/sigmaObs**2 * intrinsic *)
  o2'' ← py_pow2 sigmaObs;
  r ← py_div (py_mul (pyfloat 5 10) squareError) o2'';
  let intrinsicError := py_mul r intrinsic in
  mret (intrinsic, intrinsicError).

(** [EmissionLineProfile._velocity]: [wave] is a numpy array, the
    operators work element by element and never raise. *)
Definition _velocity (restWave : A) (wave : list A) : list A :=
  (λ w, ((w - restWave) / restWave) * SpOfLi)%num <$> wave.
End kinematics.

(** ** The part of lmfit the script uses *)

(** An lmfit [Parameter] object: the fields the script sets, and [expr], which
    lmfit uses for derived parameters such as a Gaussian's [fwhm]. *)
Record LmParameter (A : Type) : Type := mkParameter {
  value : A;
  pmin : A;
  pmax : A;
  vary : bool;
  expr : option string;
}.
Arguments mkParameter {A}.
Arguments value {A}.
Arguments pmin {A}.
Arguments pmax {A}.
Arguments vary {A}.
Arguments expr {A}.

(** What [ModelResult] exposes to the script; [components] is what
    [eval_components()] returns. *)
Record ModelResult (A : Type) : Type := mkModelResult {
  best_values : gmap string A;
  best_fit : list A;
  params : gmap string (LmParameter A);
  components : gmap string (list A);
  fit_report : string;
}.
Arguments mkModelResult {A}.
Arguments best_values {A}.
Arguments best_fit {A}.
Arguments params {A}.
Arguments components {A}.
Arguments fit_report {A}.

(** A composite model is the list of the prefixes of its parts. *)
Class Lmfit (A : Type) : Type := {
  (* [GaussianModel(prefix=p).make_params()] *)
  gaussian_make_params : string → gmap string (LmParameter A);
  (* [LinearModel(prefix=p).make_params()] *)
  linear_make_params : string → gmap string (LmParameter A);
  (* [LinearModel(prefix=p).guess(data, x=x)] *)
  linear_guess : string → list A → list A → gmap string (LmParameter A);
  (* [mod.eval(pars, x=x)] *)
  model_eval : list string → gmap string (LmParameter A) → list A → list A;
  (* [mod.fit(data, pars, x=x, weights=w)] *)
  model_fit : list string → list A → gmap string (LmParameter A) → list A →
              option (list A) → ModelResult A;
  (* the value a [Parameter] holds after [set(v, min=lo, max=hi)]: [v]
     with the bounds applied *)
  bounded_value : A → A → A → A;
}.

(** [inf] is [np.inf]; [opp] is unary minus; [less x y] is [x < y], the
    comparison by which a value is held against a bound. *)
Class Unbounded (A : Type) : Type := {
  inf : A;
  opp : A → A;
  less : A → A → bool;
}.

Global Instance Unbounded_float : Unbounded float := {|
  inf := PrimFloat.infinity;
  opp := PrimFloat.opp;
  less := PrimFloat.ltb;
|}.

(** [pars[key]] and [d[key]] *)
Definition getitem {V} (d : gmap string V) (key : string) : result V :=
  match d !! key with
  | Some v => Ok v
  | None => Raise (KeyError key)
  end.

(** [l[i]] for [i >= 0] *)
Definition list_getitem {V} (l : list V) (i : nat) : result V :=
  match l !! i with
  | Some v => Ok v
  | None => Raise IndexError
  end.

(** [pars[key].set(v, min=lo, max=hi, vary=b)], as [_gaussian_component]
    calls it: a bound is [None] when it is the default of that signature,
    [-np.inf] for [min] and [np.inf] for [max].  lmfit stores the bounds
    and the flag, and keeps the value within the bounds: between [-inf] and
    [+inf] the value is stored as it is; with a bound that the caller
    supplied, the stored value is lmfit's [bounded_value]. *)
Definition set_param `{Unbounded A, Lmfit A} (pars : gmap string (LmParameter A))
    (key : string) (v : A) (lo hi : option A) (b : bool)
    : result (gmap string (LmParameter A)) :=
  p ← getitem pars key;
  let pmin := default (opp inf) lo in
  let pmax := default inf hi in
  let value :=
    match lo, hi with
    | None, None => v
    | _, _ => bounded_value v pmin pmax
    end in
  mret (<[key := mkParameter value pmin pmax b (expr p)]> pars).

(** [pars[key].set(v)] *)
Definition set_value {A} (pars : gmap string (LmParameter A)) (key : string)
    (v : A) : result (gmap string (LmParameter A)) :=
  p ← getitem pars key;
  mret (<[key := mkParameter v (pmin p) (pmax p) (vary p) (expr p)]> pars).

(** ** Output *)

Inductive arg (A : Type) : Type :=
| AStr (s : string)
| ANum (x : A).
Arguments AStr {A} s.
Arguments ANum {A} x.

(** What a call leaves behind besides its value: printed lines (format
    string and arguments) and matplotlib calls. *)
Inductive event (A : Type) : Type :=
| Print (fmt : string) (args : list (arg A))
| Figure (title : string)
| Plot (x y : list A) (label : string)
| Legend
| Savefig (path : string).
Arguments Print {A} fmt args.
Arguments Figure {A} title.
Arguments Plot {A} x y label.
Arguments Legend {A}.
Arguments Savefig {A} path.

Record io (A T : Type) : Type := IO {
  output : list (event A);
  outcome : result T;
}.
Arguments IO {A T}.
Arguments output {A T}.
Arguments outcome {A T}.

Global Instance io_ret {A} : MRet (io A) := λ _ v, IO [] (Ok v).
Global Instance io_bind {A} : MBind (io A) := λ _ _ f m,
  match outcome m with
  | Ok v => IO (output m ++ output (f v)) (outcome (f v))
  | Raise e => IO (output m) (Raise e)
  end.

Definition emit {A} (e : event A) : io A () := IO [e] (Ok ()).
Definition lift {A T} (r : result T) : io A T := IO [] r.

(** [for i in range(n)], threading an accumulator. *)
Fixpoint for_range {A T} (n : nat) (body : nat → T → io A T) (acc : T) : io A T :=
  match n with
  | O => mret acc
  | S n' => acc' ← for_range n' body acc; body n' acc'
  end.

Fixpoint for_range_r {T} (n : nat) (body : nat → T → result T) (acc : T) : result T :=
  match n with
  | O => mret acc
  | S n' => acc' ← for_range_r n' body acc; body n' acc'
  end.

(** ['g%d_' % (i+1)] *)
Definition g_prefix (i : nat) : string := "g" +:+ pretty (S i) +:+ "_".

(** ['g%d_center' % (i+1)] and the like, for a field name [field] *)
Definition g_key (i : nat) (field : string) : string :=
  "g" +:+ pretty (S i) +:+ "_" +:+ field.

(** ** FittingProfile *)

Record FittingProfile (A : Type) : Type := mkFittingProfile {
  vel : list A;
  flux : list A;
  fluxError : option (list A);
  restWave : A;
  lineName : string;
  zone : string;
  weights : option (list A);
  linGaussParams : gmap string (LmParameter A);
}.
Arguments mkFittingProfile {A}.
Arguments vel {A}.
Arguments flux {A}.
Arguments fluxError {A}.
Arguments restWave {A}.
Arguments lineName {A}.
Arguments zone {A}.
Arguments weights {A}.
Arguments linGaussParams {A}.

Section FittingProfile.
Context `{Arith A}.

(** [_weights]: [fluxError] is [None] or a numpy array. *)
Definition _weights (fluxError : option (list A)) : option (list A) :=
  match fluxError with
  | None => None
  | Some fluxErrorCR => Some ((λ e, lit 1 1 / e)%num <$> fluxErrorCR)
  end.

(** [__init__] *)
Definition FittingProfile_init (vel flux : list A) (restWave : A)
    (lineName zone : string) (fluxError : option (list A)) : FittingProfile A :=
  mkFittingProfile vel flux fluxError restWave lineName zone
    (_weights fluxError) ∅.

(** [_get_amplitude].  None of its operators can raise (the divisor is
    the constant [SpOfLi]), whatever the kind of the scalars. *)
Definition _get_amplitude (self : FittingProfile A) (numOfComponents : nat)
    (modelFit : ModelResult A) : io A A :=
  amplitudeTotal ← for_range numOfComponents (λ i amplitudeTotal,
      a ← lift (getitem (best_values modelFit) (g_key i "amplitude"));
      mret (amplitudeTotal + a)%num)
    (lit 0 1);
  emit (Print "Amplitude Total is %f" [ANum amplitudeTotal]);;
  let amplitudeFinal := ((amplitudeTotal / SpOfLi) * restWave self)%num in
  emit (Print "Amplitude Final is %f" [ANum amplitudeFinal]);;
  mret amplitudeFinal.
End FittingProfile.

Section fitting.
Context `{Arith A, Unbounded A, Lmfit A}.

(** The three locals [varyCentre], [varySigma], [varyAmp] of
    [_gaussian_component]: assigned together in each branch, and left
    unbound when the zone is neither ['low'] nor ['high']. *)
Definition vary_flags (zone lineName : string) : option (bool * bool * bool) :=
  if decide (zone = "low") then
    if decide (lineName = "H-Alpha") then Some (true, true, true)
    else if bool_decide (lineName ∈ ["NII-6584A"; "SII-6717A"; "OII-3729A"])
    then Some (false, true, true)
    else Some (false, false, true)
  else if decide (zone = "high") then
    if decide (lineName = "OIII-5007A") then Some (true, true, true)
    else Some (false, false, true)
  else None.

(** Reading a flag that may be unbound. *)
Definition read_flag (name : string) (v : option bool) : result bool :=
  match v with
  | Some b => Ok b
  | None => Raise (UnboundLocalError name)
  end.

(** [pars[key].set(v, min=lo, max=hi, vary=b)]: the subscript is
    evaluated before the arguments, so a missing key is reported before
    an unbound flag. *)
Definition subscript_set (pars : gmap string (LmParameter A)) (key : string)
    (v : A) (lo hi : option A) (b : result bool)
    : result (gmap string (LmParameter A)) :=
  getitem pars key;;
  b ← b;
  set_param pars key v lo hi b.

(** [_gaussian_component].  A bound that the caller does not pass is
    [None] here and takes the default of the signature, [-np.inf] or
    [np.inf], in [set_param].  The returned [GaussianModel] is represented
    by its prefix; [pars] is updated in place in the source and returned
    here. *)
Definition _gaussian_component (self : FittingProfile A)
    (pars : gmap string (LmParameter A)) (prefix : string) (c s a : A)
    (cMin cMax sMin sMax aMin aMax : option A)
    : result (string * gmap string (LmParameter A)) :=
  let flags := vary_flags (zone self) (lineName self) in
  let varyCentre := read_flag "varyCentre" (fst ∘ fst <$> flags) in
  let varySigma := read_flag "varySigma" (snd ∘ fst <$> flags) in
  let varyAmp := read_flag "varyAmp" (snd <$> flags) in
  let g := prefix in
  let pars := gaussian_make_params prefix ∪ pars in
  pars ← subscript_set pars (prefix +:+ "center") c cMin cMax varyCentre;
  pars ← subscript_set pars (prefix +:+ "sigma") s sMin sMax varySigma;
  pars ← subscript_set pars (prefix +:+ "amplitude") a aMin aMax varyAmp;
  mret (g, pars).

(** The loop of [lin_and_multi_gaussian] that builds the components. *)
Definition build_components (self : FittingProfile A) (numOfComponents : nat)
    (cList sList aList : list A) (pars : gmap string (LmParameter A))
    : result (list string * gmap string (LmParameter A)) :=
  for_range_r numOfComponents (λ i '(gList, pars),
      c ← list_getitem cList i;
      s ← list_getitem sList i;
      a ← list_getitem aList i;
      '(g, pars) ← _gaussian_component self pars (g_prefix i) c s a
                     None None None None None None;
      mret (gList ++ [g], pars))
    ([], pars).

(** [lin + gList.sum()]: with no component the sum is the number [0.0],
    which lmfit refuses to compose with a model. *)
Definition compose (lin : string) (gList : list string) : result (list string) :=
  match gList with
  | [] => Raise LmfitError
  | _ => Ok (lin :: gList)
  end.

(** [self.lineName + " %d Component Linear-Gaussian Model" % numOfComponents] *)
Definition model_title (self : FittingProfile A) (numOfComponents : nat) : string :=
  lineName self +:+ " " +:+ pretty numOfComponents
    +:+ " Component Linear-Gaussian Model".

(** [lin_and_multi_gaussian].  The method returns [out, components] and
    leaves the parameters in [self.linGaussParams]; the updated [self]
    is returned along. *)
Definition lin_and_multi_gaussian (self : FittingProfile A) (numOfComponents : nat)
    (cList sList aList : list A) (lS lI : A)
    : io A (FittingProfile A * (ModelResult A * gmap string (list A))) :=
  let lin := "lin_" in
  let pars := linear_guess lin (flux self) (vel self) in
  let pars := linear_make_params lin ∪ pars in
  pars ← lift (set_value pars "lin_slope" lS);
  pars ← lift (set_value pars "lin_intercept" lI);
  '(gList, pars) ← lift (build_components self numOfComponents cList sList aList pars);
  let self := mkFittingProfile (vel self) (flux self) (fluxError self)
                (restWave self) (lineName self) (zone self) (weights self) pars in
  model ← lift (compose lin gList);
  let init := model_eval model pars (vel self) in
  let out := model_fit model (flux self) pars (vel self) (weights self) in
  emit (Print "######## %s Linear and Multi-gaussian Model ##########"
          [AStr (lineName self)]);;
  emit (Print "%s" [AStr (fit_report out)]);;
  let components := components out in
  emit (Figure (model_title self numOfComponents));;
  emit (Plot (vel self) (flux self) "Original");;
  for_range numOfComponents (λ i _,
      comp ← lift (getitem components (g_prefix i));
      emit (Plot (vel self) comp (g_prefix i))) ();;
  comp ← lift (getitem components "lin_");
  emit (Plot (vel self) comp "lin_");;
  emit (Plot (vel self) (best_fit out) "Combined");;
  emit (Plot (vel self) init "init");;
  emit Legend;;
  emit (Savefig ("Figures/" +:+ model_title self numOfComponents));;
  _get_amplitude self numOfComponents out;;
  mret (self, (out, components)).
End fitting.

(** ** The script *)

(** A record of the catalog [emProfiles].  The keys ['centerList'] and
    ['sigmaList'] are absent until the loop assigns them. *)
Record EmInfo (A : Type) : Type := mkEmInfo {
  emColour : string;
  emOrder : Z;
  emFilter : string;
  emMinI : Z;
  emMaxI : Z;
  emRestWavelength : A;
  emAmpList : list A;
  emZone : string;
  emSigmaT2 : A;
  emCenterList : option (list A);
  emSigmaList : option (list A);
}.
Arguments mkEmInfo {A}.
Arguments emColour {A}.
Arguments emOrder {A}.
Arguments emFilter {A}.
Arguments emMinI {A}.
Arguments emMaxI {A}.
Arguments emRestWavelength {A}.
Arguments emAmpList {A}.
Arguments emZone {A}.
Arguments emSigmaT2 {A}.
Arguments emCenterList {A}.
Arguments emSigmaList {A}.

Definition set_centerList {A} (v : list A) (e : EmInfo A) : EmInfo A :=
  mkEmInfo (emColour e) (emOrder e) (emFilter e) (emMinI e) (emMaxI e)
    (emRestWavelength e) (emAmpList e) (emZone e) (emSigmaT2 e)
    (Some v) (emSigmaList e).

Definition set_sigmaList {A} (v : list A) (e : EmInfo A) : EmInfo A :=
  mkEmInfo (emColour e) (emOrder e) (emFilter e) (emMinI e) (emMaxI e)
    (emRestWavelength e) (emAmpList e) (emZone e) (emSigmaT2 e)
    (emCenterList e) (Some v).

(** [emProfiles[name]['centerList']] and [emProfiles[name]['sigmaList']] *)
Definition get_field {A V} (emProfiles : gmap string (EmInfo A)) (name : string)
    (field : EmInfo A → option V) (key : string) : result V :=
  e ← getitem emProfiles name;
  match field e with
  | Some v => Ok v
  | None => Raise (KeyError key)
  end.

(** [emProfiles[name][key] = v] *)
Definition set_field {A} (emProfiles : gmap string (EmInfo A)) (name : string)
    (update : EmInfo A → EmInfo A) : result (gmap string (EmInfo A)) :=
  e ← getitem emProfiles name;
  mret (<[name := update e]> emProfiles).

(** An element of [lowZoneProfiles] or [highZoneProfiles]. *)
Record zoneProfile (A : Type) : Type := mkZoneProfile {
  zpName : string;
  zpVel : list A;
  zpFlux : list A;
  zpBestFit : list A;
  zpColour : string;
  zpComps : gmap string (list A);
}.
Arguments mkZoneProfile {A}.

(** The variables of the script that the loop reads and writes. *)
Record script_state (A : Type) : Type := mkState {
  emProfiles : gmap string (EmInfo A);
  lowZoneProfiles : list (zoneProfile A);
  highZoneProfiles : list (zoneProfile A);
}.
Arguments mkState {A}.
Arguments emProfiles {A}.
Arguments lowZoneProfiles {A}.
Arguments highZoneProfiles {A}.

Section script.
Context `{Arith A, Unbounded A, Lmfit A}.

(** [galaxyRegion.mask_emission_line(order, filt=.., minIndex=.., maxIndex=..)]:
    the window of one line, cut from the spectra read from the FITS
    files: wavelengths, fluxes and, when error spectra were given, their
    counterparts. *)
Variable mask_emission_line :
  Z → string → Z → Z → result (list A * list A * option (list A) * option (list A)).

(** A decimal literal with [places] digits after the point. *)
Definition dec (digits : Z) (places : nat) : A :=
  lit digits (Z.to_pos (10 ^ Z.of_nat places)).

Definition numComps : nat := 3.

(** A record of the catalog as the script writes it: without
    ['centerList'] and ['sigmaList']. *)
Definition entry (colour : string) (order : Z) (filter : string) (minI maxI : Z)
    (restWavelength : A) (ampList : list A) (zone : string) (sigmaT2 : A) : EmInfo A :=
  mkEmInfo colour order filter minI maxI restWavelength ampList zone sigmaT2 None None.

(** The catalog, in the order of the [OrderedDict]. *)
Definition emProfiles_items : list (string * EmInfo A) := [
  ("H-Alpha", entry "b" 21 "red" 1180 1650 (dec 656282 2) [dec 171348544 7; dec 153253166 7; dec 25991642 6] "low" (dec 16496 2));
  ("OIII-5007A", entry "b" 5 "red" 1600 2100 (dec 500684 2) [dec 221758322 7; dec 265388225 7; dec 272491337 7] "high" (dec 4154 2));
  ("H-Beta", entry "g" 36 "blue" 2150 2800 (dec 486133 2) [dec 71034076 7; dec 69433769 7; dec 90872379 7] "low" (dec 16496 2));
  ("H-Gamma", entry "r" 28 "blue" 700 1200 (dec 434047 2) [dec 35975998 7; dec 44061048 7; dec 49858672 7] "low" (dec 16496 2));
  ("H-Delta", entry "c" 23 "blue" 1400 2000 (dec 410174 2) [dec 2044593 6; dec 25207303 7; dec 29131719 7] "low" (dec 16496 2));
  ("NII-6584A", entry "y" 21 "red" 1750 2050 (dec 658341 2) [dec 19724283 7; dec 22865144 7; dec 15250645 7] "low" (dec 1187 2));
  ("NII-6548A", entry "m" 21 "red" 1000 1300 (dec 654803 2) [dec 6269642 7; dec 7364259 7; dec 5323627 7] "low" (dec 1187 2));
  ("SII-6717A", entry "k" 22 "red" 1850 2000 (dec 671647 2) [dec 16193481 7; dec 22161351 7; dec 12806343 7] "low" (dec 519 2));
  ("SII-6731A", entry "#58D68D" 22 "red" 2100 2350 (dec 673085 2) [dec 10146995 7; dec 18904713 7; dec 4226594 7] "low" (dec 519 2));
  ("OII-3729A", entry "#5D6D7E" 14 "blue" 2800 3000 (dec 372882 2) [dec 16666917 6; dec (-24780989) 7; dec 190953365 7] "low" (dec 1039 2));
  ("OII-3726A", entry "#EC7063" 14 "blue" 2660 2829 (dec 372603 2) [dec 113620053 7; dec (-15491075) 7; dec 120488916 7] "low" (dec 1039 2));
  ("OI-6300A", entry "#D35400" 19 "red" 1050 1250 (dec 63003 1) [dec 4723283 7; dec 564226 7; dec 3964602 7] "low" (dec 1039 2));
  ("SIII-9069A", entry "#27AE60" 35 "red" 1720 1870 (dec 90689 1) [dec 9362368 7; dec 7920389 7; dec 13819049 7] "low" (dec 519 2));
  ("ArIII-7136A", entry "#0E6655" 25 "red" 1713 1790 (dec 713578 2) [dec 4554454 7; dec (-227442) 6; dec 1066718 6] "low" (dec 416 2));
  ("HeIH8-3889A", entry "#5B2C6F" 18 "blue" 2450 2750 (dec 388865 2) [dec 21000007 7; dec 44749605 7; dec 491404 7] "low" (dec 4154 2));
  ("HeI-4471A", entry "#78281F" 30 "blue" 1750 1900 (dec 447148 2) [dec 2947782 7; dec 391142 7; dec 4628401 7] "low" (dec 4154 2));
  ("HeI-5876A", entry "#641E16" 15 "red" 1320 1700 (dec 587564 2) [dec 6740428 7; dec 8351308 7; dec 995738 6] "low" (dec 4154 2));
  ("HeI-6678A", entry "#D5D8DC" 22 "red" 1050 1240 (dec 667815 2) [dec 2719279 7; dec (-142201) 7; dec 3160476 7] "low" (dec 4154 2));
  ("HeI-7065A", entry "#E8DAEF" 24 "red" 3150 3450 (dec 706519 2) [dec 1282397 7; dec 734707 7; dec 1437775 7] "low" (dec 4154 2));
  ("OIII-4959A", entry "g" 4 "red" 2300 2800 (dec 495891 2) [dec 68087454 7; dec 125480993 7; dec 82404803 7] "high" (dec 1039 2));
  ("NeIII-3868A", entry "r" 18 "blue" 1430 1650 (dec 386875 2) [dec 17799479 7; dec 21882309 7; dec 24413756 7] "high" (dec 824 2));
  ("NeIII-3970A", entry "c" 20 "blue" 2110 2290 (dec 397007 2) [dec 1238593 6; dec 16775335 7; dec 12004524 7] "high" (dec 824 2));
  ("NeIII-3967A", entry "m" 20 "blue" 1950 2135 (dec 396746 2) [dec 2356511 7; dec 21809468 7; dec 4933878 7] "high" (dec 824 2))
].

Definition centerListLowZone : list A := [dec 634920126 5; dec 632897820 5; dec 631553639 5].
Definition sigmaListLowZone : list A := [dec 192852694 7; dec 641684056 7; dec 222647170 7].
Definition linSlopeLowZone : A := dec 19393 11.
Definition linIntLowZone : A := dec 761986 8.
Definition centerListHighZone : list A := [dec 634846630 5; dec 633303711 5; dec 631457965 5].
Definition sigmaListHighZone : list A := [dec 159660139 7; dec 563804782 7; dec 166302799 7].
Definition linSlopeHighZone : A := dec 26129 10.
Definition linIntHighZone : A := dec (-147764) 8.

Definition initial_state : script_state A :=
  mkState (list_to_map emProfiles_items) [] [].

(** [[model.best_values['g%d_<field>' % (idx + 1)] for idx in range(numComps)]],
    built by [append] in the source. *)
Definition best_list (model : ModelResult A) (field : string) : result (list A) :=
  for_range_r numComps (λ idx l,
      v ← getitem (best_values model) (g_key idx field);
      mret (l ++ [v]))
    [].

(** The fit of a zone's reference line: seeds from the script, then
    both fitted lists are stored. *)
Definition fit_reference (fittingProfile : FittingProfile A)
    (emProfiles : gmap string (EmInfo A)) (emName : string) (emInfo : EmInfo A)
    (centerList sigmaList : list A) (lS lI : A)
    : io A (gmap string (EmInfo A) * ModelResult A * gmap string (list A)) :=
  '(_, (model, comps)) ← lin_and_multi_gaussian fittingProfile numComps
      centerList sigmaList (emAmpList emInfo) lS lI;
  emProfiles ← lift (set_field emProfiles emName (set_centerList []));
  emProfiles ← lift (set_field emProfiles emName (set_sigmaList []));
  '(cl, sl) ← lift (for_range_r numComps (λ idx '(cl, sl),
      c ← getitem (best_values model) (g_key idx "center");
      s ← getitem (best_values model) (g_key idx "sigma");
      mret (cl ++ [c], sl ++ [s])) ([], []));
  emProfiles ← lift (set_field emProfiles emName (set_centerList cl));
  emProfiles ← lift (set_field emProfiles emName (set_sigmaList sl));
  mret (emProfiles, model, comps).

(** Lines 303 to 350 of one iteration of
    [for emName, emInfo in emProfiles.items()]: from the header to the
    [append] to the zone's list of profiles.  Lines 353 to 359, which
    close the iteration by collecting the report from [model], are not
    modelled.  The result carries the [model] that these lines assign:
    none when the zone is neither ['low'] nor ['high']. *)
Definition iteration (st : script_state A) (emName : string)
    : io A (script_state A * option (ModelResult A)) :=
  emInfo ← lift (getitem (emProfiles st) emName);
  emit (Print "------------------ %s ----------------" [AStr emName]);;
  '(wave1, flux1, wave1Error, flux1Error) ← lift (mask_emission_line
      (emOrder emInfo) (emFilter emInfo) (emMinI emInfo) (emMaxI emInfo));
  (* EmissionLineProfile(...).vel *)
  let vel1 := _velocity (emRestWavelength emInfo) wave1 in
  let fittingProfile := FittingProfile_init vel1 flux1 (emRestWavelength emInfo)
                          emName (emZone emInfo) flux1Error in
  let emProfiles := emProfiles st in
  if decide (emZone emInfo = "low") then
    '(emProfiles, model, comps) ←
      (if decide (emName = "H-Alpha") then
         fit_reference fittingProfile emProfiles emName emInfo
           centerListLowZone sigmaListLowZone linSlopeLowZone linIntLowZone
       else if bool_decide (emName ∈ ["NII-6584A"; "SII-6717A"; "OII-3729A"]) then
         cl ← lift (get_field emProfiles "H-Alpha" emCenterList "centerList");
         emProfiles ← lift (set_field emProfiles emName (set_centerList cl));
         cl ← lift (get_field emProfiles "H-Alpha" emCenterList "centerList");
         sl ← lift (get_field emProfiles "H-Alpha" emSigmaList "sigmaList");
         '(_, (model, comps)) ← lin_and_multi_gaussian fittingProfile numComps
             cl sl (emAmpList emInfo) linSlopeLowZone linIntLowZone;
         emProfiles ← lift (set_field emProfiles emName (set_sigmaList []));
         sl ← lift (best_list model "sigma");
         emProfiles ← lift (set_field emProfiles emName (set_sigmaList sl));
         mret (emProfiles, model, comps)
       else
         cl ← lift (get_field emProfiles "H-Alpha" emCenterList "centerList");
         emProfiles ← lift (set_field emProfiles emName (set_centerList cl));
         let sibling :=
           if decide (emName = "NII-6548A") then "NII-6584A"
           else if decide (emName = "SII-6731A") then "SII-6717A"
           else if decide (emName = "OII-3726A") then "OII-3729A"
           else "H-Alpha" in
         sl ← lift (get_field emProfiles sibling emSigmaList "sigmaList");
         emProfiles ← lift (set_field emProfiles emName (set_sigmaList sl));
         cl ← lift (get_field emProfiles emName emCenterList "centerList");
         sl ← lift (get_field emProfiles emName emSigmaList "sigmaList");
         '(_, (model, comps)) ← lin_and_multi_gaussian fittingProfile numComps
             cl sl (emAmpList emInfo) linSlopeLowZone linIntLowZone;
         mret (emProfiles, model, comps));
    let row := mkZoneProfile emName vel1 flux1 (best_fit model) (emColour emInfo) comps in
    mret (mkState emProfiles (lowZoneProfiles st ++ [row]) (highZoneProfiles st),
          Some model)
  else if decide (emZone emInfo = "high") then
    '(emProfiles, model, comps) ←
      (if decide (emName = "OIII-5007A") then
         fit_reference fittingProfile emProfiles emName emInfo
           centerListHighZone sigmaListHighZone linSlopeHighZone linIntHighZone
       else
         cl ← lift (get_field emProfiles "OIII-5007A" emCenterList "centerList");
         emProfiles ← lift (set_field emProfiles emName (set_centerList cl));
         sl ← lift (get_field emProfiles "OIII-5007A" emSigmaList "sigmaList");
         emProfiles ← lift (set_field emProfiles emName (set_sigmaList sl));
         cl ← lift (get_field emProfiles emName emCenterList "centerList");
         sl ← lift (get_field emProfiles emName emSigmaList "sigmaList");
         '(_, (model, comps)) ← lin_and_multi_gaussian fittingProfile numComps
             cl sl (emAmpList emInfo) linSlopeHighZone linIntHighZone;
         mret (emProfiles, model, comps));
    let row := mkZoneProfile emName vel1 flux1 (best_fit model) (emColour emInfo) comps in
    mret (mkState emProfiles (lowZoneProfiles st) (highZoneProfiles st ++ [row]),
          Some model)
  else
    mret (st, None).
End script.

(** ** The outcome of a fit, without its output *)

Section outcome.
Context `{Arith A, Unbounded A, Lmfit A}.

(** The running total of [_get_amplitude]. *)
Definition amplitude_total (numOfComponents : nat) (modelFit : ModelResult A) : result A :=
  for_range_r numOfComponents (λ i amplitudeTotal,
      a ← getitem (best_values modelFit) (g_key i "amplitude");
      mret (amplitudeTotal + a)%num)
    (lit 0 1).

(** The parameters after [_gaussian_component] has added a component with
    the given seeds and flags and no explicit bounds. *)
Definition component_params (prefix : string) (c s a : A) (flags : bool * bool * bool)
    (pars : gmap string (LmParameter A)) : gmap string (LmParameter A) :=
  <[prefix +:+ "amplitude" := mkParameter a (opp inf) inf flags.2 None]>
    (<[prefix +:+ "sigma" := mkParameter s (opp inf) inf flags.1.2 None]>
      (<[prefix +:+ "center" := mkParameter c (opp inf) inf flags.1.1 None]>
        (gaussian_make_params prefix ∪ pars))).

(** The three parameters of component [i] hold the seeds, unbounded, with
    the given flags. *)
Definition seeded (pars : gmap string (LmParameter A)) (i : nat) (c s a : A)
    (flags : bool * bool * bool) : Prop :=
  pars !! (g_prefix i +:+ "center") = Some (mkParameter c (opp inf) inf flags.1.1 None)
  ∧ pars !! (g_prefix i +:+ "sigma") = Some (mkParameter s (opp inf) inf flags.1.2 None)
  ∧ pars !! (g_prefix i +:+ "amplitude") = Some (mkParameter a (opp inf) inf flags.2 None).

(** The steps of [lin_and_multi_gaussian] that decide what it returns or
    raises, in the order of the source; a proof device, related to the method
    by [lin_and_multi_gaussian_outcome]. *)
Definition fit_outcome (self : FittingProfile A) (numOfComponents : nat)
    (cList sList aList : list A) (lS lI : A)
    : result (FittingProfile A * (ModelResult A * gmap string (list A))) :=
  let pars := linear_make_params "lin_" ∪ linear_guess "lin_" (flux self) (vel self) in
  pars ← set_value pars "lin_slope" lS;
  pars ← set_value pars "lin_intercept" lI;
  '(gList, pars) ← build_components self numOfComponents cList sList aList pars;
  model ← compose "lin_" gList;
  let out := model_fit model (flux self) pars (vel self) (weights self) in
  for_range_r numOfComponents (λ i _,
      getitem (components out) (g_prefix i);; mret ()) ();;
  getitem (components out) "lin_";;
  amplitude_total numOfComponents out;;
  mret (mkFittingProfile (vel self) (flux self) (fluxError self) (restWave self)
          (lineName self) (zone self) (weights self) pars,
        (out, components out)).
End outcome.

(** A string without the character [_]. *)
Fixpoint no_underscore (s : string) : Prop :=
  match s with
  | EmptyString => True
  | String c s' => c ≠ "_"%char ∧ no_underscore s'
  end.

(** ** What the proofs assume of lmfit *)

(** The names of a Gaussian's parameters that the script sets and reads. *)
Definition gaussian_fields : list string := ["center"; "sigma"; "amplitude"].

(** The documented behaviour of lmfit that the script relies on: a model's
    parameters carry its prefix; a Gaussian has [center], [sigma] and
    [amplitude], none of them tied to an expression; a line has [slope]
    and [intercept]; a fit reports a best value for each of these
    parameters and leaves an unbounded parameter with [vary=False] at the
    value it was given; and [eval_components()] has an entry for each part
    of the model. *)
Class LmfitLaws (A : Type) `{Unbounded A, Lmfit A} : Prop := {
  gaussian_make_params_prefix prefix key :
    is_Some (gaussian_make_params prefix !! key) → ∃ field, key = prefix +:+ field;
  gaussian_make_params_field prefix field :
    field ∈ gaussian_fields →
    ∃ p, gaussian_make_params prefix !! (prefix +:+ field) = Some p ∧ expr p = None;
  linear_make_params_field prefix field :
    field ∈ ["slope"; "intercept"] →
    is_Some (linear_make_params prefix !! (prefix +:+ field));
  model_fit_best_values model data pars x w prefix field p :
    prefix ∈ model → field ∈ gaussian_fields →
    pars !! (prefix +:+ field) = Some p →
    ∃ v, best_values (model_fit model data pars x w) !! (prefix +:+ field) = Some v
         ∧ (vary p = false → expr p = None → pmin p = opp inf → pmax p = inf →
            v = value p);
  model_fit_components model data pars x w prefix :
    prefix ∈ model → is_Some (components (model_fit model data pars x w) !! prefix);
}.

(** ** A stand-in for lmfit *)

(** An instance of the interface that can be run: parameters get lmfit's
    names, a value above [max] becomes [max] and one below [min] becomes
    [min], and the "fit" moves every free parameter by one and leaves the
    fixed ones alone.  It serves to evaluate the model on concrete
    inputs. *)
Module Standin.
Section standin.
Context `{Arith A, Unbounded A}.

Definition free (v : A) : LmParameter A := mkParameter v (opp inf) inf true None.

Definition derived (e : string) : LmParameter A :=
  mkParameter (lit 0 1) (opp inf) inf false (Some e).

Definition make_gaussian (prefix : string) : gmap string (LmParameter A) :=
  <[prefix +:+ "amplitude" := free (lit 1 1)]>
    (<[prefix +:+ "center" := free (lit 0 1)]>
      (<[prefix +:+ "sigma" := free (lit 1 1)]>
        (<[prefix +:+ "fwhm" := derived "2.3548200*sigma"]>
          (<[prefix +:+ "height" := derived "0.3989423*amplitude/sigma"]> ∅)))).

Definition make_linear (prefix : string) : gmap string (LmParameter A) :=
  <[prefix +:+ "slope" := free (lit 1 1)]>
    (<[prefix +:+ "intercept" := free (lit 0 1)]> ∅).

Definition step (p : LmParameter A) : A :=
  if vary p then (value p + lit 1 1)%num else value p.

Definition clip (v lo hi : A) : A :=
  if less hi v then hi else if less v lo then lo else v.

Definition fit (model : list string) (data : list A)
    (pars : gmap string (LmParameter A)) (x : list A) (w : option (list A))
    : ModelResult A :=
  mkModelResult (step <$> pars) data
    ((λ p, mkParameter (step p) (pmin p) (pmax p) (vary p) (expr p)) <$> pars)
    (list_to_map ((λ prefix, (prefix, data)) <$> model))
    "[[Model]]".

Global Instance lmfit : Lmfit A := {|
  gaussian_make_params := make_gaussian;
  linear_make_params := make_linear;
  linear_guess prefix data x := make_linear prefix;
  model_eval model pars x := x;
  model_fit := fit;
  bounded_value := clip;
|}.
End standin.

(** A window of three samples, with an error spectrum. *)
Definition mask_emission_line (order : Z) (filt : string) (minIndex maxIndex : Z)
    : result (list float * list float * option (list float) * option (list float)) :=
  let wave := [6562; 6563; 6564]%float in
  let flux := [1; 2; 1]%float in
  Ok (wave, flux, Some wave, Some [1; 0; 2]%float).
End Standin.

(** The script's state once ['H-Alpha'], the first line of the catalog, has
    been processed with the stand-in. *)
Definition after_H_Alpha : script_state float :=
  match outcome (iteration Standin.mask_emission_line initial_state "H-Alpha") with
  | Ok (st, _) => st
  | Raise _ => initial_state
  end.

(** ** The specification's vocabulary *)

(** The reference line of a zone. *)
Definition spec_reference (zone : string) : string :=
  if decide (zone = "low") then "H-Alpha" else "OIII-5007A".

(** The line whose sigma list a line of the given zone takes: the linked
    sibling for the three named pairs, the zone's reference otherwise. *)
Definition spec_sigma_source (zone emName : string) : string :=
  if decide (zone = "low") then
    if decide (emName = "NII-6548A") then "NII-6584A"
    else if decide (emName = "SII-6731A") then "SII-6717A"
    else if decide (emName = "OII-3726A") then "OII-3729A"
    else "H-Alpha"
  else "OIII-5007A".

(** The three lines whose sigma list comes from a linked sibling, each with
    that sibling. *)
Definition sibling_pairs : list (string * string) :=
  [("NII-6548A", "NII-6584A"); ("SII-6731A", "SII-6717A"); ("OII-3726A", "OII-3729A")].

(** ** Indexing and slicing *)

(** [a[i]] for an integer [i], on a list or on the first axis of a numpy
    array: a negative index counts from the end, and an index outside
    [-len(a) .. len(a)-1] raises [IndexError]. *)
Definition np_getitem {V} (a : list V) (i : Z) : result V :=
  let k := if decide (i < 0)%Z then (i + Z.of_nat (length a))%Z else i in
  if decide (k < 0)%Z then Raise IndexError else list_getitem a (Z.to_nat k).

(** A bound of a slice, brought into [0 .. n]: a negative bound counts
    from the end, and what still falls outside is clamped. *)
Definition slice_bound (n i : Z) : Z :=
  if decide (i < 0)%Z then Z.max (i + n) 0 else Z.min i n.

(** [a[lo:hi]]; a slice never raises. *)
Definition py_slice {V} (a : list V) (lo hi : Z) : list V :=
  let n := Z.of_nat (length a) in
  let lo := slice_bound n lo in
  let hi := slice_bound n hi in
  take (Z.to_nat (hi - lo)) (drop (Z.to_nat lo) a).

(** ** Calls that may end the script *)

(** [exit()] raises [SystemExit], which nothing in the script catches: a
    call ends in a value, in an exception, or in the interpreter's exit. *)
Inductive ending (T : Type) : Type :=
| Returned (v : T)
| Raised (e : exn)
| Exited.
Arguments Returned {T} v.
Arguments Raised {T} e.
Arguments Exited {T}.

Record run (A T : Type) : Type := Run {
  printed : list (event A);
  ended : ending T;
}.
Arguments Run {A T}.
Arguments printed {A T}.
Arguments ended {A T}.

Global Instance run_ret {A} : MRet (run A) := λ _ v, Run [] (Returned v).
Global Instance run_bind {A} : MBind (run A) := λ _ _ f m,
  match ended m with
  | Returned v => Run (printed m ++ printed (f v)) (ended (f v))
  | Raised e => Run (printed m) (Raised e)
  | Exited => Run (printed m) Exited
  end.

(** A step that can only return or raise. *)
Definition run_result {A T} (r : result T) : run A T :=
  match r with
  | Ok v => Run [] (Returned v)
  | Raise e => Run [] (Raised e)
  end.

(** ** read_spectra *)

(** A [Spectrum1D] as [read_fits_spectrum1d] returns it, one for each order:
    the dispersion (wavelengths, in angstrom) and the flux. *)
Record Spectrum1D (A : Type) : Type := mkSpectrum1D {
  spDispersion : list A;
  spFlux : list A;
}.
Arguments mkSpectrum1D {A}.
Arguments spDispersion {A}.
Arguments spFlux {A}.

Section read_spectra.
Context `{Arith A}.

(** [read_spectra], from the list that [read_fits_spectrum1d(filename)]
    returned on: the loop appends the wavelengths of each order to [x] and
    its scaled fluxes to [y]. *)
Definition read_spectra (spectra : list (Spectrum1D A)) (scaleFlux : A)
    : list (list A) * list (list A) :=
  foldl (λ '(x, y) spectrum,
           (x ++ [spDispersion spectrum],
            y ++ [(λ f, f * scaleFlux)%num <$> spFlux spectrum]))
        ([], []) spectra.
End read_spectra.

(** ** GalaxyRegion *)

(** The attributes of a [GalaxyRegion]: an array of wavelengths and one of
    fluxes for each filter, with one row for each order.  [__init__] sets
    [xBlueError] and [yBlueError] together ([None], or the two arrays of the
    error file), and so for red: each pair is one optional field here. *)
Record GalaxyRegion (A : Type) : Type := mkGalaxyRegion {
  xBlue : list (list A);
  yBlue : list (list A);
  xRed : list (list A);
  yRed : list (list A);
  blueError : option (list (list A) * list (list A));
  redError : option (list (list A) * list (list A));
}.
Arguments mkGalaxyRegion {A}.
Arguments xBlue {A}.
Arguments yBlue {A}.
Arguments xRed {A}.
Arguments yRed {A}.
Arguments blueError {A}.
Arguments redError {A}.

Section GalaxyRegion.
Context `{Arith A}.

(** [__init__], from the spectra read from the files on (an error file
    that is not given is [None]); the directory ['Figures/'] that it
    creates is not modelled. *)
Definition GalaxyRegion_init (specFileBlue specFileRed : list (Spectrum1D A))
    (specFileBlueError specFileRedError : option (list (Spectrum1D A)))
    (scaleFlux : A) : GalaxyRegion A :=
  let '(xBlue, yBlue) := read_spectra specFileBlue scaleFlux in
  let '(xRed, yRed) := read_spectra specFileRed scaleFlux in
  let blueError :=
    match specFileBlueError with
    | None => None
    | Some spectra => Some (read_spectra spectra scaleFlux)
    end in
  let redError :=
    match specFileRedError with
    | None => None
    | Some spectra => Some (read_spectra spectra scaleFlux)
    end in
  mkGalaxyRegion xBlue yBlue xRed yRed blueError redError.

(** The locals [x, y, xE, yE] of [_filter_argument]: bound only for the
    two known filters. *)
Definition filter_locals (self : GalaxyRegion A) (filt : string)
    : option (list (list A) * list (list A) * option (list (list A) * list (list A))) :=
  if decide (filt = "red") then Some (xRed self, yRed self, redError self)
  else if decide (filt = "blue") then Some (xBlue self, yBlue self, blueError self)
  else None.

(** [_filter_argument]: the [return] reads the locals; when they are
    unbound the [UnboundLocalError], a [NameError], is caught, a message is
    printed and [exit()] ends the script. *)
Definition _filter_argument (self : GalaxyRegion A) (filt : string)
    : run A (list (list A) * list (list A) * option (list (list A) * list (list A))) :=
  let body :=
    match filter_locals self filt with
    | Some locals => Ok locals
    | None => Raise (UnboundLocalError "x")
    end in
  match body with
  | Ok locals => Run [] (Returned locals)
  | Raise (UnboundLocalError _) =>
      Run [Print "Error: Invalid argument. Choose 'red' or 'blue' for the filter argument" []]
          Exited
  | Raise e => Run [] (Raised e)
  end.

(** [mask_emission_line]: the samples [minIndex .. maxIndex-1] of order
    [orderNum], counted from 1.  The signature's defaults are
    [filt='red'], [minIndex=0] and [maxIndex=-1]. *)
Definition mask_emission_line (self : GalaxyRegion A) (orderNum : Z) (filt : string)
    (minIndex maxIndex : Z)
    : run A (list A * list A * option (list A) * option (list A)) :=
  let orderNum := (orderNum - 1)%Z in
  '(x, y, error) ← _filter_argument self filt;
  run_result (
    xo ← np_getitem x orderNum;
    yo ← np_getitem y orderNum;
    let xMask := py_slice xo minIndex maxIndex in
    let yMask := py_slice yo minIndex maxIndex in
    match error with
    | None => mret (xMask, yMask, None, None)
    | Some (xE, yE) =>
        xEo ← np_getitem xE orderNum;
        yEo ← np_getitem yE orderNum;
        mret (xMask, yMask, Some (py_slice xEo minIndex maxIndex),
              Some (py_slice yEo minIndex maxIndex))
    end).
End GalaxyRegion.

(** ** The loop of the script *)

Section loop.
Context `{Arith A, Unbounded A, Lmfit A}.
Variable mask :
  Z → string → Z → Z → result (list A * list A * option (list A) * option (list A)).

(** [for emName, emInfo in emProfiles.items()], with the names in the
    order of the catalog: lines 303 to 350 for each name in turn (lines 353
    to 359, which close each iteration, are not modelled). *)
Fixpoint main_loop (names : list string) (st : script_state A)
    : io A (script_state A) :=
  match names with
  | [] => mret st
  | emName :: names => '(st, _) ← iteration mask st emName; main_loop names st
  end.
End loop.

(** The lines whose recorded lists the iteration for [emName] reads: none
    for the reference of a zone, else the reference (for the centers) and
    the line the sigmas come from. *)
Definition sources (zone emName : string) : list string :=
  if decide (emName = spec_reference zone) then []
  else [spec_reference zone; spec_sigma_source zone emName].

(** A catalog in an order the loop can process: every name is in the
    catalog once, in zone ['low'] or ['high'], with at least [numComps]
    amplitudes, and comes after the lines it reads from. *)
Fixpoint ordered_catalog {A} (emProfiles : gmap string (EmInfo A))
    (done names : list string) : bool :=
  match names with
  | [] => true
  | emName :: names =>
      match emProfiles !! emName with
      | None => false
      | Some emInfo =>
          bool_decide (emZone emInfo = "low" ∨ emZone emInfo = "high")
          && bool_decide (numComps ≤ length (emAmpList emInfo))
          && bool_decide (emName ∉ done)
          && forallb (λ src, bool_decide (src ∈ done)) (sources (emZone emInfo) emName)
          && ordered_catalog emProfiles (emName :: done) names
      end
  end.

(** The names of the catalog, in its order. *)
Definition emProfiles_names : list string :=
  ["H-Alpha"; "OIII-5007A"; "H-Beta"; "H-Gamma"; "H-Delta"; "NII-6584A"; "NII-6548A";
   "SII-6717A"; "SII-6731A"; "OII-3729A"; "OII-3726A"; "OI-6300A"; "SIII-9069A";
   "ArIII-7136A"; "HeIH8-3889A"; "HeI-4471A"; "HeI-5876A"; "HeI-6678A"; "HeI-7065A";
   "OIII-4959A"; "NeIII-3868A"; "NeIII-3970A"; "NeIII-3967A"].

(** ** A small region *)

(** Two orders of four samples, as read from a file. *)
Definition example_spectra : list (Spectrum1D float) :=
  [mkSpectrum1D [4100; 4101; 4102; 4103]%float [1; 2; 4; 2]%float;
   mkSpectrum1D [4200; 4201; 4202; 4203]%float [1; 3; 5; 1]%float].

(** A region with these orders in both filters, fluxes scaled by 2, and
    an error file for red only. *)
Definition example_region : GalaxyRegion float :=
  GalaxyRegion_init example_spectra example_spectra None (Some example_spectra) 2%float.

(** The lines of zone ['low'] whose sigmas stay free in the fit. *)
Definition sigma_free (zone emName : string) : bool :=
  bool_decide (zone = "low" ∧ emName ∈ ["NII-6584A"; "SII-6717A"; "OII-3729A"]).

(** What the loop leaves on record for a line it has processed, with [m0]
    the catalog before the loop, [m] the catalog now and [done] the lines
    processed so far: the entry of the catalog with a center list and a sigma
    list of [numComps] entries each; for a line that is not the reference of
    its zone, the center list is the one on record for the reference, and
    the sigma list, unless the sigmas were free, the one on record for the
    line the sigmas come from. *)
Definition line_done {A} (m0 m : gmap string (EmInfo A)) (done : list string)
    (emName : string) : Prop :=
  ∃ emInfo cl sl,
    m0 !! emName = Some emInfo
    ∧ m !! emName = Some (set_sigmaList sl (set_centerList cl emInfo))
    ∧ length cl = numComps ∧ length sl = numComps
    ∧ (emName ≠ spec_reference (emZone emInfo) →
       spec_reference (emZone emInfo) ∈ done
       ∧ spec_sigma_source (emZone emInfo) emName ∈ done
       ∧ (emCenterList <$> m !! spec_reference (emZone emInfo)) = Some (Some cl)
       ∧ (sigma_free (emZone emInfo) emName = false →
          (emSigmaList <$> m !! spec_sigma_source (emZone emInfo) emName)
          = Some (Some sl))).

(** * Properties *)

(** ** Scalars *)

Lemma val_lift2 `{Arith A} (op : A → A → A) (a b : scalar A) :
  val (lift2 op a b) = op (val a) (val b).
Proof. unfold lift2. by destruct (is_py a && is_py b). Qed.

Lemma sigmaInstr_of_other `{Arith A} (filter : string) :
  filter ≠ "blue" → filter ≠ "red" → sigmaInstr_of (A:=A) filter = None.
Proof. intros. unfold sigmaInstr_of. repeat case_decide; done. Qed.

(** ** Exact arithmetic *)

Section exact.
Local Open Scope R_scope.

Lemma is_zero_R_false (x : R) : x ≠ 0 → is_zero x = false.
Proof. intros. simpl. by apply bool_decide_eq_false. Qed.

Lemma py_pow2_R (a : scalar R) : ∃ b, py_pow2 a = Ok b ∧ val b = val a * val a.
Proof. destruct a; simpl; eauto. Qed.

Lemma py_div_R (a b : scalar R) : val b ≠ 0 → py_div a b = Ok (lift2 div a b).
Proof.
  intros Hb. unfold py_div. rewrite (is_zero_R_false _ Hb).
  by rewrite andb_false_r.
Qed.

(** What [vel_dispersion] computes over the reals, operation by
    operation, when nothing raises. *)
Lemma vel_dispersion_R (so se st si : scalar R) (filter : string) :
  sigmaInstr_of filter = Some si → val so ≠ 0 →
  ∃ i e, vel_dispersion so se st filter = Ok (i, e)
    ∧ val i = R_sqrt.sqrt (val so * val so - val si * val si - val st)
    ∧ val e = 5 / 10 * (2 * val se / val so * (val so * val so))
                / (val so * val so) * val i.
Proof.
  intros Hf Hso. unfold vel_dispersion. rewrite Hf. simpl.
  destruct (py_pow2_R so) as (o2 & -> & Ho2). simpl.
  destruct (py_pow2_R si) as (i2 & -> & Hi2). simpl.
  rewrite py_div_R by done. simpl.
  rewrite py_div_R by (rewrite Ho2; nra). simpl.
  eexists _, _. split; [reflexivity|].
  unfold np_sqrt, py_sub, py_mul, pyfloat. cbn [val].
  rewrite !val_lift2. cbn [val]. rewrite Ho2, Hi2. simpl.
  split; [done|]. field. done.
Qed.

End exact.

(** ** Binary64 arithmetic *)

Section binary64.
Local Open Scope float_scope.

Lemma float_sqrt_negative (x : float) :
  (x <? 0) = true → PrimFloat.sqrt x = PrimFloat.nan.
Proof.
  rewrite ltb_spec. intros Hlt. apply Prim2SF_inj. rewrite sqrt_spec.
  change (Prim2SF 0) with (S754_zero false) in Hlt.
  change (Prim2SF PrimFloat.nan) with S754_nan.
  destruct (Prim2SF x) as [s|s| |s m e]; try discriminate;
    destruct s; try discriminate; reflexivity.
Qed.

Lemma float_mul_nan_r (x : float) : x * PrimFloat.nan = PrimFloat.nan.
Proof.
  apply Prim2SF_inj. rewrite mul_spec.
  change (Prim2SF PrimFloat.nan) with S754_nan.
  destruct (Prim2SF x) as [s|s| |s m e]; reflexivity.
Qed.

Lemma float_eqb_zero (x : float) :
  (x =? 0) = true ↔ ∃ s, Prim2SF x = S754_zero s.
Proof.
  rewrite FloatAxioms.eqb_spec. change (Prim2SF 0) with (S754_zero false).
  destruct (Prim2SF x) as [s|s| |s m e]; simpl; split;
    try discriminate; try (intros [? ?]; discriminate); eauto;
    destruct s; discriminate.
Qed.

Lemma float_mul_zero (x : float) : (x =? 0) = true → (x * x =? 0) = true.
Proof.
  rewrite !float_eqb_zero. intros [s Hs]. rewrite mul_spec, Hs. simpl. eauto.
Qed.

(** [1/0.0] is [inf] and [1/-0.0] is [-inf]. *)
Lemma float_inv_zero (x : float) :
  (x =? 0) = true → PrimFloat.is_infinity (1 / x) = true.
Proof.
  rewrite float_eqb_zero. intros [s Hs].
  assert (1 / x = SF2Prim (S754_infinity s)) as ->.
  { rewrite <- (SF2Prim_Prim2SF (1 / x)), div_spec, Hs. reflexivity. }
  destruct s; reflexivity.
Qed.

Lemma float_is_infinity (x : float) :
  PrimFloat.is_infinity x = true ↔ ∃ s, Prim2SF x = S754_infinity s.
Proof.
  unfold PrimFloat.is_infinity. rewrite FloatAxioms.eqb_spec, abs_spec.
  change (Prim2SF PrimFloat.infinity) with (S754_infinity false).
  destruct (Prim2SF x) as [s|s| |s m e]; simpl; split;
    try discriminate; try (intros [? ?]; discriminate); eauto.
Qed.

Lemma binary_round_aux_infinity (sx s : bool) (mx ex : Z) (lx : location) :
  binary_round_aux prec emax sx mx ex lx = S754_infinity s → s = sx.
Proof.
  unfold binary_round_aux.
  destruct (shr_fexp _ _ _ _ _) as [mrs' e'].
  destruct (shr_fexp _ _ _ _ _) as [mrs'' e''].
  destruct (shr_m mrs''); try discriminate.
  destruct (_ <=? _)%Z; try discriminate. by intros [= ->].
Qed.

(** A square is never [-inf]. *)
Lemma float_square_infinity (x : float) :
  PrimFloat.is_infinity (x * x) = true → x * x = PrimFloat.infinity.
Proof.
  rewrite float_is_infinity. intros [s Hs].
  apply Prim2SF_inj. rewrite Hs.
  change (Prim2SF PrimFloat.infinity) with (S754_infinity false).
  f_equal. rewrite mul_spec in Hs.
  destruct (Prim2SF x) as [sx|sx| |sx m e]; simpl in Hs; try discriminate.
  - injection Hs as <-. by destruct sx.
  - apply binary_round_aux_infinity in Hs. by destruct sx.
Qed.

(** A square that overflows makes the radicand [inf] or [nan], never
    negative. *)
Lemma float_radicand_overflow (x y t : float) :
  PrimFloat.is_infinity (x * x) = true →
  PrimFloat.is_infinity y = false → PrimFloat.is_nan y = false →
  (x * x - y - t <? 0) = false.
Proof.
  intros Hx Hy Hn. rewrite (float_square_infinity x Hx).
  assert (PrimFloat.infinity - y = PrimFloat.infinity) as ->.
  { apply Prim2SF_inj. rewrite sub_spec.
    change (Prim2SF PrimFloat.infinity) with (S754_infinity false).
    assert (¬ ∃ s, Prim2SF y = S754_infinity s) as Hy'.
    { rewrite <- float_is_infinity. by rewrite Hy. }
    unfold PrimFloat.is_nan in Hn. rewrite FloatAxioms.eqb_spec in Hn.
    destruct (Prim2SF y) as [s|s| |s m e]; try reflexivity.
    - destruct Hy'; eauto.
    - discriminate. }
  rewrite ltb_spec, sub_spec.
  change (Prim2SF PrimFloat.infinity) with (S754_infinity false).
  change (Prim2SF 0) with (S754_zero false).
  destruct (Prim2SF t) as [s|s| |s m e]; try reflexivity. by destruct s.
Qed.

(** With a negative radicand the square of [sigmaObs] did not overflow. *)
Lemma py_pow2_float (a : scalar float) (y t : float) :
  PrimFloat.is_infinity y = false → PrimFloat.is_nan y = false →
  (val a * val a - y - t <? 0) = true →
  py_pow2 a = Ok (lift2 mul a a).
Proof.
  intros Hy Hn Hlt. destruct a as [x|x]; [|done]. unfold py_pow2. simpl in *.
  destruct (PrimFloat.is_infinity (x * x)) eqn:Hinf; [|done].
  by rewrite (float_radicand_overflow x y t) in Hlt.
Qed.

(** What [vel_dispersion] computes in binary64 for a known filter,
    operation by operation.  Python floats raise where numpy scalars
    return [inf] or [nan]: [sigmaObs**2] raises [OverflowError] when a
    finite [sigmaObs] has an infinite square, and a division raises
    [ZeroDivisionError] when [sigmaObs**2] is zero. *)
Lemma vel_dispersion_binary64 (sigmaObs sigmaObsError sigmaTemp2 : scalar float)
    (filter : string) (sigmaInstr : float) :
  (filter = "blue" ∧ sigmaInstr = lit 49 10) ∨ (filter = "red" ∧ sigmaInstr = lit 56 10) →
  let o2 := val sigmaObs * val sigmaObs in
  let intrinsic := PrimFloat.sqrt (o2 - sigmaInstr * sigmaInstr - val sigmaTemp2) in
  vel_dispersion sigmaObs sigmaObsError sigmaTemp2 filter =
    if is_py sigmaObs && PrimFloat.is_infinity o2
       && negb (PrimFloat.is_infinity (val sigmaObs))
    then Raise OverflowError
    else if is_py sigmaObs && is_py sigmaObsError && (o2 =? 0)
    then Raise ZeroDivisionError
    else Ok (NpFloat64 intrinsic,
             NpFloat64 (lit 5 10 * (lit 2 1 * val sigmaObsError / val sigmaObs * o2)
                        / o2 * intrinsic)).
Proof.
  intros Hf o2 intrinsic.
  assert (sigmaInstr_of (A:=float) filter = Some (PyFloat sigmaInstr)
          ∧ PrimFloat.is_infinity (sigmaInstr * sigmaInstr) = false) as (Hsi & Hfin).
  { destruct Hf as [[-> ->] | [-> ->]]; done. }
  unfold vel_dispersion. rewrite Hsi.
  assert (py_pow2 (PyFloat sigmaInstr) = Ok (PyFloat (sigmaInstr * sigmaInstr)))
    as Hsi2.
  { unfold py_pow2. cbn [val is_inf mul Arith_float]. by rewrite Hfin. }
  subst o2 intrinsic.
  destruct sigmaObs as [o|o], sigmaObsError as [e|e], sigmaTemp2 as [t|t];
    cbn -[lit PrimFloat.mul PrimFloat.div PrimFloat.eqb PrimFloat.sqrt PrimFloat.sub
          PrimFloat.is_infinity py_pow2].
  1,2: (assert (py_pow2 (PyFloat o)
                = if PrimFloat.is_infinity (o * o) && negb (PrimFloat.is_infinity o)
                  then Raise OverflowError else Ok (PyFloat (o * o))) as -> by done;
        destruct (PrimFloat.is_infinity (o * o) && negb (PrimFloat.is_infinity o));
          [done|];
        cbn [mbind result_bind]; rewrite Hsi2; cbn [mbind result_bind];
        unfold py_div, py_mul, pyfloat; cbn [is_py lift2 val andb is_zero Arith_float];
        destruct (o =? 0) eqn:Ho;
          [by rewrite (float_mul_zero o Ho)|];
        cbn [mbind result_bind is_py lift2 val andb is_zero Arith_float];
        destruct (o * o =? 0); [done|]; reflexivity).
  all: try (assert (py_pow2 (PyFloat o)
                    = if PrimFloat.is_infinity (o * o) && negb (PrimFloat.is_infinity o)
                      then Raise OverflowError else Ok (PyFloat (o * o))) as -> by done;
            destruct (PrimFloat.is_infinity (o * o) && negb (PrimFloat.is_infinity o));
              [done|];
            cbn [mbind result_bind]).
  all: rewrite Hsi2; reflexivity.
Qed.

(** The two-step error over a square [z] that is infinite or zero:
    [q * z] is infinite, zero or NaN, and its quotient by [z] is NaN. *)
Lemma float_error_nan (q z i : float) :
  PrimFloat.is_infinity z = true ∨ (z =? 0) = true →
  lit 5 10 * (q * z) / z * i = PrimFloat.nan.
Proof.
  intros Hz. apply Prim2SF_inj.
  rewrite mul_spec, div_spec, mul_spec, mul_spec.
  assert (Prim2SF (lit 5 10) = S754_finite false 4503599627370496 (-53)) as ->
    by reflexivity.
  change (Prim2SF PrimFloat.nan) with S754_nan.
  destruct Hz as [Hz|Hz];
    [apply float_is_infinity in Hz as [s Hs] | apply float_eqb_zero in Hz as [s Hs]];
    rewrite Hs; destruct (Prim2SF q) as [sq|sq| |sq mq eq]; reflexivity.
Qed.
End binary64.

(** ** vel_dispersion *)




(** C8 (amended).  For filter ['blue'] or ['red']:
    - over exact arithmetic, for every [sigmaObs] other than 0 and a
      radicand that is not negative, the error that [vel_dispersion]
      computes in two steps,
      [squareError = 2 * sigmaObsError/sigmaObs * sigmaObs^2] and
      [intrinsicError = 0.5 * squareError/sigmaObs^2 * intrinsic], equals
      [(sigmaObsError / sigmaObs) * intrinsic];
    - in binary64, when [sigmaObs**2] is infinite or zero, the two-step
      error is NaN, unless the call raises: [OverflowError] for a finite
      Python float [sigmaObs], [ZeroDivisionError] when [sigmaObs] and
      [sigmaObsError] are Python floats and the square is zero. *)
Theorem vel_dispersion_error_single_expression
    (filter : string) (sigmaInstr : R) (sigmaInstr64 : float) :
  (filter = "blue" ∧ sigmaInstr = 4.9%R ∧ sigmaInstr64 = lit 49 10)
  ∨ (filter = "red" ∧ sigmaInstr = 5.6%R ∧ sigmaInstr64 = lit 56 10) →
  (∀ sigmaObs sigmaObsError sigmaTemp2 : scalar R,
     (val sigmaObs ≠ 0 →
      sigmaInstr ^ 2 + val sigmaTemp2 <= val sigmaObs ^ 2 →
      ∃ intrinsic intrinsicError,
        vel_dispersion sigmaObs sigmaObsError sigmaTemp2 filter
          = Ok (intrinsic, intrinsicError)
        ∧ val intrinsic
          = R_sqrt.sqrt (val sigmaObs ^ 2 - sigmaInstr ^ 2 - val sigmaTemp2)
        ∧ let squareError := 2 * val sigmaObsError / val sigmaObs * val sigmaObs ^ 2 in
          val intrinsicError = 0.5 * squareError / val sigmaObs ^ 2 * val intrinsic
          ∧ val intrinsicError = val sigmaObsError / val sigmaObs * val intrinsic)%R)
  ∧ (∀ sigmaObs sigmaObsError sigmaTemp2 : scalar float,
       let o2 := (val sigmaObs * val sigmaObs)%float in
       PrimFloat.is_infinity o2 = true ∨ (o2 =? 0)%float = true →
       vel_dispersion sigmaObs sigmaObsError sigmaTemp2 filter =
         if is_py sigmaObs && PrimFloat.is_infinity o2
            && negb (PrimFloat.is_infinity (val sigmaObs))
         then Raise OverflowError
         else if is_py sigmaObs && is_py sigmaObsError && (o2 =? 0)%float
         then Raise ZeroDivisionError
         else Ok (NpFloat64
                    (PrimFloat.sqrt
                       (o2 - sigmaInstr64 * sigmaInstr64 - val sigmaTemp2)%float),
                  NpFloat64 PrimFloat.nan)).
Proof.
  intros Hf. split.
  - intros sigmaObs sigmaObsError sigmaTemp2 Hso Hrad.
    assert (sigmaInstr_of (A:=R) filter = Some (PyFloat sigmaInstr)) as Hsi.
    { destruct Hf as [(-> & -> & _) | (-> & -> & _)]; unfold sigmaInstr_of, pyfloat;
        simpl; do 2 f_equal; lra. }
    destruct (vel_dispersion_R sigmaObs sigmaObsError sigmaTemp2 _ filter Hsi Hso)
      as (i & e & Hv & Hi & He).
    exists i, e. split; [done|]. split.
    { rewrite Hi. simpl. f_equal. lra. }
    simpl. rewrite He.
    replace 0.5%R with (5 / 10)%R by lra. split; field; done.
  - intros sigmaObs sigmaObsError sigmaTemp2 o2 Ho2.
    rewrite (vel_dispersion_binary64 _ _ _ filter sigmaInstr64)
      by (destruct Hf as [(? & _ & ?) | (? & _ & ?)]; auto).
    fold o2. by rewrite (float_error_nan _ o2 _ Ho2).
Qed.

Lemma vel_dispersion_error_single_expression_witness :
  (∃ intrinsic intrinsicError,
     vel_dispersion (A:=R) (PyFloat 10) (PyFloat 0.1) (PyFloat 0) "red"
       = Ok (intrinsic, intrinsicError)
     ∧ val intrinsic = R_sqrt.sqrt 68.64
     ∧ val intrinsicError = 0.1 / 10 * val intrinsic
     ∧ 0 < val intrinsicError)%R
  ∧ vel_dispersion (A:=float) (NpFloat64 0x1p600%float) (NpFloat64 (lit 1 10))
      (NpFloat64 0%float) "red"
    = Ok (NpFloat64 PrimFloat.infinity, NpFloat64 PrimFloat.nan).
Proof.
  destruct (vel_dispersion_error_single_expression "red" 5.6%R (lit 56 10))
    as (Hexact & Hbinary).
  - right. repeat split; reflexivity.
  - split.
    + destruct (Hexact (PyFloat 10%R) (PyFloat 0.1%R) (PyFloat 0%R))
        as (i & e & Hv & Hi & _ & He).
      * simpl. lra.
      * simpl. lra.
      * exists i, e. split; [exact Hv|].
        assert (val i = R_sqrt.sqrt 68.64) as Hi'.
        { rewrite Hi. simpl. f_equal. lra. }
        split; [exact Hi'|]. split; [exact He|].
        rewrite He, Hi'. cbn [val]. apply Rmult_lt_0_compat; [lra|].
        apply sqrt_lt_R0. lra.
    + exact (Hbinary (NpFloat64 0x1p600%float) (NpFloat64 (lit 1 10))
               (NpFloat64 0%float) (or_introl eq_refl)).
Defined.

(** C8, as stated, fails in binary64 for a [sigmaObs] other than 0 whose
    square overflows or underflows.  For the numpy scalars
    [sigmaObs = 2.0**600] and [sigmaObsError = 0.1], with
    [sigmaTemp2 = 0.0] and filter ['blue'], [vel_dispersion] returns
    [(inf, nan)], while [(sigmaObsError / sigmaObs) * intrinsic] is [inf].
    For the Python floats [sigmaObs = 2.0**-600], [sigmaObsError = 0.1] and
    [sigmaTemp2 = -100.0] the radicand is [75.99], and the second division
    raises [ZeroDivisionError]. *)
Lemma vel_dispersion_error_overflow :
  (0x1p600 =? 0)%float = false
  ∧ vel_dispersion (A:=float) (NpFloat64 0x1p600%float) (NpFloat64 (lit 1 10))
      (NpFloat64 0%float) "blue"
    = Ok (NpFloat64 PrimFloat.infinity, NpFloat64 PrimFloat.nan)
  ∧ (lit 1 10 / 0x1p600 * PrimFloat.infinity)%float = PrimFloat.infinity
  ∧ (0x1p-600 =? 0)%float = false
  ∧ (0 <=? 0x1p-600 * 0x1p-600 - lit 49 10 * lit 49 10 - -100)%float = true
  ∧ vel_dispersion (A:=float) (PyFloat 0x1p-600%float) (PyFloat (lit 1 10))
      (PyFloat (-100)%float) "blue"
    = Raise ZeroDivisionError.
Proof. repeat split; reflexivity. Qed.

(** C6 (amended).  With a filter other than ['blue'] or ['red'],
    [vel_dispersion] never returns: it raises Python's [UnboundLocalError]
    for the local [sigmaInstr], unless squaring [sigmaObs] has already
    raised [OverflowError]. *)
Theorem vel_dispersion_unknown_filter `{Arith A}
    (sigmaObs sigmaObsError sigmaTemp2 : scalar A) (filter : string) :
  filter ≠ "blue" → filter ≠ "red" →
  vel_dispersion sigmaObs sigmaObsError sigmaTemp2 filter
    = Raise (UnboundLocalError "sigmaInstr")
  ∨ (py_pow2 sigmaObs = Raise OverflowError
     ∧ vel_dispersion sigmaObs sigmaObsError sigmaTemp2 filter = Raise OverflowError).
Proof.
  intros Hb Hr. unfold vel_dispersion. rewrite sigmaInstr_of_other by done.
  destruct sigmaObs as [x|x]; simpl; [|by left].
  destruct (is_inf _ && _); simpl; auto.
Qed.

Lemma vel_dispersion_unknown_filter_witness :
  vel_dispersion (A:=float) (PyFloat 10%float) (pyfloat 1 10) (PyFloat 0%float) "green"
    = Raise (UnboundLocalError "sigmaInstr").
Proof.
  destruct (vel_dispersion_unknown_filter (A:=float)
              (PyFloat 10%float) (pyfloat 1 10) (PyFloat 0%float) "green")
    as [Hv | [Ho _]].
  - discriminate.
  - discriminate.
  - exact Hv.
  - discriminate Ho.
Defined.

(** C6, as stated, fails: for the filter ['green'] the exception is
    [UnboundLocalError], not [InvalidParameterError]. *)
Lemma vel_dispersion_green :
  vel_dispersion (A:=float) (PyFloat 10%float) (pyfloat 1 10) (PyFloat 0%float) "green"
    = Raise (UnboundLocalError "sigmaInstr")
  ∧ ¬ raises (vel_dispersion (A:=float) (PyFloat 10%float) (pyfloat 1 10)
                (PyFloat 0%float) "green") InvalidParameterError.
Proof. split; [reflexivity | discriminate]. Qed.

(** C7 (amended).  In binary64, for a known filter and a computed radicand
    [sigmaObs**2 - sigmaInstr**2 - sigmaTemp2] that is negative,
    [vel_dispersion] returns NaN for the intrinsic dispersion and for its
    error, without raising, except when [sigmaObs] and [sigmaObsError] are
    Python floats and [sigmaObs**2] is zero ([sigmaObs] is zero, or so small
    that its square underflows): then a division raises
    [ZeroDivisionError]. *)
Theorem vel_dispersion_negative_radicand
    (sigmaObs sigmaObsError sigmaTemp2 : scalar float) (filter : string)
    (sigmaInstr : float) :
  (filter = "blue" ∧ sigmaInstr = lit 49 10) ∨ (filter = "red" ∧ sigmaInstr = lit 56 10) →
  (val sigmaObs * val sigmaObs - sigmaInstr * sigmaInstr - val sigmaTemp2 <? 0)%float
    = true →
  vel_dispersion sigmaObs sigmaObsError sigmaTemp2 filter =
    if is_py sigmaObs && is_py sigmaObsError && (val sigmaObs * val sigmaObs =? 0)%float
    then Raise ZeroDivisionError
    else Ok (NpFloat64 PrimFloat.nan, NpFloat64 PrimFloat.nan).
Proof.
  intros Hf Hneg.
  assert (sigmaInstr_of (A:=float) filter = Some (PyFloat sigmaInstr)
          ∧ PrimFloat.is_infinity (sigmaInstr * sigmaInstr) = false
          ∧ PrimFloat.is_nan (sigmaInstr * sigmaInstr) = false) as (Hsi & Hfin & Hnan).
  { destruct Hf as [[-> ->] | [-> ->]]; done. }
  unfold vel_dispersion. rewrite Hsi.
  rewrite (py_pow2_float sigmaObs _ _ Hfin Hnan Hneg).
  cbn [mbind result_bind read_local].
  assert (py_pow2 (PyFloat sigmaInstr) = Ok (PyFloat (sigmaInstr * sigmaInstr)%float))
    as ->.
  { unfold py_pow2. cbn [val is_inf mul Arith_float]. by rewrite Hfin. }
  cbn [mbind result_bind].
  assert (np_sqrt (py_sub (py_sub (lift2 mul sigmaObs sigmaObs)
                             (PyFloat (sigmaInstr * sigmaInstr)%float)) sigmaTemp2)
          = NpFloat64 PrimFloat.nan) as ->.
  { unfold np_sqrt, py_sub. rewrite !val_lift2. cbn [val]. f_equal.
    by apply float_sqrt_negative. }
  unfold py_div, py_mul, pyfloat, mret, result_ret.
  destruct sigmaObs as [o|o], sigmaObsError as [e|e];
    cbn -[lit PrimFloat.mul PrimFloat.div PrimFloat.eqb];
    try (by rewrite ?float_mul_nan_r).
  destruct (o =? 0)%float eqn:Ho.
  - by rewrite (float_mul_zero o Ho).
  - cbn -[lit PrimFloat.mul PrimFloat.div PrimFloat.eqb].
    destruct (o * o =? 0)%float; [done|].
    cbn -[lit PrimFloat.mul PrimFloat.div PrimFloat.eqb].
    by rewrite float_mul_nan_r.
Qed.

Lemma vel_dispersion_negative_radicand_witness :
  vel_dispersion (A:=float) (PyFloat 1%float) (pyfloat 1 10) (NpFloat64 0%float) "blue"
    = Ok (NpFloat64 PrimFloat.nan, NpFloat64 PrimFloat.nan).
Proof.
  exact (vel_dispersion_negative_radicand
           (PyFloat 1%float) (pyfloat 1 10) (NpFloat64 0%float) "blue" (lit 49 10)
           (or_introl (conj eq_refl eq_refl)) eq_refl).
Defined.

(** C7, as stated, fails for Python floats at [sigmaObs = 0.0]: the radicand
    [0.0 - 4.9**2 - 0.0] is negative, and the call raises
    [ZeroDivisionError] in [2 * sigmaObsError/sigmaObs] instead of
    returning NaN. *)
Lemma vel_dispersion_zero_sigma :
  (0 * 0 - lit 49 10 * lit 49 10 - 0 <? 0)%float = true
  ∧ vel_dispersion (A:=float) (PyFloat 0%float) (pyfloat 1 10) (PyFloat 0%float) "blue"
    = Raise ZeroDivisionError.
Proof. split; reflexivity. Qed.

(** ** The velocity frame *)

(** C4.  Over exact arithmetic, for every wavelength array and every rest
    wavelength [lambda0 > 0], [_velocity] returns
    [((lambda - lambda0) / lambda0) * 300000] element by element; it sends
    [lambda = lambda0] to velocity 0 and is strictly increasing in the
    wavelength. *)
Theorem velocity_formula (restWave : R) (wave : list R) :
  (0 < restWave →
   (∀ i, _velocity restWave wave !! i
         = (λ w, (w - restWave) / restWave * 300000) <$> wave !! i)
   ∧ (∀ i w, wave !! i = Some w → w = restWave →
        _velocity restWave wave !! i = Some 0)
   ∧ (∀ i j w1 w2, wave !! i = Some w1 → wave !! j = Some w2 → w1 < w2 →
        ∃ v1 v2, _velocity restWave wave !! i = Some v1
               ∧ _velocity restWave wave !! j = Some v2 ∧ v1 < v2))%R.
Proof.
  intros Hpos.
  assert (∀ i, _velocity restWave wave !! i
        = (λ w, (w - restWave) / restWave * 300000)%R <$> wave !! i) as Hlookup.
  { intros i. unfold _velocity. rewrite list_lookup_fmap.
    destruct (wave !! i); simpl; [|done]. f_equal. lra. }
  split; [done|]. split.
  - intros i w Hw ->. rewrite Hlookup, Hw. simpl. f_equal. field. lra.
  - intros i j w1 w2 H1 H2 Hlt. eexists _, _.
    rewrite !Hlookup, H1, H2. simpl. split; [done|]. split; [done|].
    apply Rmult_lt_compat_r; [lra|].
    apply Rmult_lt_compat_r; [by apply Rinv_0_lt_compat|]. lra.
Qed.

Lemma velocity_formula_witness :
  (_velocity (A:=R) 6562.82 [6562.82; 6600] !! 0%nat = Some 0
   ∧ ∃ v1 v2, _velocity (A:=R) 6562.82 [6562.82; 6600] !! 0%nat = Some v1
            ∧ _velocity (A:=R) 6562.82 [6562.82; 6600] !! 1%nat = Some v2
            ∧ v1 < v2)%R.
Proof.
  destruct (velocity_formula 6562.82%R [6562.82; 6600]%R) as (_ & Hz & Hm); [lra|].
  split.
  - apply (Hz 0%nat 6562.82%R); reflexivity.
  - apply (Hm 0%nat 1%nat 6562.82%R 6600%R); [reflexivity | reflexivity | lra].
Defined.

(** ** Weights *)

(** C10.  The weights of a [FittingProfile] are [None] exactly when no
    flux-uncertainty array is given; otherwise they are the reciprocals
    [1/fluxError], element by element and unguarded: in binary64 a zero
    uncertainty gives an infinite weight, and nothing is raised. *)
Theorem weights_reciprocal (vel flux : list float) (restWave : float)
    (lineName zone : string) (fluxError : option (list float)) :
  let self := FittingProfile_init vel flux restWave lineName zone fluxError in
  (weights self = None ↔ fluxError = None)
  ∧ (∀ errors, fluxError = Some errors →
       weights self = Some ((λ e, 1 / e)%float <$> errors))
  ∧ (∀ errors i e, fluxError = Some errors → errors !! i = Some e →
       (e =? 0)%float = true →
       ∃ w, weights self ≫= (.!! i) = Some w ∧ PrimFloat.is_infinity w = true).
Proof.
  simpl. split; [|split].
  - destruct fluxError; simpl; split; done.
  - by intros errors ->.
  - intros errors i e -> He Hz. exists (1 / e)%float. simpl.
    rewrite list_lookup_fmap, He. split; [done|]. by apply float_inv_zero.
Qed.

Lemma weights_reciprocal_witness :
  weights (FittingProfile_init (A:=float) [] [] 6562.5%float "H-Alpha" "low"
             (Some [2; 0; 4]%float))
    = Some [0.5; PrimFloat.infinity; 0.25]%float.
Proof.
  exact (proj1 (proj2 (weights_reciprocal [] [] 6562.5%float "H-Alpha" "low"
                         (Some [2; 0; 4]%float))) [2; 0; 4]%float eq_refl).
Defined.

(** ** Dictionaries *)

Lemma getitem_Ok {V} (d : gmap string V) (key : string) (v : V) :
  getitem d key = Ok v ↔ d !! key = Some v.
Proof. unfold getitem. destruct (d !! key); split; congruence. Qed.

(** ** The loop over the catalog *)

Lemma outcome_bind {A T U} (m : io A T) (f : T → io A U) :
  outcome (m ≫= f) = outcome m ≫= (λ v, outcome (f v)).
Proof. unfold mbind at 1, io_bind. by destruct (outcome m). Qed.

Lemma outcome_emit {A U} (e : event A) (f : () → io A U) :
  outcome (emit e ≫= f) = outcome (f ()).
Proof. by rewrite outcome_bind. Qed.

Lemma outcome_lift {A T U} (r : result T) (f : T → io A U) :
  outcome (lift r ≫= f) = r ≫= (λ v, outcome (f v)).
Proof. by rewrite outcome_bind. Qed.

Lemma get_field_Ok {A V} (emProfiles : gmap string (EmInfo A)) (name key : string)
    (field : EmInfo A → option V) (e : EmInfo A) (v : V) :
  emProfiles !! name = Some e → field e = Some v →
  get_field emProfiles name field key = Ok v.
Proof. intros He Hf. unfold get_field, getitem. rewrite He. simpl. by rewrite Hf. Qed.

Lemma get_field_missing {A V} (emProfiles : gmap string (EmInfo A)) (name key : string)
    (field : EmInfo A → option V) (e : EmInfo A) :
  emProfiles !! name = Some e → field e = None →
  get_field emProfiles name field key = Raise (KeyError key).
Proof. intros He Hf. unfold get_field, getitem. rewrite He. simpl. by rewrite Hf. Qed.

Lemma set_field_Ok {A} (emProfiles : gmap string (EmInfo A)) (name : string)
    (update : EmInfo A → EmInfo A) (e : EmInfo A) :
  emProfiles !! name = Some e →
  set_field emProfiles name update = Ok (<[name := update e]> emProfiles).
Proof. intros He. unfold set_field, getitem. by rewrite He. Qed.

Section ordering.
Context `{Arith A, Unbounded A, Lmfit A}.
Variable mask_emission_line :
  Z → string → Z → Z → result (list A * list A * option (list A) * option (list A)).

(** C5 (amended).  When one of ['NII-6548A'], ['SII-6731A'], ['OII-3726A'] (in
    zone ['low']) is processed while its sibling has no ['sigmaList'] yet,
    the iteration raises Python's [KeyError] before any fit is attempted:
    for ['sigmaList'], or for ['centerList'] if ['H-Alpha'] has not been fit
    either. *)
Theorem dependent_before_sibling (st : script_state A) (emName sibling : string)
    (emInfo ref sib : EmInfo A)
    (window : list A * list A * option (list A) * option (list A)) :
  (emName, sibling) ∈ sibling_pairs →
  emProfiles st !! emName = Some emInfo →
  emZone emInfo = "low" →
  mask_emission_line (emOrder emInfo) (emFilter emInfo) (emMinI emInfo) (emMaxI emInfo)
    = Ok window →
  emProfiles st !! "H-Alpha" = Some ref →
  emProfiles st !! sibling = Some sib →
  emSigmaList sib = None →
  outcome (iteration mask_emission_line st emName)
    = Raise (KeyError (match emCenterList ref with
                       | Some _ => "sigmaList"
                       | None => "centerList"
                       end)).
Proof.
  intros Hpair Hem Hzone Hmask Href Hsib Hnone.
  assert (emName ≠ "H-Alpha" ∧ (emName ∉ ["NII-6584A"; "SII-6717A"; "OII-3729A"])
          ∧ sibling ≠ emName
          ∧ sibling = (if decide (emName = "NII-6548A") then "NII-6584A"
                       else if decide (emName = "SII-6731A") then "SII-6717A"
                       else if decide (emName = "OII-3726A") then "OII-3729A"
                       else "H-Alpha")) as (HnH & Hnsemi & Hne & Hsibling).
  { unfold sibling_pairs in Hpair. rewrite !elem_of_cons, elem_of_nil in Hpair.
    destruct Hpair as [[= -> ->]|[[= -> ->]|[[= -> ->]|[]]]];
      (split; [done|]); (split; [|done]);
      rewrite !elem_of_cons, elem_of_nil; intros [?|[?|[?|[]]]]; done. }
  unfold iteration.
  rewrite outcome_bind. cbn [outcome lift]. rewrite (proj2 (getitem_Ok _ _ _) Hem).
  cbn [mbind result_bind].
  rewrite outcome_bind. cbn [outcome emit mbind result_bind].
  rewrite outcome_bind. cbn [outcome lift]. rewrite Hmask.
  destruct window as [[[wave1 flux1] wave1Error] flux1Error].
  cbn [mbind result_bind].
  rewrite decide_True by done.
  rewrite outcome_bind.
  rewrite decide_False by done. rewrite bool_decide_eq_false_2 by done.
  rewrite outcome_bind. cbn [outcome lift].
  destruct (emCenterList ref) as [cl|] eqn:Hcl.
  - rewrite (get_field_Ok _ _ _ _ _ _ Href Hcl). cbn [mbind result_bind].
    rewrite outcome_bind. cbn [outcome lift].
    rewrite (set_field_Ok _ _ _ _ Hem). cbn [mbind result_bind].
    rewrite outcome_bind. cbn [outcome lift].
    rewrite <- Hsibling.
    rewrite (get_field_missing _ sibling _ _ sib); [done| |done].
    by rewrite lookup_insert_ne.
  - by rewrite (get_field_missing _ _ _ _ _ Href Hcl).
Qed.
End ordering.

Lemma dependent_before_sibling_witness :
  outcome (iteration Standin.mask_emission_line after_H_Alpha "NII-6548A")
    = Raise (KeyError "sigmaList").
Proof.
  destruct (emProfiles after_H_Alpha !! "NII-6548A") as [emInfo|] eqn:Hem;
    [|by vm_compute in Hem].
  destruct (emProfiles after_H_Alpha !! "H-Alpha") as [ref|] eqn:Href;
    [|by vm_compute in Href].
  destruct (emProfiles after_H_Alpha !! "NII-6584A") as [sib|] eqn:Hsib;
    [|by vm_compute in Hsib].
  assert (emInfo = entry "m" 21 "red" 1000 1300 (dec 654803 2)
                     [dec 6269642 7; dec 7364259 7; dec 5323627 7] "low" (dec 1187 2))
    as HemInfo by (clear -Hem; vm_compute in Hem; by injection Hem as <-).
  assert (is_Some (emCenterList ref)) as [cl Hcl]
    by (clear -Href; vm_compute in Href; injection Href as <-; by eexists).
  assert (emSigmaList sib = None) as Hnone
    by (clear -Hsib; vm_compute in Hsib; by injection Hsib as <-).
  pose proof (dependent_before_sibling Standin.mask_emission_line after_H_Alpha
                "NII-6548A" "NII-6584A" emInfo ref sib _
                ltac:(by apply (bool_decide_unpack _))
                Hem ltac:(by rewrite HemInfo) eq_refl Href Hsib Hnone) as Hw.
  by rewrite Hcl in Hw.
Defined.

(** C5, as stated, fails: with ['H-Alpha'] fit and ['NII-6584A'] not yet,
    processing ['NII-6548A'] raises [KeyError], not [OrderingError]. *)
Lemma sibling_KeyError :
  (∃ e, emProfiles after_H_Alpha !! "NII-6584A" = Some e ∧ emSigmaList e = None)
  ∧ outcome (iteration Standin.mask_emission_line after_H_Alpha "NII-6548A")
    = Raise (KeyError "sigmaList")
  ∧ ¬ raises (outcome (iteration Standin.mask_emission_line after_H_Alpha "NII-6548A"))
        OrderingError.
Proof.
  assert (outcome (iteration Standin.mask_emission_line after_H_Alpha "NII-6548A")
          = Raise (KeyError "sigmaList")) as Hout by (vm_compute; reflexivity).
  split; [|split].
  - eexists. split; vm_compute; reflexivity.
  - exact Hout.
  - unfold raises. rewrite Hout. discriminate.
Qed.

(** ** Amplitudes *)

Lemma outcome_for_range_unit {A T} (n : nat) (body : nat → result T)
    (ev : nat → T → event A) :
  outcome (for_range n (λ i _, x ← lift (body i); emit (ev i x)) ())
  = for_range_r n (λ i _, body i;; mret ()) ().
Proof.
  induction n as [|n IH]; [done|]. cbn [for_range for_range_r].
  rewrite outcome_bind, IH. destruct (for_range_r n _ ()) as [[]|]; [|done].
  cbn [mbind result_bind]. rewrite outcome_bind. cbn [outcome lift].
  by destruct (body n).
Qed.

Section amplitude.
Context `{Arith A}.

Lemma outcome_amplitude_loop (n : nat) (modelFit : ModelResult A) :
  outcome (for_range (A:=A) n (λ i amplitudeTotal,
      a ← lift (getitem (best_values modelFit) (g_key i "amplitude"));
      mret (amplitudeTotal + a)%num)
    (lit 0 1))
  = amplitude_total n modelFit.
Proof.
  unfold amplitude_total. induction n as [|n IH]; [done|].
  cbn [for_range for_range_r].
  rewrite outcome_bind, IH. destruct (for_range_r n _ _) as [t|]; [|done].
  cbn [mbind result_bind]. rewrite outcome_bind. cbn [outcome lift].
  by destruct (getitem _ _).
Qed.

Lemma outcome_get_amplitude (self : FittingProfile A) (n : nat) (modelFit : ModelResult A) :
  outcome (_get_amplitude self n modelFit)
  = (λ t, (t / SpOfLi) * restWave self)%num <$> amplitude_total n modelFit.
Proof.
  unfold _get_amplitude. rewrite outcome_bind, outcome_amplitude_loop.
  by destruct (amplitude_total n modelFit).
Qed.

Lemma amplitude_total_Ok (n : nat) (modelFit : ModelResult A) (amps : list A) :
  length amps = n →
  (∀ i a, amps !! i = Some a →
     best_values modelFit !! g_key i "amplitude" = Some a) →
  amplitude_total n modelFit = Ok (fold_left add amps (lit 0 1)).
Proof.
  unfold amplitude_total. revert amps.
  induction n as [|n IH]; intros amps Hlen Hamps.
  - by destruct amps.
  - destruct amps as [|a amps _] using rev_ind; [done|].
    rewrite length_app in Hlen. simpl in Hlen.
    simpl. rewrite (IH amps).
    + assert (getitem (best_values modelFit) (g_key n "amplitude") = Ok a) as ->.
      { apply getitem_Ok, Hamps, list_lookup_middle. lia. }
      simpl. by rewrite fold_left_app.
    + lia.
    + intros i b Hi. by apply Hamps, lookup_app_l_Some.
Qed.

Lemma amplitude_loop_silent (n : nat) (modelFit : ModelResult A) (total : A) :
  amplitude_total n modelFit = Ok total →
  for_range (A:=A) n (λ i amplitudeTotal,
      a ← lift (getitem (best_values modelFit) (g_key i "amplitude"));
      mret (amplitudeTotal + a)%num)
    (lit 0 1)
  = IO [] (Ok total).
Proof.
  unfold amplitude_total. revert total.
  induction n as [|n IH]; intros total; cbn [for_range for_range_r].
  - by intros [= <-].
  - destruct (for_range_r n _ _) as [t|]; [|done]. rewrite (IH t eq_refl).
    cbn [mbind result_bind].
    destruct (getitem _ _) as [a|]; [|done]. by intros [= <-].
Qed.

(** What [_get_amplitude] prints and returns. *)
Lemma get_amplitude_IO (self : FittingProfile A) (n : nat) (modelFit : ModelResult A)
    (total : A) :
  amplitude_total n modelFit = Ok total →
  let final := ((total / SpOfLi) * restWave self)%num in
  _get_amplitude self n modelFit
  = IO [Print "Amplitude Total is %f" [ANum total];
        Print "Amplitude Final is %f" [ANum final]] (Ok final).
Proof.
  intros Htotal. unfold _get_amplitude.
  by rewrite (amplitude_loop_silent n modelFit total Htotal).
Qed.
End amplitude.

Section fit_outcome.
Context `{Arith A, Unbounded A, Lmfit A}.

Lemma lin_and_multi_gaussian_outcome (self : FittingProfile A) (n : nat)
    (cList sList aList : list A) (lS lI : A) :
  outcome (lin_and_multi_gaussian self n cList sList aList lS lI)
  = fit_outcome self n cList sList aList lS lI.
Proof.
  unfold lin_and_multi_gaussian, fit_outcome.
  rewrite outcome_bind. cbn [outcome lift].
  destruct (set_value _ "lin_slope" lS) as [pars1|]; [|done]. cbn [mbind result_bind].
  rewrite outcome_bind. cbn [outcome lift].
  destruct (set_value _ "lin_intercept" lI) as [pars2|]; [|done]. cbn [mbind result_bind].
  rewrite outcome_bind. cbn [outcome lift].
  destruct (build_components _ _ _ _ _ _) as [[gList pars]|]; [|done].
  cbn [mbind result_bind].
  rewrite outcome_bind. cbn [outcome lift].
  destruct (compose _ _) as [model|]; [|done]. cbn [mbind result_bind].
  cbn [vel flux weights lineName].
  rewrite !outcome_emit.
  rewrite outcome_bind, outcome_for_range_unit.
  destruct (for_range_r n _ ()) as [[]|]; [|done]. cbn [mbind result_bind].
  rewrite outcome_bind. cbn [outcome lift].
  destruct (getitem _ "lin_") as [comp|]; [|done]. cbn [mbind result_bind].
  rewrite !outcome_emit.
  rewrite outcome_bind, outcome_get_amplitude.
  cbn [vel flux weights lineName restWave].
  by destruct (amplitude_total n _).
Qed.

End fit_outcome.

Lemma fold_left_Rplus (l : list R) (x : R) :
  fold_left Rplus l x = (x + foldr Rplus 0 l)%R.
Proof.
  revert x. induction l as [|a l IH]; intros x; simpl; [lra|]. rewrite IH. lra.
Qed.

(** C9.  Over exact arithmetic, for a fit result with [N] components,
    [_get_amplitude] returns the sum of the [N] best-fit amplitudes times
    [restWave / 300000].  [lin_and_multi_gaussian] only prints that value:
    what it returns does not depend on [restWave], and is the fit result
    together with that result's components. *)
Theorem amplitude_conversion_discarded :
  (∀ (self : FittingProfile R) (N : nat) (modelFit : ModelResult R) (amps : list R),
     length amps = N →
     (∀ i a, amps !! i = Some a →
        best_values modelFit !! g_key i "amplitude" = Some a) →
     let amplitudeTotal := foldr Rplus 0%R amps in
     let amplitudeFinal := (amplitudeTotal * restWave self / 300000)%R in
     _get_amplitude self N modelFit
       = IO [Print "Amplitude Total is %f" [ANum amplitudeTotal];
             Print "Amplitude Final is %f" [ANum amplitudeFinal]]
            (Ok amplitudeFinal))
  ∧ (∀ (A : Type) `(Arith A, Unbounded A, Lmfit A) (self : FittingProfile A)
       (restWave' : A) (N : nat) (cList sList aList : list A) (lS lI : A),
       let self' := mkFittingProfile (vel self) (flux self) (fluxError self) restWave'
                      (lineName self) (zone self) (weights self) (linGaussParams self) in
       snd <$> outcome (lin_and_multi_gaussian self N cList sList aList lS lI)
         = snd <$> outcome (lin_and_multi_gaussian self' N cList sList aList lS lI)
       ∧ ∀ self1 out comps,
           outcome (lin_and_multi_gaussian self N cList sList aList lS lI)
             = Ok (self1, (out, comps)) →
           comps = components out
           ∧ ∃ model, out = model_fit model (flux self) (linGaussParams self1)
                              (vel self) (weights self)).
Proof.
  split.
  - intros self N modelFit amps Hlen Hamps. cbv zeta.
    rewrite (get_amplitude_IO self N modelFit _
               (amplitude_total_Ok N modelFit amps Hlen Hamps)).
    cbv zeta. unfold SpOfLi. cbn [div mul add lit Arith_R].
    rewrite fold_left_Rplus.
    assert (IZR 0 / IZR 1 + foldr Rplus 0 amps = foldr Rplus 0 amps)%R as -> by lra.
    assert (foldr Rplus 0 amps / (IZR 300000 / IZR 1) * restWave self
            = foldr Rplus 0 amps * restWave self / 300000)%R as -> by lra.
    done.
  - intros A ? ? ? self restWave' N cList sList aList lS lI self'.
    rewrite !lin_and_multi_gaussian_outcome.
    unfold fit_outcome, build_components, _gaussian_component.
    cbn [vel flux fluxError restWave lineName zone weights self'].
    destruct (set_value _ "lin_slope" lS) as [pars1|]; [|done]. cbn [mbind result_bind].
    destruct (set_value _ "lin_intercept" lI) as [pars2|]; [|done].
    cbn [mbind result_bind].
    destruct (for_range_r N _ ([], pars2)) as [[gList pars]|]; [|done].
    cbn [mbind result_bind].
    destruct (compose _ _) as [model|]; [|done]. cbn [mbind result_bind].
    destruct (for_range_r N _ ()) as [[]|]; [|done]. cbn [mbind result_bind].
    destruct (getitem _ "lin_") as [comp|]; [|done]. cbn [mbind result_bind].
    destruct (amplitude_total N _) as [total|]; [|done]. cbn [mbind result_bind].
    split; [done|]. intros self1 out comps [= <- <- <-]. split; [done|].
    by exists model.
Qed.

Lemma amplitude_conversion_discarded_witness :
  (let modelFit := mkModelResult (<["g1_amplitude" := 2%R]> (<["g2_amplitude" := 4%R]> ∅))
                     [] ∅ ∅ "" in
   let self := FittingProfile_init [] [] 6562.82%R "H-Alpha" "low" None in
   outcome (_get_amplitude self 2 modelFit) = Ok ((2 + (4 + 0)) * 6562.82 / 300000)%R)
  ∧ (let self := FittingProfile_init (A:=float) [1; 2]%float [3; 4]%float 6562.5%float
                   "H-Alpha" "low" None in
     ∃ self1 out comps,
       outcome (lin_and_multi_gaussian self 2 [1; 2]%float [3; 4]%float [5; 6]%float
                  0%float 1%float) = Ok (self1, (out, comps))
       ∧ comps = components out).
Proof.
  split.
  - intros modelFit self.
    rewrite (proj1 amplitude_conversion_discarded self 2%nat modelFit [2; 4]%R);
      [reflexivity | reflexivity |].
    intros [|[|i]] a Ha; simpl in Ha; simplify_eq; reflexivity.
  - intros self.
    destruct (outcome (lin_and_multi_gaussian self 2 [1; 2]%float [3; 4]%float
                         [5; 6]%float 0%float 1%float))
      as [[self1 [out comps]]|] eqn:Hout; [|by vm_compute in Hout].
    exists self1, out, comps. split; [reflexivity|].
    exact (proj1 (proj2 (proj2 amplitude_conversion_discarded float _ _ _ self
                           6562.5%float 2%nat [1; 2]%float [3; 4]%float [5; 6]%float
                           0%float 1%float) self1 out comps Hout)).
Defined.

(** ** Parameter names *)

Lemma string_app_cons (c : Ascii.ascii) (s t : string) : String c s +:+ t = String c (s +:+ t).
Proof. reflexivity. Qed.

Lemma string_app_assoc (s1 s2 s3 : string) : (s1 +:+ s2) +:+ s3 = s1 +:+ (s2 +:+ s3).
Proof.
  induction s1 as [|c s1 IH]; [done|]. rewrite !string_app_cons. by f_equal.
Qed.

Lemma g_key_prefix (i : nat) (field : string) : g_key i field = g_prefix i +:+ field.
Proof. unfold g_key, g_prefix. by rewrite !string_app_assoc. Qed.

Lemma pretty_N_char_no_underscore (x : N) : pretty_N_char x ≠ "_"%char.
Proof. unfold pretty_N_char. repeat case_match; done. Qed.

Lemma pretty_N_go_no_underscore (x : N) (s : string) :
  no_underscore s → no_underscore (pretty_N_go x s).
Proof.
  revert s. induction (N.lt_wf_0 x) as [x _ IH]; intros s Hs.
  destruct (decide (x = 0%N)) as [->|Hx].
  - by rewrite pretty_N_go_0.
  - rewrite pretty_N_go_step by lia. apply IH.
    + apply N.div_lt; lia.
    + split; [apply pretty_N_char_no_underscore | done].
Qed.

Lemma pretty_nat_no_underscore (n : nat) : no_underscore (pretty n).
Proof.
  unfold pretty, pretty_nat, pretty, pretty_N. case_decide; [done|].
  by apply pretty_N_go_no_underscore.
Qed.

(** Two strings without [_] that agree up to and after a first [_] are
    equal, and so are the remainders. *)
Lemma underscore_split (d1 d2 r1 r2 : string) :
  no_underscore d1 → no_underscore d2 →
  d1 +:+ String "_" r1 = d2 +:+ String "_" r2 → d1 = d2 ∧ r1 = r2.
Proof.
  revert d2. induction d1 as [|c d1 IH]; intros [|c' d2];
    rewrite ?string_app_cons; change ("" +:+ ?s) with s; simpl.
  - by intros _ _ [= ->].
  - intros _ [Hc _] [= <- _]. done.
  - intros [Hc _] _ [= -> _]. done.
  - intros [_ H1] [_ H2] [= -> Heq]. destruct (IH d2 H1 H2 Heq) as [-> ->]. done.
Qed.

Lemma g_prefix_inj (i j : nat) (f1 f2 : string) :
  g_prefix i +:+ f1 = g_prefix j +:+ f2 → i = j ∧ f1 = f2.
Proof.
  unfold g_prefix. rewrite !string_app_assoc.
  change ("g" +:+ ?s) with (String "g" s). change ("_" +:+ ?s) with (String "_" s).
  intros [= Heq].
  apply underscore_split in Heq as [Heq ->]; try apply pretty_nat_no_underscore.
  split; [|done]. apply (inj pretty) in Heq. lia.
Qed.

(** ** Building and fitting the model *)

Lemma set_value_Ok {A} (pars : gmap string (LmParameter A)) (key : string) (v : A)
    (p : LmParameter A) :
  pars !! key = Some p →
  set_value pars key v
    = Ok (<[key := mkParameter v (pmin p) (pmax p) (vary p) (expr p)]> pars).
Proof. intros Hp. unfold set_value, getitem. by rewrite Hp. Qed.

Lemma list_getitem_Ok {V} (l : list V) (i : nat) (v : V) :
  l !! i = Some v → list_getitem l i = Ok v.
Proof. intros Hv. unfold list_getitem. by rewrite Hv. Qed.

Lemma for_range_r_unit_Ok {T} (n : nat) (body : nat → result T) :
  (∀ i, i < n → ∃ v, body i = Ok v) →
  for_range_r n (λ i _, body i;; mret ()) () = Ok ().
Proof.
  induction n as [|n IH]; intros Hbody; [done|]. cbn [for_range_r].
  rewrite IH by (intros; apply Hbody; lia). cbn [mbind result_bind].
  destruct (Hbody n) as [v ->]; [lia|]. done.
Qed.

Lemma amplitude_total_returns `{Arith A} (n : nat) (modelFit : ModelResult A) :
  (∀ i, i < n → is_Some (best_values modelFit !! g_key i "amplitude")) →
  ∃ total, amplitude_total n modelFit = Ok total.
Proof.
  unfold amplitude_total. induction n as [|n IH]; intros Hkeys; [by eexists|].
  destruct IH as [t Ht]; [intros; apply Hkeys; lia|].
  destruct (Hkeys n) as [a Ha]; [lia|].
  cbn [for_range_r]. rewrite Ht. cbn [mbind result_bind].
  rewrite (proj2 (getitem_Ok _ _ a) Ha). by eexists.
Qed.

Lemma gaussian_fields_elem (field : string) :
  field = "center" ∨ field = "sigma" ∨ field = "amplitude" → field ∈ gaussian_fields.
Proof.
  unfold gaussian_fields. rewrite !elem_of_cons. tauto.
Qed.

Section model.
Context `{Arith A, Unbounded A, Lmfit A, !LmfitLaws A}.

Lemma field_keys_ne (prefix f1 f2 : string) :
  f1 ≠ f2 → prefix +:+ f1 ≠ prefix +:+ f2.
Proof. intros Hne Heq. by apply (inj (String.append prefix)) in Heq. Qed.

Lemma gaussian_component_Ok (self : FittingProfile A)
    (pars : gmap string (LmParameter A)) (prefix : string) (c s a : A)
    (flags : bool * bool * bool) :
  vary_flags (zone self) (lineName self) = Some flags →
  _gaussian_component self pars prefix c s a None None None None None None
    = Ok (prefix, component_params prefix c s a flags pars).
Proof.
  intros Hflags. unfold _gaussian_component, component_params. rewrite Hflags.
  destruct flags as [[fc fs] fa]. cbn [default fmap option_fmap option_map compose fst snd].
  destruct (gaussian_make_params_field prefix "center") as (pc & Hpc & Hec);
    [unfold gaussian_fields; set_solver|].
  destruct (gaussian_make_params_field prefix "sigma") as (ps & Hps & Hes);
    [unfold gaussian_fields; set_solver|].
  destruct (gaussian_make_params_field prefix "amplitude") as (pa & Hpa & Hea);
    [unfold gaussian_fields; set_solver|].
  unfold subscript_set, set_param, read_flag.
  rewrite (proj2 (getitem_Ok _ _ pc)) by (by apply lookup_union_Some_l).
  cbn [mbind result_bind mret result_ret]. rewrite Hec.
  rewrite (proj2 (getitem_Ok _ _ ps)).
  2:{ rewrite lookup_insert_ne by (by apply field_keys_ne).
      by apply lookup_union_Some_l. }
  cbn [mbind result_bind mret result_ret]. rewrite Hes.
  rewrite (proj2 (getitem_Ok _ _ pa)).
  2:{ rewrite !lookup_insert_ne by (by apply field_keys_ne).
      by apply lookup_union_Some_l. }
  cbn [mbind result_bind mret result_ret]. by rewrite Hea.
Qed.

Lemma component_params_center (prefix : string) (c s a : A) (flags : bool * bool * bool)
    (pars : gmap string (LmParameter A)) :
  component_params prefix c s a flags pars !! (prefix +:+ "center")
    = Some (mkParameter c (opp inf) inf flags.1.1 None).
Proof.
  unfold component_params.
  rewrite !lookup_insert_ne by (by apply field_keys_ne). by rewrite lookup_insert_eq.
Qed.

Lemma component_params_sigma (prefix : string) (c s a : A) (flags : bool * bool * bool)
    (pars : gmap string (LmParameter A)) :
  component_params prefix c s a flags pars !! (prefix +:+ "sigma")
    = Some (mkParameter s (opp inf) inf flags.1.2 None).
Proof.
  unfold component_params.
  rewrite lookup_insert_ne by (by apply field_keys_ne). by rewrite lookup_insert_eq.
Qed.

Lemma component_params_amplitude (prefix : string) (c s a : A)
    (flags : bool * bool * bool) (pars : gmap string (LmParameter A)) :
  component_params prefix c s a flags pars !! (prefix +:+ "amplitude")
    = Some (mkParameter a (opp inf) inf flags.2 None).
Proof. unfold component_params. by rewrite lookup_insert_eq. Qed.

(** A component leaves the parameters of other prefixes alone. *)
Lemma component_params_other (prefix key : string) (c s a : A)
    (flags : bool * bool * bool) (pars : gmap string (LmParameter A)) :
  (∀ field, key ≠ prefix +:+ field) →
  component_params prefix c s a flags pars !! key = pars !! key.
Proof.
  intros Hkey. unfold component_params.
  rewrite !lookup_insert_ne by done. apply lookup_union_r.
  apply eq_None_not_Some. intros [field ->]%gaussian_make_params_prefix.
  by apply (Hkey field).
Qed.

Lemma build_components_Ok (self : FittingProfile A) (n : nat) (cList sList aList : list A)
    (pars : gmap string (LmParameter A)) (flags : bool * bool * bool) :
  vary_flags (zone self) (lineName self) = Some flags →
  n ≤ length cList → n ≤ length sList → n ≤ length aList →
  ∃ pars',
    build_components self n cList sList aList pars = Ok (g_prefix <$> seq 0 n, pars')
    ∧ ∀ i c s a, i < n → cList !! i = Some c → sList !! i = Some s →
        aList !! i = Some a → seeded pars' i c s a flags.
Proof.
  intros Hflags. unfold build_components.
  induction n as [|n IH]; intros Hc Hs Ha.
  - exists pars. split; [done|]. intros; lia.
  - destruct IH as (pars' & Hbuild & Hseeded); [lia..|].
    destruct (lookup_lt_is_Some_2 cList n) as [c Hcn]; [lia|].
    destruct (lookup_lt_is_Some_2 sList n) as [s Hsn]; [lia|].
    destruct (lookup_lt_is_Some_2 aList n) as [a Han]; [lia|].
    exists (component_params (g_prefix n) c s a flags pars').
    cbn [for_range_r]. rewrite Hbuild. cbn [mbind result_bind].
    rewrite (list_getitem_Ok _ _ _ Hcn), (list_getitem_Ok _ _ _ Hsn),
      (list_getitem_Ok _ _ _ Han). cbn [mbind result_bind].
    rewrite (gaussian_component_Ok _ _ _ _ _ _ _ Hflags). cbn [mbind result_bind].
    split.
    { rewrite seq_S, fmap_app. done. }
    intros i c' s' a' Hi Hc' Hs' Ha'.
    destruct (decide (i = n)) as [->|Hne].
    + simplify_eq. split; [|split].
      * apply component_params_center.
      * apply component_params_sigma.
      * apply component_params_amplitude.
    + destruct (Hseeded i c' s' a') as (Hk1 & Hk2 & Hk3); [lia|done..|].
      split; [|split]; (rewrite component_params_other;
        [done | intros field [? _]%g_prefix_inj; done]).
Qed.

Lemma fit_outcome_Ok (self : FittingProfile A) (n : nat) (cList sList aList : list A)
    (lS lI : A) (flags : bool * bool * bool) :
  vary_flags (zone self) (lineName self) = Some flags →
  1 ≤ n → n ≤ length cList → n ≤ length sList → n ≤ length aList →
  ∃ pars,
    let out := model_fit ("lin_" :: (g_prefix <$> seq 0 n)) (flux self) pars
                 (vel self) (weights self) in
    fit_outcome self n cList sList aList lS lI
      = Ok (mkFittingProfile (vel self) (flux self) (fluxError self) (restWave self)
              (lineName self) (zone self) (weights self) pars,
            (out, components out))
    ∧ ∀ i c s a, i < n → cList !! i = Some c → sList !! i = Some s →
        aList !! i = Some a → seeded pars i c s a flags.
Proof.
  intros Hflags Hn Hc Hs Ha. unfold fit_outcome.
  destruct (linear_make_params_field "lin_" "slope") as [ps Hps]; [set_solver|].
  destruct (linear_make_params_field "lin_" "intercept") as [pi Hpi]; [set_solver|].
  change ("lin_" +:+ "slope") with "lin_slope" in Hps.
  change ("lin_" +:+ "intercept") with "lin_intercept" in Hpi.
  rewrite (set_value_Ok _ _ _ ps) by (by apply lookup_union_Some_l).
  cbn [mbind result_bind].
  rewrite (set_value_Ok _ _ _ pi)
    by (rewrite lookup_insert_ne by done; by apply lookup_union_Some_l).
  cbn [mbind result_bind].
  match goal with
  | |- context [build_components self n cList sList aList ?p] =>
      destruct (build_components_Ok self n cList sList aList p flags Hflags Hc Hs Ha)
        as (pars & -> & Hseeded)
  end.
  exists pars. cbn [mbind result_bind].
  assert (compose "lin_" (g_prefix <$> seq 0 n) = Ok ("lin_" :: (g_prefix <$> seq 0 n)))
    as ->.
  { destruct n; [lia|]. done. }
  cbn [mbind result_bind]. cbv zeta.
  assert (∀ i, i < n → g_prefix i ∈ "lin_" :: (g_prefix <$> seq 0 n)) as Hmodel.
  { intros i Hi. apply elem_of_cons. right. apply list_elem_of_fmap.
    exists i. split; [done|]. apply elem_of_seq. lia. }
  rewrite for_range_r_unit_Ok.
  2:{ intros i Hi.
      destruct (model_fit_components ("lin_" :: (g_prefix <$> seq 0 n)) (flux self) pars
                  (vel self) (weights self) (g_prefix i) (Hmodel i Hi)) as [v Hv].
      exists v. by apply getitem_Ok. }
  cbn [mbind result_bind].
  destruct (model_fit_components ("lin_" :: (g_prefix <$> seq 0 n)) (flux self) pars
              (vel self) (weights self) "lin_") as [v Hv]; [set_solver|].
  rewrite (proj2 (getitem_Ok _ _ v) Hv). cbn [mbind result_bind].
  destruct (amplitude_total_returns n
              (model_fit ("lin_" :: (g_prefix <$> seq 0 n)) (flux self) pars
                 (vel self) (weights self))) as [total ->].
  { intros i Hi. rewrite g_key_prefix.
    destruct (lookup_lt_is_Some_2 cList i) as [c Hci]; [lia|].
    destruct (lookup_lt_is_Some_2 sList i) as [s Hsi]; [lia|].
    destruct (lookup_lt_is_Some_2 aList i) as [a Hai]; [lia|].
    destruct (Hseeded i c s a Hi Hci Hsi Hai) as (_ & _ & Hamp).
    destruct (model_fit_best_values ("lin_" :: (g_prefix <$> seq 0 n)) (flux self) pars
                (vel self) (weights self) (g_prefix i) "amplitude" _
                (Hmodel i Hi) (gaussian_fields_elem "amplitude" ltac:(tauto)) Hamp)
      as (b & Hb & _).
    by eexists. }
  done.
Qed.
End model.

(** ** Dependent lines *)

Section propagation.
Context `{Arith A, Unbounded A, Lmfit A, !LmfitLaws A}.

(** A fit of [numComps] components: the parameters handed to lmfit hold the
    given centers and sigmas with the flags of the line, lmfit reports a
    best value for each, and what was fixed comes back unchanged. *)
Lemma fit_seeded (fp : FittingProfile A) (centers sigmas amps : list A) (lS lI : A)
    (flags : bool * bool * bool) :
  vary_flags (zone fp) (lineName fp) = Some flags →
  numComps ≤ length centers → numComps ≤ length sigmas → numComps ≤ length amps →
  ∃ pars fp',
    let out := model_fit ("lin_" :: (g_prefix <$> seq 0 numComps)) (flux fp) pars
                 (vel fp) (weights fp) in
    outcome (lin_and_multi_gaussian fp numComps centers sigmas amps lS lI)
      = Ok (fp', (out, components out))
    ∧ ∀ i, i < numComps →
        (value <$> pars !! g_key i "center") = centers !! i
        ∧ (value <$> pars !! g_key i "sigma") = sigmas !! i
        ∧ (vary <$> pars !! g_key i "center") = Some flags.1.1
        ∧ (vary <$> pars !! g_key i "sigma") = Some flags.1.2
        ∧ is_Some (best_values out !! g_key i "center")
        ∧ is_Some (best_values out !! g_key i "sigma")
        ∧ (flags.1.1 = false → best_values out !! g_key i "center" = centers !! i)
        ∧ (flags.1.2 = false → best_values out !! g_key i "sigma" = sigmas !! i).
Proof.
  intros Hflags Hc Hs Ha.
  destruct (fit_outcome_Ok fp numComps centers sigmas amps lS lI flags Hflags)
    as (pars & Hout & Hseeded); [unfold numComps; lia | done..|].
  exists pars. eexists. cbv zeta. rewrite lin_and_multi_gaussian_outcome.
  split; [exact Hout|]. intros i Hi.
  destruct (lookup_lt_is_Some_2 centers i) as [c Hci]; [lia|].
  destruct (lookup_lt_is_Some_2 sigmas i) as [s Hsi]; [lia|].
  destruct (lookup_lt_is_Some_2 amps i) as [a Hai]; [lia|].
  destruct (Hseeded i c s a Hi Hci Hsi Hai) as (Hpc & Hps & _).
  assert (g_prefix i ∈ "lin_" :: (g_prefix <$> seq 0 numComps)) as Hmodel.
  { apply elem_of_cons. right. apply list_elem_of_fmap.
    exists i. split; [done|]. apply elem_of_seq. lia. }
  destruct (model_fit_best_values ("lin_" :: (g_prefix <$> seq 0 numComps)) (flux fp)
              pars (vel fp) (weights fp) (g_prefix i) "center" _ Hmodel
              (gaussian_fields_elem "center" ltac:(tauto)) Hpc) as (bc & Hbc & Hfixc).
  destruct (model_fit_best_values ("lin_" :: (g_prefix <$> seq 0 numComps)) (flux fp)
              pars (vel fp) (weights fp) (g_prefix i) "sigma" _ Hmodel
              (gaussian_fields_elem "sigma" ltac:(tauto)) Hps) as (bs & Hbs & Hfixs).
  rewrite !g_key_prefix, Hpc, Hps, Hci, Hsi, Hbc, Hbs.
  cbn [fmap option_fmap option_map value vary].
  repeat split; try (by eexists).
  - intros Hfc. f_equal. by apply Hfixc.
  - intros Hfs. f_equal. by apply Hfixs.
Qed.

Lemma best_list_Ok (model : ModelResult A) (field : string) :
  (∀ i, i < numComps → is_Some (best_values model !! g_key i field)) →
  ∃ l, best_list model field = Ok l.
Proof.
  intros Hkeys. unfold best_list, numComps in *.
  destruct (Hkeys 0) as [v0 H0']; [lia|].
  destruct (Hkeys 1) as [v1 H1']; [lia|].
  destruct (Hkeys 2) as [v2 H2']; [lia|].
  cbn [for_range_r mbind result_bind mret result_ret].
  rewrite (proj2 (getitem_Ok _ _ v0) H0'). cbn [mbind result_bind].
  rewrite (proj2 (getitem_Ok _ _ v1) H1'). cbn [mbind result_bind].
  rewrite (proj2 (getitem_Ok _ _ v2) H2'). by eexists.
Qed.
End propagation.

Section inheritance.
Context `{Arith A, Unbounded A, Lmfit A, !LmfitLaws A}.
Variable mask_emission_line :
  Z → string → Z → Z → result (list A * list A * option (list A) * option (list A)).

Lemma fitted_lists_Ok (model : ModelResult A) :
  (∀ i, i < numComps → is_Some (best_values model !! g_key i "center")
                       ∧ is_Some (best_values model !! g_key i "sigma")) →
  ∃ cl sl,
    for_range_r numComps (λ idx '(cl, sl),
        c ← getitem (best_values model) (g_key idx "center");
        s ← getitem (best_values model) (g_key idx "sigma");
        mret (cl ++ [c], sl ++ [s])) ([], []) = Ok (cl, sl)
    ∧ length cl = numComps ∧ length sl = numComps
    ∧ ∀ i, i < numComps →
        cl !! i = best_values model !! g_key i "center"
        ∧ sl !! i = best_values model !! g_key i "sigma".
Proof.
  intros Hkeys. unfold numComps in *.
  destruct (Hkeys 0) as [[c0 Hc0] [s0 Hs0]]; [lia|].
  destruct (Hkeys 1) as [[c1 Hc1] [s1 Hs1]]; [lia|].
  destruct (Hkeys 2) as [[c2 Hc2] [s2 Hs2]]; [lia|].
  exists [c0; c1; c2], [s0; s1; s2].
  cbn [for_range_r mbind result_bind mret result_ret].
  rewrite (proj2 (getitem_Ok _ _ c0) Hc0), (proj2 (getitem_Ok _ _ s0) Hs0).
  cbn [mbind result_bind].
  rewrite (proj2 (getitem_Ok _ _ c1) Hc1), (proj2 (getitem_Ok _ _ s1) Hs1).
  cbn [mbind result_bind].
  rewrite (proj2 (getitem_Ok _ _ c2) Hc2), (proj2 (getitem_Ok _ _ s2) Hs2).
  cbn [mbind result_bind]. split; [done|]. split; [done|]. split; [done|].
  intros [|[|[|i]]] Hi; try lia; by rewrite ?Hc0, ?Hs0, ?Hc1, ?Hs1, ?Hc2, ?Hs2.
Qed.

Lemma fit_reference_Ok (fp : FittingProfile A) (emProfiles : gmap string (EmInfo A))
    (emName : string) (emInfo : EmInfo A) (seedC seedS : list A) (lS lI : A)
    (flags : bool * bool * bool) :
  vary_flags (zone fp) (lineName fp) = Some flags →
  emProfiles !! emName = Some emInfo →
  numComps ≤ length seedC → numComps ≤ length seedS →
  numComps ≤ length (emAmpList emInfo) →
  ∃ emProfiles' model comps centers sigmas,
    outcome (fit_reference fp emProfiles emName emInfo seedC seedS lS lI)
      = Ok (emProfiles', model, comps)
    ∧ (emCenterList <$> emProfiles' !! emName) = Some (Some centers)
    ∧ (emSigmaList <$> emProfiles' !! emName) = Some (Some sigmas)
    ∧ length centers = numComps ∧ length sigmas = numComps
    ∧ ∀ i, i < numComps →
        centers !! i = best_values model !! g_key i "center"
        ∧ sigmas !! i = best_values model !! g_key i "sigma".
Proof.
  intros Hflags Hem Hc Hs Ha. unfold fit_reference.
  destruct (fit_seeded fp seedC seedS (emAmpList emInfo) lS lI _ Hflags Hc Hs Ha)
    as (pars & fp' & Hout & Hprops).
  rewrite outcome_bind, Hout. cbn [mbind result_bind].
  rewrite outcome_lift, (set_field_Ok _ _ _ _ Hem). cbn [mbind result_bind].
  rewrite outcome_lift, (set_field_Ok _ _ _ (set_centerList [] emInfo))
    by apply lookup_insert_eq.
  cbn [mbind result_bind].
  destruct (fitted_lists_Ok (model_fit ("lin_" :: (g_prefix <$> seq 0 numComps))
                               (flux fp) pars (vel fp) (weights fp)))
    as (cl & sl & Hloop & Hlc & Hls & Hlists).
  { intros i Hi. destruct (Hprops i Hi) as (_ & _ & _ & _ & ? & ? & _). done. }
  rewrite outcome_lift, Hloop. cbn [mbind result_bind].
  rewrite outcome_lift,
    (set_field_Ok _ _ _ (set_sigmaList [] (set_centerList [] emInfo)))
    by apply lookup_insert_eq.
  cbn [mbind result_bind].
  rewrite outcome_lift,
    (set_field_Ok _ _ _ (set_centerList cl (set_sigmaList [] (set_centerList [] emInfo))))
    by apply lookup_insert_eq.
  cbn [mbind result_bind outcome mret io_ret].
  eexists _, _, _, cl, sl. split; [reflexivity|].
  rewrite lookup_insert_eq. done.
Qed.

(** X21.  The iteration that fits the reference line of a zone (['H-Alpha']
    for ['low'], ['OIII-5007A'] for ['high']), given a window and [numComps]
    amplitudes or more, returns and leaves on record for that line a center
    list and a sigma list of [numComps] entries each: entry [i] is the best
    value that the fit reports for the center, or the sigma, of component
    [i + 1]. *)
Lemma reference_line_recorded (st : script_state A) (emName : string)
    (emInfo : EmInfo A) (wave1 flux1 : list A)
    (wave1Error flux1Error : option (list A)) :
  let z := emZone emInfo in
  emProfiles st !! emName = Some emInfo →
  z = "low" ∨ z = "high" →
  emName = spec_reference z →
  mask_emission_line (emOrder emInfo) (emFilter emInfo) (emMinI emInfo) (emMaxI emInfo)
    = Ok (wave1, flux1, wave1Error, flux1Error) →
  numComps ≤ length (emAmpList emInfo) →
  ∃ st' model centers sigmas,
    outcome (iteration mask_emission_line st emName) = Ok (st', Some model)
    ∧ (emCenterList <$> emProfiles st' !! emName) = Some (Some centers)
    ∧ (emSigmaList <$> emProfiles st' !! emName) = Some (Some sigmas)
    ∧ length centers = numComps ∧ length sigmas = numComps
    ∧ ∀ i, i < numComps →
        centers !! i = best_values model !! g_key i "center"
        ∧ sigmas !! i = best_values model !! g_key i "sigma".
Proof.
  intros z Hem Hzone Hname Hmask Ha.
  unfold iteration.
  rewrite outcome_lift, (proj2 (getitem_Ok _ _ _) Hem). cbn [mbind result_bind].
  rewrite outcome_emit, outcome_lift, Hmask. cbn [mbind result_bind].
  set (fp := FittingProfile_init _ _ _ _ _ _).
  assert (vary_flags (zone fp) (lineName fp) = Some (true, true, true)) as Hflags.
  { unfold vary_flags, spec_reference in *.
    cbn [zone lineName fp FittingProfile_init]. fold z.
    destruct Hzone as [Hz|Hz]; rewrite Hz in *.
    - rewrite decide_True in Hname by done. rewrite decide_True by done.
      by rewrite decide_True.
    - rewrite decide_False in Hname by done. rewrite decide_False by done.
      rewrite decide_True by done. by rewrite decide_True. }
  unfold spec_reference in Hname. fold z.
  destruct Hzone as [Hz|Hz]; rewrite Hz in *.
  - rewrite decide_True in Hname by done.
    rewrite decide_True by done. rewrite outcome_bind.
    rewrite (decide_True _ _ Hname).
    destruct (fit_reference_Ok fp (emProfiles st) emName emInfo
                centerListLowZone sigmaListLowZone linSlopeLowZone linIntLowZone
                _ Hflags Hem) as (em' & model & comps & cl & sl & Hout & ?);
      [done..|].
    rewrite Hout. cbn [mbind result_bind outcome mret io_ret].
    by eexists _, model, cl, sl.
  - rewrite decide_False in Hname by done.
    rewrite decide_False by done. rewrite decide_True by done. rewrite outcome_bind.
    rewrite (decide_True _ _ Hname).
    destruct (fit_reference_Ok fp (emProfiles st) emName emInfo
                centerListHighZone sigmaListHighZone linSlopeHighZone linIntHighZone
                _ Hflags Hem) as (em' & model & comps & cl & sl & Hout & ?);
      [done..|].
    rewrite Hout. cbn [mbind result_bind outcome mret io_ret].
    by eexists _, model, cl, sl.
Qed.

End inheritance.

(** ** The stand-in obeys the laws *)

Section standin_laws.
Context `{Arith A, Unbounded A}.

Lemma standin_make_gaussian_lookup (prefix key : string) (p : LmParameter A) :
  Standin.make_gaussian prefix !! key = Some p →
  (key = prefix +:+ "amplitude" ∧ p = Standin.free (lit 1 1))
  ∨ (key = prefix +:+ "center" ∧ p = Standin.free (lit 0 1))
  ∨ (key = prefix +:+ "sigma" ∧ p = Standin.free (lit 1 1))
  ∨ (∃ field, key = prefix +:+ field).
Proof.
  unfold Standin.make_gaussian. rewrite !lookup_insert_Some, lookup_empty.
  intros [[<- <-]|[_ [[<- <-]|[_ [[<- <-]|[_ [[<- _]|[_ [[<- _]|[_ ?]]]]]]]]]];
    eauto 6; done.
Qed.

Global Instance standin_laws : LmfitLaws A.
Proof.
  split.
  - intros prefix key [p Hp].
    apply standin_make_gaussian_lookup in Hp as [[-> _]|[[-> _]|[[-> _]|?]]]; eauto.
  - intros prefix field Hfield. unfold gaussian_fields in Hfield.
    rewrite !elem_of_cons, elem_of_nil in Hfield.
    cbn [gaussian_make_params Standin.lmfit]. unfold Standin.make_gaussian.
    destruct Hfield as [->|[->|[->|[]]]].
    + eexists. rewrite lookup_insert_ne by (by apply field_keys_ne).
      by rewrite lookup_insert_eq.
    + eexists. rewrite !lookup_insert_ne by (by apply field_keys_ne).
      by rewrite lookup_insert_eq.
    + eexists. by rewrite lookup_insert_eq.
  - intros prefix field Hfield. rewrite !elem_of_cons, elem_of_nil in Hfield.
    cbn [linear_make_params Standin.lmfit]. unfold Standin.make_linear.
    destruct Hfield as [->|[->|[]]].
    + by rewrite lookup_insert_eq.
    + rewrite lookup_insert_ne by (by apply field_keys_ne).
      by rewrite lookup_insert_eq.
  - intros model data pars x w prefix field p _ _ Hp.
    cbn [model_fit Standin.lmfit best_values Standin.fit].
    rewrite lookup_fmap, Hp. eexists. split; [done|].
    intros Hvary _ _ _. unfold Standin.step. by rewrite Hvary.
  - intros model data pars x w prefix Hin.
    cbn [model_fit Standin.lmfit components Standin.fit].
    apply not_eq_None_Some. intros Hnone%not_elem_of_list_to_map_2.
    apply Hnone. rewrite <- list_fmap_compose. apply list_elem_of_fmap.
    by exists prefix.
Qed.
End standin_laws.


(** ** Gaussian components *)

Section components.
Context `{Arith A, Unbounded A, Lmfit A, !LmfitLaws A}.

Lemma subscript_set_Ok (pars : gmap string (LmParameter A)) (key : string)
    (v : A) (lo hi : option A) (b : bool) (p : LmParameter A) :
  pars !! key = Some p →
  ∃ q, subscript_set pars key v lo hi (Ok b) = Ok (<[key := q]> pars)
     ∧ vary q = b
     ∧ (pmin q, pmax q) = (default (opp inf) lo, default inf hi)
     ∧ (lo = None → hi = None → value q = v).
Proof.
  intros Hp. unfold subscript_set, set_param.
  rewrite (proj2 (getitem_Ok _ _ p) Hp). cbn [mbind result_bind mret result_ret].
  eexists. split; [reflexivity|]. cbn [vary pmin pmax value].
  split; [done|]. split; [done|]. by intros -> ->.
Qed.

(** The table of [_gaussian_component], row by row. *)
Lemma vary_flags_table (zone lineName : string) :
  zone = "low" ∨ zone = "high" →
  ∃ flags, vary_flags zone lineName = Some flags
    ∧ (zone = "low" → lineName = "H-Alpha" → flags = (true, true, true))
    ∧ (zone = "low" → lineName ∈ ["NII-6584A"; "SII-6717A"; "OII-3729A"] →
       flags = (false, true, true))
    ∧ (zone = "low" → lineName ≠ "H-Alpha" →
       lineName ∉ ["NII-6584A"; "SII-6717A"; "OII-3729A"] →
       flags = (false, false, true))
    ∧ (zone = "high" → lineName = "OIII-5007A" → flags = (true, true, true))
    ∧ (zone = "high" → lineName ≠ "OIII-5007A" → flags = (false, false, true)).
Proof.
  intros Hz. unfold vary_flags.
  destruct Hz as [-> | ->]; simpl.
  - destruct (decide (lineName = "H-Alpha")) as [-> | Hne].
    + eexists. split; [reflexivity|]. repeat split; try done.
      intros _ Hin. rewrite !elem_of_cons, elem_of_nil in Hin.
      destruct Hin as [?|[?|[?|[]]]]; done.
    + destruct (bool_decide _) eqn:Hin.
      * apply bool_decide_eq_true in Hin.
        eexists. split; [reflexivity|]. repeat split; done.
      * apply bool_decide_eq_false in Hin.
        eexists. split; [reflexivity|]. repeat split; done.
  - destruct (decide (lineName = "OIII-5007A")) as [-> | Hne];
      (eexists; split; [reflexivity|]); repeat split; done.
Qed.

(** C1.  For an lmfit whose Gaussian model has the parameters [center],
    [sigma] and [amplitude]: with zone ['low'] or ['high'],
    [_gaussian_component] builds the component, whatever the line, the seeds
    and the bounds, and the vary-flags it sets follow from the zone and the
    line name: all free for ['low']/['H-Alpha'] and for
    ['high']/['OIII-5007A']; center fixed for ['low'] with ['NII-6584A'],
    ['SII-6717A'] or ['OII-3729A']; center and sigma fixed for every other
    name of either zone.  A bound that is not supplied is [-inf] or
    [+inf], and a parameter without a supplied bound holds its seed.  With
    any other zone no component is built: the flags are unbound locals. *)
Theorem gaussian_component_flags (self : FittingProfile A)
    (pars : gmap string (LmParameter A)) (prefix : string) (c s a : A)
    (cMin cMax sMin sMax aMin aMax : option A) :
  let zone := zone self in
  let lineName := lineName self in
  (zone = "low" ∨ zone = "high" →
   ∃ pars' pc ps pa,
     _gaussian_component self pars prefix c s a cMin cMax sMin sMax aMin aMax
       = Ok (prefix, pars')
     ∧ pars' !! (prefix +:+ "center") = Some pc
     ∧ pars' !! (prefix +:+ "sigma") = Some ps
     ∧ pars' !! (prefix +:+ "amplitude") = Some pa
     ∧ (let flags := (vary pc, vary ps, vary pa) in
        (zone = "low" → lineName = "H-Alpha" → flags = (true, true, true))
        ∧ (zone = "low" → lineName ∈ ["NII-6584A"; "SII-6717A"; "OII-3729A"] →
           flags = (false, true, true))
        ∧ (zone = "low" → lineName ≠ "H-Alpha" →
           lineName ∉ ["NII-6584A"; "SII-6717A"; "OII-3729A"] →
           flags = (false, false, true))
        ∧ (zone = "high" → lineName = "OIII-5007A" → flags = (true, true, true))
        ∧ (zone = "high" → lineName ≠ "OIII-5007A" → flags = (false, false, true)))
     ∧ (pmin pc, pmax pc) = (default (opp inf) cMin, default inf cMax)
     ∧ (pmin ps, pmax ps) = (default (opp inf) sMin, default inf sMax)
     ∧ (pmin pa, pmax pa) = (default (opp inf) aMin, default inf aMax)
     ∧ (cMin = None → cMax = None → value pc = c)
     ∧ (sMin = None → sMax = None → value ps = s)
     ∧ (aMin = None → aMax = None → value pa = a))
  ∧ (zone ≠ "low" → zone ≠ "high" →
     _gaussian_component self pars prefix c s a cMin cMax sMin sMax aMin aMax
       = Raise (UnboundLocalError "varyCentre")).
Proof.
  intros zone0 lineName0.
  destruct (gaussian_make_params_field prefix "center") as (qc & Hqc & _);
    [unfold gaussian_fields; set_solver|].
  destruct (gaussian_make_params_field prefix "sigma") as (qs & Hqs & _);
    [unfold gaussian_fields; set_solver|].
  destruct (gaussian_make_params_field prefix "amplitude") as (qa & Hqa & _);
    [unfold gaussian_fields; set_solver|].
  assert (prefix +:+ "center" ≠ prefix +:+ "sigma") as Hcs
    by (intros ?%(inj (String.app prefix)); done).
  assert (prefix +:+ "center" ≠ prefix +:+ "amplitude") as Hca
    by (intros ?%(inj (String.app prefix)); done).
  assert (prefix +:+ "sigma" ≠ prefix +:+ "amplitude") as Hsa
    by (intros ?%(inj (String.app prefix)); done).
  split.
  - intros Hz. unfold _gaussian_component.
    destruct (vary_flags_table zone0 lineName0 Hz) as ([[fc fs] fa] & Hflags & Htable).
    fold zone0 lineName0. rewrite Hflags.
    cbn [fmap option_fmap option_map read_flag]. unfold Basics.compose. cbn [fst snd].
    destruct (subscript_set_Ok (gaussian_make_params prefix ∪ pars)
                (prefix +:+ "center") c cMin cMax fc qc)
      as (pc & -> & Hvc & Hbc & Hc); [by apply lookup_union_Some_l|].
    cbn [mbind result_bind].
    destruct (subscript_set_Ok (<[prefix +:+ "center" := pc]>
                                  (gaussian_make_params prefix ∪ pars))
                (prefix +:+ "sigma") s sMin sMax fs qs)
      as (ps & -> & Hvs & Hbs & Hs).
    { rewrite lookup_insert_ne by done. by apply lookup_union_Some_l. }
    cbn [mbind result_bind].
    destruct (subscript_set_Ok
                (<[prefix +:+ "sigma" := ps]>
                   (<[prefix +:+ "center" := pc]> (gaussian_make_params prefix ∪ pars)))
                (prefix +:+ "amplitude") a aMin aMax fa qa)
      as (pa & -> & Hva & Hba & Ha).
    { rewrite !lookup_insert_ne by done. by apply lookup_union_Some_l. }
    cbn [mbind result_bind mret result_ret].
    eexists _, pc, ps, pa. split; [reflexivity|].
    split; [by rewrite lookup_insert_ne, lookup_insert_ne, lookup_insert_eq|].
    split; [by rewrite lookup_insert_ne, lookup_insert_eq|].
    split; [by rewrite lookup_insert_eq|].
    rewrite Hvc, Hvs, Hva. done.
  - intros Hlow Hhigh. unfold _gaussian_component.
    assert (vary_flags zone0 lineName0 = None) as Hflags
      by (unfold vary_flags; by rewrite !decide_False).
    fold zone0 lineName0. rewrite Hflags. unfold subscript_set.
    rewrite (proj2 (getitem_Ok _ _ qc)) by (by apply lookup_union_Some_l). done.
Qed.
End components.

Lemma gaussian_component_flags_witness :
  let self := FittingProfile_init (A:=float) [] [] (lit 658341 100)
                "NII-6584A" "low" None in
  ∃ pars' pc ps pa,
    _gaussian_component self ∅ "g1_" 1%float 2%float 3%float
      None None (Some 0%float) None None None = Ok ("g1_", pars')
    ∧ pars' !! "g1_center" = Some pc
    ∧ pars' !! "g1_sigma" = Some ps
    ∧ pars' !! "g1_amplitude" = Some pa
    ∧ (vary pc, vary ps, vary pa) = (false, true, true)
    ∧ (pmin pc, pmax pc) = (PrimFloat.neg_infinity, PrimFloat.infinity)
    ∧ (pmin ps, pmax ps) = (0%float, PrimFloat.infinity)
    ∧ value pc = 1%float.
Proof.
  intros self.
  destruct (gaussian_component_flags self ∅ "g1_" 1%float 2%float 3%float
              None None (Some 0%float) None None None) as [Hbuilt _].
  destruct (Hbuilt (or_introl eq_refl))
    as (pars' & pc & ps & pa & Hg & Hc & Hs & Ha & Hf & Hbc & Hbs & _ & Hvc & _).
  exists pars', pc, ps, pa. split; [exact Hg|].
  split; [exact Hc|]. split; [exact Hs|]. split; [exact Ha|].
  split; [|split; [exact Hbc | split; [exact Hbs | exact (Hvc eq_refl eq_refl)]]].
  destruct Hf as (_ & Hf & _).
  apply Hf; [reflexivity|]. apply (bool_decide_unpack _). reflexivity.
Defined.

(** With a supplied bound the seed is held to it: the stand-in stores an
    amplitude of 3 under [aMin = 5] as 5. *)
Lemma gaussian_component_seed_bounded :
  let self := FittingProfile_init (A:=float) [] [] (lit 658341 100)
                "NII-6584A" "low" None in
  ∃ pars' pa,
    _gaussian_component self ∅ "g1_" 1%float 2%float 3%float
      None None None None (Some 5%float) None = Ok ("g1_", pars')
    ∧ pars' !! "g1_amplitude" = Some pa
    ∧ (value pa, pmin pa, pmax pa, vary pa)
      = (5%float, 5%float, PrimFloat.infinity, true).
Proof. intros self. eexists _, _. repeat split; reflexivity. Qed.

(** ** Windows of a spectrum *)

Lemma np_getitem_nonneg {V} (a : list V) (i : nat) :
  np_getitem a (Z.of_nat i) = list_getitem a i.
Proof.
  unfold np_getitem. cbv zeta.
  destruct (decide (Z.of_nat i < 0)%Z) as [?|_]; [lia|].
  rewrite decide_False by lia. by rewrite Nat2Z.id.
Qed.

Lemma np_getitem_Ok {V} (a : list V) (i : Z) (v : V) :
  (0 ≤ i)%Z → a !! Z.to_nat i = Some v → np_getitem a i = Ok v.
Proof.
  intros Hi Hv. rewrite <- (Z2Nat.id i) by done. rewrite np_getitem_nonneg.
  by apply list_getitem_Ok.
Qed.

(** A negative index [-k] is the index [len(a) - k]. *)
Lemma np_getitem_wrap {V} (a : list V) (i : Z) :
  (- Z.of_nat (length a) ≤ i < 0)%Z →
  np_getitem a i = np_getitem a (i + Z.of_nat (length a)).
Proof.
  intros Hi. unfold np_getitem. cbv zeta.
  destruct (decide (i < 0)%Z) as [_|?]; [|lia].
  destruct (decide (i + Z.of_nat (length a) < 0)%Z) as [?|_]; [lia|].
  by rewrite decide_False by lia.
Qed.

Lemma np_getitem_IndexError {V} (a : list V) (i : Z) :
  (i < - Z.of_nat (length a) ∨ Z.of_nat (length a) ≤ i)%Z →
  np_getitem a i = Raise IndexError.
Proof.
  intros Hi. unfold np_getitem. cbv zeta. destruct (decide (i < 0)%Z) as [Hneg|Hpos].
  - destruct Hi as [Hi|Hi]; [|lia]. by rewrite decide_True by lia.
  - destruct Hi as [Hi|Hi]; [lia|]. rewrite decide_False by lia.
    unfold list_getitem. rewrite lookup_ge_None_2; [done|]. lia.
Qed.

Lemma py_slice_nonneg {V} (a : list V) (lo hi : nat) :
  py_slice a (Z.of_nat lo) (Z.of_nat hi) = take (hi - lo) (drop lo a).
Proof.
  unfold py_slice, slice_bound. rewrite !decide_False by lia.
  destruct (decide (lo < length a)) as [Hlo|Hlo].
  - rewrite (Z.min_l (Z.of_nat lo)) by lia. rewrite Nat2Z.id.
    destruct (decide (hi ≤ length a)) as [Hhi|Hhi].
    + rewrite Z.min_l by lia. f_equal. lia.
    + rewrite Z.min_r by lia. rewrite !take_ge; [done|rewrite length_drop; lia..].
  - rewrite !(drop_ge a); [by rewrite !take_nil|lia|lia].
Qed.

Lemma py_slice_lookup {V} (a : list V) (lo hi k : nat) :
  py_slice a (Z.of_nat lo) (Z.of_nat hi) !! k
  = if decide (lo + k < hi) then a !! (lo + k) else None.
Proof.
  rewrite py_slice_nonneg, lookup_take, lookup_drop.
  destruct (decide (k < hi - lo)), (decide (lo + k < hi)); done || lia.
Qed.

Lemma py_slice_length {V} (a : list V) (lo hi : nat) :
  length (py_slice a (Z.of_nat lo) (Z.of_nat hi)) = hi `min` length a - lo.
Proof. rewrite py_slice_nonneg, length_take, length_drop. lia. Qed.

(** [a[lo:-1]] stops before the last element. *)
Lemma py_slice_to_last {V} (a : list V) (lo : nat) :
  py_slice a (Z.of_nat lo) (-1) = take (length a - 1 - lo) (drop lo a).
Proof.
  destruct (decide (length a = 0)) as [Hnil|Hne].
  - destruct a; [|done]. unfold py_slice. by rewrite drop_nil, !take_nil.
  - rewrite <- py_slice_nonneg. unfold py_slice, slice_bound.
    rewrite (decide_True (P := (-1 < 0)%Z)) by lia.
    rewrite (decide_False (P := (Z.of_nat (length a - 1) < 0)%Z)) by lia.
    do 2 f_equal. lia.
Qed.

Section windows.
Context `{Arith A}.

Lemma filter_argument_known (self : GalaxyRegion A) (filt : string)
    (x y : list (list A)) (error : option (list (list A) * list (list A))) :
  filter_locals self filt = Some (x, y, error) →
  _filter_argument self filt = Run [] (Returned (x, y, error)).
Proof. intros Hf. unfold _filter_argument. by rewrite Hf. Qed.

(** X1.  For a known filter, an order [orderNum >= 1] that both arrays
    have, and bounds that are not negative, [mask_emission_line] returns
    without printing; sample [k] of each window is sample [minIndex + k] of
    the order [orderNum - 1] as long as [minIndex + k < maxIndex], so a
    [maxIndex] beyond the end is clamped and [maxIndex <= minIndex] gives
    empty windows; without error spectra both error windows are [None]. *)
Theorem mask_emission_line_window (self : GalaxyRegion A) (orderNum : Z) (filt : string)
    (minIndex maxIndex : nat) (x y : list (list A)) (xo yo : list A) :
  filter_locals self filt = Some (x, y, None) →
  (1 ≤ orderNum)%Z →
  x !! Z.to_nat (orderNum - 1) = Some xo →
  y !! Z.to_nat (orderNum - 1) = Some yo →
  ∃ xMask yMask,
    mask_emission_line self orderNum filt (Z.of_nat minIndex) (Z.of_nat maxIndex)
      = Run [] (Returned (xMask, yMask, None, None))
    ∧ (∀ k, xMask !! k
            = if decide (minIndex + k < maxIndex) then xo !! (minIndex + k) else None)
    ∧ (∀ k, yMask !! k
            = if decide (minIndex + k < maxIndex) then yo !! (minIndex + k) else None)
    ∧ length xMask = maxIndex `min` length xo - minIndex
    ∧ length yMask = maxIndex `min` length yo - minIndex.
Proof.
  intros Hf Ho Hx Hy. unfold mask_emission_line.
  rewrite (filter_argument_known _ _ _ _ _ Hf).
  cbn [mbind run_bind ended printed].
  rewrite (np_getitem_Ok x _ xo), (np_getitem_Ok y _ yo) by (done || lia).
  cbn [mbind result_bind mret result_ret run_result ended printed app].
  eexists _, _. split; [reflexivity|].
  split; [intros k; apply py_slice_lookup|].
  split; [intros k; apply py_slice_lookup|].
  split; apply py_slice_length.
Qed.

(** X2.  With error spectra, for a known filter and an order that the four
    arrays have, the two error windows are cut from the error arrays with
    the same bounds as the windows of the spectrum. *)
Theorem mask_emission_line_errors (self : GalaxyRegion A) (orderNum : Z) (filt : string)
    (minIndex maxIndex : nat) (x y xE yE : list (list A)) (xo yo xEo yEo : list A) :
  filter_locals self filt = Some (x, y, Some (xE, yE)) →
  (1 ≤ orderNum)%Z →
  x !! Z.to_nat (orderNum - 1) = Some xo →
  y !! Z.to_nat (orderNum - 1) = Some yo →
  xE !! Z.to_nat (orderNum - 1) = Some xEo →
  yE !! Z.to_nat (orderNum - 1) = Some yEo →
  ∃ xMask yMask xEMask yEMask,
    mask_emission_line self orderNum filt (Z.of_nat minIndex) (Z.of_nat maxIndex)
      = Run [] (Returned (xMask, yMask, Some xEMask, Some yEMask))
    ∧ (∀ k, xEMask !! k
            = if decide (minIndex + k < maxIndex) then xEo !! (minIndex + k) else None)
    ∧ (∀ k, yEMask !! k
            = if decide (minIndex + k < maxIndex) then yEo !! (minIndex + k) else None)
    ∧ (length yEo = length yo → length yEMask = length yMask).
Proof.
  intros Hf Ho Hx Hy HxE HyE. unfold mask_emission_line.
  rewrite (filter_argument_known _ _ _ _ _ Hf).
  cbn [mbind run_bind ended printed].
  rewrite (np_getitem_Ok x _ xo), (np_getitem_Ok y _ yo) by (done || lia).
  cbn [mbind result_bind].
  rewrite (np_getitem_Ok xE _ xEo), (np_getitem_Ok yE _ yEo) by (done || lia).
  cbn [mbind result_bind mret result_ret run_result ended printed app].
  eexists _, _, _, _. split; [reflexivity|].
  split; [intros k; apply py_slice_lookup|].
  split; [intros k; apply py_slice_lookup|].
  intros Hlen. rewrite !py_slice_length. lia.
Qed.

(** X3.  [orderNum] counts from 1, and an [orderNum] from [1 - n] to [0]
    wraps around instead of failing: when every array of the filter has
    [n] orders, [orderNum] selects the same windows as [orderNum + n], so
    [orderNum = 0] selects the last order. *)
Theorem mask_emission_line_order_wraps (self : GalaxyRegion A) (orderNum : Z)
    (filt : string) (minIndex maxIndex : Z) (n : nat) (x y : list (list A))
    (error : option (list (list A) * list (list A))) :
  filter_locals self filt = Some (x, y, error) →
  length x = n → length y = n →
  (∀ xE yE, error = Some (xE, yE) → length xE = n ∧ length yE = n) →
  (1 - Z.of_nat n ≤ orderNum ≤ 0)%Z →
  mask_emission_line self orderNum filt minIndex maxIndex
  = mask_emission_line self (orderNum + Z.of_nat n) filt minIndex maxIndex.
Proof.
  intros Hf Hx Hy He Ho. unfold mask_emission_line.
  rewrite (filter_argument_known _ _ _ _ _ Hf).
  cbn [mbind run_bind ended printed]. f_equal; [|f_equal].
  all: replace (orderNum + Z.of_nat n - 1)%Z with (orderNum - 1 + Z.of_nat n)%Z by lia.
  all: rewrite (np_getitem_wrap x), (np_getitem_wrap y), Hx, Hy by lia.
  all: destruct error as [[xE yE]|]; [|done].
  all: destruct (He xE yE eq_refl) as [HxE HyE].
  all: by rewrite (np_getitem_wrap xE), (np_getitem_wrap yE), HxE, HyE by lia.
Qed.

(** X4.  For a known filter, an [orderNum] above the number of orders of
    the wavelength array, or at most minus that number, raises
    [IndexError]; nothing is printed. *)
Theorem mask_emission_line_IndexError (self : GalaxyRegion A) (orderNum : Z)
    (filt : string) (minIndex maxIndex : Z) (x y : list (list A))
    (error : option (list (list A) * list (list A))) :
  filter_locals self filt = Some (x, y, error) →
  (orderNum ≤ - Z.of_nat (length x) ∨ Z.of_nat (length x) < orderNum)%Z →
  mask_emission_line self orderNum filt minIndex maxIndex = Run [] (Raised IndexError).
Proof.
  intros Hf Ho. unfold mask_emission_line.
  rewrite (filter_argument_known _ _ _ _ _ Hf).
  cbn [mbind run_bind ended printed].
  rewrite (np_getitem_IndexError x) by lia. done.
Qed.

(** X5.  With a filter other than ['red'] or ['blue'], [_filter_argument]
    and [mask_emission_line] print the error message and end the script
    with [exit()]: the caller gets no value and no [NameError]. *)
Theorem mask_emission_line_unknown_filter (self : GalaxyRegion A) (orderNum : Z)
    (filt : string) (minIndex maxIndex : Z) :
  filt ≠ "red" → filt ≠ "blue" →
  let message := Print (A:=A)
    "Error: Invalid argument. Choose 'red' or 'blue' for the filter argument" [] in
  _filter_argument self filt = Run [message] Exited
  ∧ mask_emission_line self orderNum filt minIndex maxIndex = Run [message] Exited.
Proof.
  intros Hr Hb message.
  assert (_filter_argument self filt = Run [message] Exited) as Hf.
  { unfold _filter_argument, filter_locals. by rewrite !decide_False by done. }
  split; [done|]. unfold mask_emission_line. by rewrite Hf.
Qed.

(** X6.  With the defaults [minIndex=0] and [maxIndex=-1] the windows stop
    before the last sample of the order: a call that leaves the bounds out
    never returns the whole order. *)
Theorem mask_emission_line_default_window (self : GalaxyRegion A) (orderNum : Z)
    (filt : string) (x y : list (list A)) (xo yo : list A) :
  filter_locals self filt = Some (x, y, None) →
  (1 ≤ orderNum)%Z →
  x !! Z.to_nat (orderNum - 1) = Some xo →
  y !! Z.to_nat (orderNum - 1) = Some yo →
  mask_emission_line self orderNum filt 0 (-1)
  = Run [] (Returned (take (length xo - 1) xo, take (length yo - 1) yo, None, None)).
Proof.
  intros Hf Ho Hx Hy. unfold mask_emission_line.
  rewrite (filter_argument_known _ _ _ _ _ Hf).
  cbn [mbind run_bind ended printed].
  rewrite (np_getitem_Ok x _ xo), (np_getitem_Ok y _ yo) by (done || lia).
  cbn [mbind result_bind mret result_ret run_result ended printed app].
  change 0%Z with (Z.of_nat 0). rewrite !py_slice_to_last.
  by rewrite !drop_0, !Nat.sub_0_r.
Qed.
End windows.

Lemma mask_emission_line_window_witness :
  ∃ xMask yMask,
    mask_emission_line example_region 2 "blue" 1 3
      = Run [] (Returned (xMask, yMask, None, None))
    ∧ xMask = [4201; 4202]%float ∧ yMask = [6; 10]%float.
Proof.
  destruct (mask_emission_line_window example_region 2 "blue" 1 3
              (xBlue example_region) (yBlue example_region)
              [4200; 4201; 4202; 4203]%float [2; 6; 10; 2]%float
              eq_refl ltac:(lia) eq_refl eq_refl)
    as (xMask & yMask & Hmask & _).
  exists xMask, yMask. split; [exact Hmask|].
  vm_compute in Hmask. injection Hmask as <- <-. split; reflexivity.
Defined.

Lemma mask_emission_line_errors_witness :
  ∃ xMask yMask xEMask yEMask,
    mask_emission_line example_region 1 "red" 0 9
      = Run [] (Returned (xMask, yMask, Some xEMask, Some yEMask))
    ∧ length yEMask = 4 ∧ length yMask = 4.
Proof.
  destruct (mask_emission_line_errors example_region 1 "red" 0 9
              (xRed example_region) (yRed example_region)
              (xRed example_region) (yRed example_region)
              [4100; 4101; 4102; 4103]%float [2; 4; 8; 4]%float
              [4100; 4101; 4102; 4103]%float [2; 4; 8; 4]%float
              eq_refl ltac:(lia) eq_refl eq_refl eq_refl eq_refl)
    as (xMask & yMask & xEMask & yEMask & Hmask & _ & _ & Hlen).
  exists xMask, yMask, xEMask, yEMask. split; [exact Hmask|].
  vm_compute in Hmask. injection Hmask as <- <- <- <-. split; reflexivity.
Defined.

Lemma mask_emission_line_order_wraps_witness :
  mask_emission_line example_region 0 "red" 0 4
  = mask_emission_line example_region 2 "red" 0 4.
Proof.
  exact (mask_emission_line_order_wraps example_region 0 "red" 0 4 2
           (xRed example_region) (yRed example_region) (redError example_region)
           eq_refl eq_refl eq_refl
           ltac:(by intros xE yE [= <- <-]) ltac:(lia)).
Defined.

Lemma mask_emission_line_IndexError_witness :
  mask_emission_line example_region 3 "blue" 0 4 = Run [] (Raised IndexError).
Proof.
  exact (mask_emission_line_IndexError example_region 3 "blue" 0 4
           (xBlue example_region) (yBlue example_region) None
           eq_refl ltac:(right; simpl; lia)).
Defined.

Lemma mask_emission_line_unknown_filter_witness :
  mask_emission_line example_region 1 "green" 0 4
  = Run [Print "Error: Invalid argument. Choose 'red' or 'blue' for the filter argument" []]
        Exited.
Proof.
  exact (proj2 (mask_emission_line_unknown_filter example_region 1 "green" 0 4
                  ltac:(discriminate) ltac:(discriminate))).
Defined.

Lemma mask_emission_line_default_window_witness :
  mask_emission_line example_region 1 "blue" 0 (-1)
  = Run [] (Returned ([4100; 4101; 4102]%float, [2; 4; 8]%float, None, None)).
Proof.
  exact (mask_emission_line_default_window example_region 1 "blue"
           (xBlue example_region) (yBlue example_region)
           [4100; 4101; 4102; 4103]%float [2; 4; 8; 4]%float
           eq_refl ltac:(lia) eq_refl eq_refl).
Defined.

(** ** From the files to the fit *)

Lemma py_slice_fmap {V W} (f : V → W) (a : list V) (lo hi : Z) :
  py_slice (f <$> a) lo hi = f <$> py_slice a lo hi.
Proof. unfold py_slice. by rewrite length_fmap, fmap_take, fmap_drop. Qed.

Section region.
Context `{Arith A}.

(** The loop of [read_spectra] gives one row for each spectrum, in the
    order of the file. *)
Lemma read_spectra_rows (spectra : list (Spectrum1D A)) (scaleFlux : A) :
  read_spectra spectra scaleFlux
  = (spDispersion <$> spectra,
     (λ spectrum, (λ f, f * scaleFlux)%num <$> spFlux spectrum) <$> spectra).
Proof.
  unfold read_spectra.
  induction spectra as [|spectrum spectra IH] using rev_ind; [done|].
  by rewrite foldl_snoc, IH, !fmap_app.
Qed.

Lemma filter_locals_init (specFileBlue specFileRed : list (Spectrum1D A))
    (specFileBlueError specFileRedError : option (list (Spectrum1D A)))
    (scaleFlux : A) (filt : string) :
  filt = "red" ∨ filt = "blue" →
  let spectra := if decide (filt = "red") then specFileRed else specFileBlue in
  let errors := if decide (filt = "red") then specFileRedError else specFileBlueError in
  filter_locals (GalaxyRegion_init specFileBlue specFileRed specFileBlueError
                   specFileRedError scaleFlux) filt
  = Some (read_spectra spectra scaleFlux,
          (λ spectra, read_spectra spectra scaleFlux) <$> errors).
Proof.
  intros Hf spectra errors. subst spectra errors.
  unfold filter_locals, GalaxyRegion_init.
  destruct (read_spectra specFileBlue scaleFlux) as [xb yb] eqn:Hb.
  destruct (read_spectra specFileRed scaleFlux) as [xr yr] eqn:Hr.
  cbn [xRed yRed xBlue yBlue redError blueError].
  destruct Hf as [-> | ->].
  - rewrite !decide_True by done. rewrite Hr. by destruct specFileRedError.
  - rewrite !(decide_False (P := "blue" = "red")) by done.
    rewrite decide_True by done. rewrite Hb.
    by destruct specFileBlueError.
Qed.

(** X7.  For a region built from the files without an error file for the
    filter, [mask_emission_line] for order [orderNum] (from 1) returns the
    window of the wavelengths of spectrum [orderNum - 1] as they were read,
    the same window of its fluxes multiplied by [scaleFlux], and [None]
    for both error windows. *)
Theorem region_window_scaled (specFileBlue specFileRed : list (Spectrum1D A))
    (specFileBlueError specFileRedError : option (list (Spectrum1D A)))
    (scaleFlux : A) (orderNum : Z) (filt : string) (minIndex maxIndex : Z)
    (spectrum : Spectrum1D A) :
  let galaxyRegion := GalaxyRegion_init specFileBlue specFileRed specFileBlueError
                        specFileRedError scaleFlux in
  let spectra := if decide (filt = "red") then specFileRed else specFileBlue in
  let errors := if decide (filt = "red") then specFileRedError else specFileBlueError in
  filt = "red" ∨ filt = "blue" →
  errors = None →
  (1 ≤ orderNum)%Z →
  spectra !! Z.to_nat (orderNum - 1) = Some spectrum →
  mask_emission_line galaxyRegion orderNum filt minIndex maxIndex
  = Run [] (Returned (py_slice (spDispersion spectrum) minIndex maxIndex,
                      (λ f, f * scaleFlux)%num
                        <$> py_slice (spFlux spectrum) minIndex maxIndex,
                      None, None)).
Proof.
  intros galaxyRegion spectra errors Hf He Ho Hs. unfold mask_emission_line.
  pose proof (filter_locals_init specFileBlue specFileRed specFileBlueError
                specFileRedError scaleFlux filt Hf) as Hlocals.
  cbv zeta in Hlocals. fold spectra errors galaxyRegion in Hlocals.
  rewrite He, read_spectra_rows in Hlocals.
  rewrite (filter_argument_known _ _ _ _ _ Hlocals).
  cbn [mbind run_bind ended printed].
  rewrite (np_getitem_Ok (spDispersion <$> spectra) _ (spDispersion spectrum))
    by (lia || by rewrite list_lookup_fmap, Hs).
  cbn [mbind result_bind].
  rewrite (np_getitem_Ok (_ <$> spectra) _ ((λ f, f * scaleFlux)%num <$> spFlux spectrum))
    by (lia || by rewrite list_lookup_fmap, Hs).
  cbn [mbind result_bind mret result_ret run_result ended printed app].
  by rewrite py_slice_fmap.
Qed.

(** X8.  For a region built with an error file for the filter, the profile
    that the script builds from a window (lines 305 to 308) is fit with
    weights: the reciprocals of the error fluxes of the same window, each
    multiplied by [scaleFlux] first. *)
Theorem region_window_weights (specFileBlue specFileRed : list (Spectrum1D A))
    (specFileBlueError specFileRedError : option (list (Spectrum1D A)))
    (scaleFlux : A) (orderNum : Z) (filt : string) (minIndex maxIndex : Z)
    (errorSpectra : list (Spectrum1D A)) (spectrum error : Spectrum1D A)
    (restWave : A) (emName zone : string) :
  let galaxyRegion := GalaxyRegion_init specFileBlue specFileRed specFileBlueError
                        specFileRedError scaleFlux in
  let spectra := if decide (filt = "red") then specFileRed else specFileBlue in
  let errors := if decide (filt = "red") then specFileRedError else specFileBlueError in
  filt = "red" ∨ filt = "blue" →
  errors = Some errorSpectra →
  (1 ≤ orderNum)%Z →
  spectra !! Z.to_nat (orderNum - 1) = Some spectrum →
  errorSpectra !! Z.to_nat (orderNum - 1) = Some error →
  ∃ wave1 flux1 wave1Error flux1Error,
    mask_emission_line galaxyRegion orderNum filt minIndex maxIndex
      = Run [] (Returned (wave1, flux1, wave1Error, Some flux1Error))
    ∧ weights (FittingProfile_init (_velocity restWave wave1) flux1 restWave emName zone
                 (Some flux1Error))
      = Some ((λ e, lit 1 1 / (e * scaleFlux))%num
                <$> py_slice (spFlux error) minIndex maxIndex).
Proof.
  intros galaxyRegion spectra errors Hf He Ho Hs Her. unfold mask_emission_line.
  pose proof (filter_locals_init specFileBlue specFileRed specFileBlueError
                specFileRedError scaleFlux filt Hf) as Hlocals.
  cbv zeta in Hlocals. fold spectra errors galaxyRegion in Hlocals.
  rewrite He, !read_spectra_rows in Hlocals. cbn [fmap option_fmap option_map] in Hlocals.
  rewrite read_spectra_rows in Hlocals.
  rewrite (filter_argument_known _ _ _ _ _ Hlocals).
  cbn [mbind run_bind ended printed].
  rewrite (np_getitem_Ok (spDispersion <$> spectra) _ (spDispersion spectrum))
    by (lia || by rewrite list_lookup_fmap, Hs).
  cbn [mbind result_bind].
  rewrite (np_getitem_Ok (_ <$> spectra) _ ((λ f, f * scaleFlux)%num <$> spFlux spectrum))
    by (lia || by rewrite list_lookup_fmap, Hs).
  cbn [mbind result_bind].
  rewrite (np_getitem_Ok (spDispersion <$> errorSpectra) _ (spDispersion error))
    by (lia || by rewrite list_lookup_fmap, Her).
  cbn [mbind result_bind].
  rewrite (np_getitem_Ok (_ <$> errorSpectra) _ ((λ f, f * scaleFlux)%num <$> spFlux error))
    by (lia || by rewrite list_lookup_fmap, Her).
  cbn [mbind result_bind mret result_ret run_result ended printed app].
  eexists _, _, _, _. split; [reflexivity|].
  cbn [weights FittingProfile_init _weights]. f_equal.
  by rewrite py_slice_fmap, <- list_fmap_compose.
Qed.
End region.

Lemma region_window_scaled_witness :
  mask_emission_line example_region 2 "blue" 1 (-1)
  = Run [] (Returned ([4201; 4202]%float, [6; 10]%float, None, None)).
Proof.
  exact (region_window_scaled example_spectra example_spectra None (Some example_spectra)
           2%float 2 "blue" 1 (-1)
           (mkSpectrum1D [4200; 4201; 4202; 4203]%float [1; 3; 5; 1]%float)
           (or_intror eq_refl) eq_refl ltac:(lia) eq_refl).
Defined.

Lemma region_window_weights_witness :
  ∃ wave1 flux1 wave1Error flux1Error,
    mask_emission_line example_region 1 "red" 1 3
      = Run [] (Returned (wave1, flux1, wave1Error, Some flux1Error))
    ∧ weights (FittingProfile_init (_velocity 4101%float wave1) flux1 4101%float
                 "H-Delta" "low" (Some flux1Error))
      = Some [0.25; 0.125]%float.
Proof.
  exact (region_window_weights example_spectra example_spectra None (Some example_spectra)
           2%float 1 "red" 1 3 example_spectra
           (mkSpectrum1D [4100; 4101; 4102; 4103]%float [1; 2; 4; 2]%float)
           (mkSpectrum1D [4100; 4101; 4102; 4103]%float [1; 2; 4; 2]%float)
           4101%float "H-Delta" "low"
           (or_introl eq_refl) eq_refl ltac:(lia) eq_refl eq_refl).
Defined.

(** ** Edges of lin_and_multi_gaussian *)

Lemma lift_Ok_bind {A T U} (v : T) (f : T → io A U) : lift (Ok v) ≫= f = f v.
Proof. unfold mbind, io_bind. simpl. by destruct (f v). Qed.

Lemma lift_Raise_bind {A T U} (e : exn) (f : T → io A U) :
  lift (Raise e) ≫= f = IO [] (Raise e).
Proof. done. Qed.

Lemma for_range_r_ext {T} (n : nat) (body body' : nat → T → result T) (acc : T) :
  (∀ i acc, i < n → body i acc = body' i acc) →
  for_range_r n body acc = for_range_r n body' acc.
Proof.
  induction n as [|n IH]; intros Hext; [done|]. cbn [for_range_r].
  rewrite IH by (intros; apply Hext; lia).
  destruct (for_range_r n body' acc); [|done]. cbn [mbind result_bind].
  apply Hext. lia.
Qed.

(** Once an iteration has raised, the loop has raised. *)
Lemma for_range_r_Raise {T} (k n : nat) (body : nat → T → result T) (acc : T) (e : exn) :
  for_range_r k body acc = Raise e → k ≤ n → for_range_r n body acc = Raise e.
Proof.
  intros Hk. induction 1 as [|n Hle IH]; [done|]. cbn [for_range_r]. by rewrite IH.
Qed.

Lemma list_getitem_take {V} (l : list V) (n i : nat) :
  i < n → list_getitem (take n l) i = list_getitem l i.
Proof. intros Hi. unfold list_getitem. by rewrite lookup_take_lt. Qed.

Lemma list_getitem_IndexError {V} (l : list V) (i : nat) :
  length l ≤ i → list_getitem l i = Raise IndexError.
Proof. intros Hi. unfold list_getitem. by rewrite lookup_ge_None_2. Qed.

Section edges.
Context `{Arith A, Unbounded A, Lmfit A}.

Lemma build_components_take (self : FittingProfile A) (n : nat)
    (cList sList aList : list A) (pars : gmap string (LmParameter A)) :
  build_components self n (take n cList) (take n sList) (take n aList) pars
  = build_components self n cList sList aList pars.
Proof.
  unfold build_components. apply for_range_r_ext. intros i [gList pars'] Hi.
  by rewrite !list_getitem_take.
Qed.

(** X9.  [lin_and_multi_gaussian] reads only the first [numOfComponents]
    entries of [cList], [sList] and [aList]: whatever the lists hold
    after them changes neither what is printed and drawn nor what is
    returned or raised. *)
Theorem lin_and_multi_gaussian_first_entries (self : FittingProfile A)
    (numOfComponents : nat) (cList sList aList : list A) (lS lI : A) :
  lin_and_multi_gaussian self numOfComponents
    (take numOfComponents cList) (take numOfComponents sList)
    (take numOfComponents aList) lS lI
  = lin_and_multi_gaussian self numOfComponents cList sList aList lS lI.
Proof.
  unfold lin_and_multi_gaussian.
  destruct (set_value _ "lin_slope" lS) as [pars1|]; [|done]. rewrite !lift_Ok_bind.
  destruct (set_value _ "lin_intercept" lI) as [pars2|]; [|done]. rewrite !lift_Ok_bind.
  by rewrite build_components_take.
Qed.
End edges.

Section lawful_edges.
Context `{Arith A, Unbounded A, Lmfit A, !LmfitLaws A}.

(** The parameters of the line once [lin_slope] and [lin_intercept] are
    set. *)
Lemma linear_params_set (self : FittingProfile A) (lS lI : A) :
  ∃ ps pi,
    linear_make_params "lin_" !! "lin_slope" = Some ps
    ∧ linear_make_params "lin_" !! "lin_intercept" = Some pi
    ∧ let pars := linear_make_params "lin_" ∪ linear_guess "lin_" (flux self) (vel self) in
      let pars1 := <["lin_slope" := mkParameter lS (pmin ps) (pmax ps) (vary ps) (expr ps)]>
                     pars in
      set_value pars "lin_slope" lS = Ok pars1
      ∧ set_value pars1 "lin_intercept" lI
        = Ok (<["lin_intercept" := mkParameter lI (pmin pi) (pmax pi) (vary pi) (expr pi)]>
                pars1).
Proof.
  destruct (linear_make_params_field "lin_" "slope") as [ps Hps]; [set_solver|].
  destruct (linear_make_params_field "lin_" "intercept") as [pi Hpi]; [set_solver|].
  change ("lin_" +:+ "slope") with "lin_slope" in Hps.
  change ("lin_" +:+ "intercept") with "lin_intercept" in Hpi.
  exists ps, pi. split; [done|]. split; [done|]. cbv zeta. split.
  - apply set_value_Ok. by apply lookup_union_Some_l.
  - apply set_value_Ok. rewrite lookup_insert_ne by done. by apply lookup_union_Some_l.
Qed.

Lemma gaussian_component_unbound (self : FittingProfile A)
    (pars : gmap string (LmParameter A)) (prefix : string) (c s a : A) :
  vary_flags (zone self) (lineName self) = None →
  _gaussian_component self pars prefix c s a None None None None None None
  = Raise (UnboundLocalError "varyCentre").
Proof.
  intros Hflags. unfold _gaussian_component. rewrite Hflags.
  destruct (gaussian_make_params_field prefix "center") as (pc & Hpc & _);
    [by apply gaussian_fields_elem; left|].
  unfold subscript_set.
  rewrite (proj2 (getitem_Ok _ _ pc)) by (by apply lookup_union_Some_l). done.
Qed.

(** X10.  With a zone other than ['low'] or ['high'], a call with at
    least one component and lists that are not empty raises
    [UnboundLocalError] for [varyCentre] in [_gaussian_component]: nothing
    is fit, printed or drawn. *)
Theorem lin_and_multi_gaussian_unknown_zone (self : FittingProfile A)
    (numOfComponents : nat) (cList sList aList : list A) (lS lI : A) :
  zone self ≠ "low" → zone self ≠ "high" →
  1 ≤ numOfComponents →
  1 ≤ length cList → 1 ≤ length sList → 1 ≤ length aList →
  lin_and_multi_gaussian self numOfComponents cList sList aList lS lI
  = IO [] (Raise (UnboundLocalError "varyCentre")).
Proof.
  intros Hlow Hhigh Hn Hc Hs Ha. unfold lin_and_multi_gaussian.
  destruct (linear_params_set self lS lI) as (ps & pi & _ & _ & Hs1 & Hs2).
  rewrite Hs1, lift_Ok_bind, Hs2, lift_Ok_bind.
  assert (vary_flags (zone self) (lineName self) = None) as Hflags
    by (unfold vary_flags; by rewrite !decide_False).
  destruct (lookup_lt_is_Some_2 cList 0) as [c Hc0]; [lia|].
  destruct (lookup_lt_is_Some_2 sList 0) as [s Hs0]; [lia|].
  destruct (lookup_lt_is_Some_2 aList 0) as [a Ha0]; [lia|].
  match goal with
  | |- context [build_components self numOfComponents cList sList aList ?p] =>
      assert (build_components self numOfComponents cList sList aList p
              = Raise (UnboundLocalError "varyCentre")) as ->
  end; [|done].
  unfold build_components. apply (for_range_r_Raise 1); [|done].
  cbn [for_range_r mbind result_bind mret result_ret].
  rewrite (list_getitem_Ok _ _ _ Hc0), (list_getitem_Ok _ _ _ Hs0),
    (list_getitem_Ok _ _ _ Ha0). cbn [mbind result_bind].
  by rewrite gaussian_component_unbound.
Qed.

(** X11.  When one of the three lists has fewer than [numOfComponents]
    entries (in a zone that is known), the call raises [IndexError] while
    it builds the components: nothing is fit, printed or drawn. *)
Theorem lin_and_multi_gaussian_short_list (self : FittingProfile A)
    (numOfComponents : nat) (cList sList aList : list A) (lS lI : A) :
  zone self = "low" ∨ zone self = "high" →
  length cList < numOfComponents ∨ length sList < numOfComponents
    ∨ length aList < numOfComponents →
  lin_and_multi_gaussian self numOfComponents cList sList aList lS lI
  = IO [] (Raise IndexError).
Proof.
  intros Hzone Hshort. unfold lin_and_multi_gaussian.
  destruct (linear_params_set self lS lI) as (ps & pi & _ & _ & Hs1 & Hs2).
  rewrite Hs1, lift_Ok_bind, Hs2, lift_Ok_bind.
  assert (∃ flags, vary_flags (zone self) (lineName self) = Some flags) as [flags Hflags].
  { unfold vary_flags. destruct Hzone as [-> | ->].
    - rewrite decide_True by done. destruct (decide _); [by eexists|].
      destruct (bool_decide _); by eexists.
    - rewrite decide_False by done. rewrite decide_True by done.
      destruct (decide _); by eexists. }
  match goal with
  | |- context [build_components self numOfComponents cList sList aList ?p] =>
      assert (build_components self numOfComponents cList sList aList p
              = Raise IndexError) as ->
  end; [|done].
  set (m := length cList `min` (length sList `min` length aList)).
  match goal with
  | |- build_components _ _ _ _ _ ?p = _ =>
      destruct (build_components_Ok self m cList sList aList p flags Hflags)
        as (pars & Hbuild & _); [lia..|]
  end.
  unfold build_components in *. apply (for_range_r_Raise (S m)); [|lia].
  cbn [for_range_r]. rewrite Hbuild. cbn [mbind result_bind].
  destruct (decide (length cList ≤ m)) as [Hcm|Hcm].
  { by rewrite (list_getitem_IndexError cList). }
  destruct (lookup_lt_is_Some_2 cList m) as [c Hc]; [lia|].
  rewrite (list_getitem_Ok _ _ _ Hc). cbn [mbind result_bind].
  destruct (decide (length sList ≤ m)) as [Hsm|Hsm].
  { by rewrite (list_getitem_IndexError sList). }
  destruct (lookup_lt_is_Some_2 sList m) as [s Hs]; [lia|].
  rewrite (list_getitem_Ok _ _ _ Hs). cbn [mbind result_bind].
  rewrite (list_getitem_IndexError aList) by lia. done.
Qed.

(** X12.  With [numOfComponents = 0] there is no Gaussian to add to the
    line: the sum of the empty list is a number, lmfit refuses to add it
    to the linear model, and the call raises before anything is fit,
    printed or drawn. *)
Theorem lin_and_multi_gaussian_no_component (self : FittingProfile A)
    (cList sList aList : list A) (lS lI : A) :
  lin_and_multi_gaussian self 0 cList sList aList lS lI = IO [] (Raise LmfitError).
Proof.
  unfold lin_and_multi_gaussian.
  destruct (linear_params_set self lS lI) as (ps & pi & _ & _ & Hs1 & Hs2).
  by rewrite Hs1, lift_Ok_bind, Hs2, lift_Ok_bind.
Qed.
End lawful_edges.

Lemma lin_and_multi_gaussian_unknown_zone_witness :
  lin_and_multi_gaussian
    (FittingProfile_init [1; 2]%float [3; 4]%float 6562.5%float "H-Alpha" "medium" None)
    2 [1; 2]%float [3; 4]%float [5; 6]%float 0%float 1%float
  = IO [] (Raise (UnboundLocalError "varyCentre")).
Proof.
  apply lin_and_multi_gaussian_unknown_zone; [discriminate | discriminate | | | |];
    simpl; lia.
Defined.

Lemma lin_and_multi_gaussian_short_list_witness :
  lin_and_multi_gaussian
    (FittingProfile_init [1; 2]%float [3; 4]%float 6562.5%float "H-Alpha" "low" None)
    3 [1; 2; 3]%float [3; 4]%float [5; 6; 7]%float 0%float 1%float
  = IO [] (Raise IndexError).
Proof.
  apply lin_and_multi_gaussian_short_list; [left; reflexivity | right; left; simpl; lia].
Defined.

Lemma lin_and_multi_gaussian_no_component_witness :
  lin_and_multi_gaussian
    (FittingProfile_init [1; 2]%float [3; 4]%float 6562.5%float "H-Alpha" "low" None)
    0 [] [] [] 0%float 1%float
  = IO [] (Raise LmfitError).
Proof. apply lin_and_multi_gaussian_no_component. Defined.

(** ** What a fit receives, prints and draws *)

Lemma vary_flags_amplitude (zone lineName : string) (flags : bool * bool * bool) :
  vary_flags zone lineName = Some flags → flags.2 = true.
Proof.
  unfold vary_flags. repeat case_decide; repeat case_bool_decide; by intros [= <-].
Qed.

Lemma vary_flags_known (zone lineName : string) :
  zone = "low" ∨ zone = "high" → ∃ flags, vary_flags zone lineName = Some flags.
Proof.
  unfold vary_flags. intros [-> | ->].
  - rewrite decide_True by done. destruct (decide _); [by eexists|].
    destruct (bool_decide _); by eexists.
  - rewrite decide_False by done. rewrite decide_True by done.
    destruct (decide _); by eexists.
Qed.

Lemma lin_key_not_component (field key : string) (i : nat) :
  "lin_" +:+ field ≠ g_prefix i +:+ key.
Proof. unfold g_prefix. rewrite !string_app_cons. discriminate. Qed.

Section seeds.
Context `{Arith A, Unbounded A, Lmfit A, !LmfitLaws A}.

(** The components leave every parameter that is not theirs as it was. *)
Lemma build_components_frame (self : FittingProfile A) (n : nat)
    (cList sList aList : list A) (pars pars' : gmap string (LmParameter A))
    (gList : list string) (flags : bool * bool * bool) (key : string) :
  vary_flags (zone self) (lineName self) = Some flags →
  build_components self n cList sList aList pars = Ok (gList, pars') →
  (∀ i field, key ≠ g_prefix i +:+ field) →
  pars' !! key = pars !! key.
Proof.
  intros Hflags Hbuild Hkey. unfold build_components in Hbuild.
  revert gList pars' Hbuild. induction n as [|n IH]; intros gList pars' Hbuild.
  - by injection Hbuild as _ <-.
  - cbn [for_range_r] in Hbuild.
    destruct (for_range_r n _ _) as [[gList0 pars0]|]; [|done].
    cbn [mbind result_bind] in Hbuild.
    destruct (list_getitem cList n) as [c|]; [|done].
    destruct (list_getitem sList n) as [s|]; [|done].
    destruct (list_getitem aList n) as [a|]; [|done].
    cbn [mbind result_bind] in Hbuild.
    rewrite (gaussian_component_Ok _ _ _ _ _ _ _ Hflags) in Hbuild.
    cbn [mbind result_bind mret result_ret] in Hbuild. injection Hbuild as _ <-.
    rewrite component_params_other by done. by apply (IH gList0).
Qed.

(** X13.  The parameters a fit starts from.  In a known zone, with at
    least one component and lists that are long enough, the call returns;
    lmfit is handed [lin_slope = lS] and [lin_intercept = lI] with the
    bounds and the vary-flag of [make_params] (what [guess] estimated is
    overwritten), and every amplitude starts at its entry of [aList],
    free and unbounded. *)
Theorem lin_and_multi_gaussian_seeds (self : FittingProfile A) (numOfComponents : nat)
    (cList sList aList : list A) (lS lI : A) :
  zone self = "low" ∨ zone self = "high" →
  1 ≤ numOfComponents →
  numOfComponents ≤ length cList → numOfComponents ≤ length sList →
  numOfComponents ≤ length aList →
  ∃ self' out ps pi,
    let pars := linGaussParams self' in
    outcome (lin_and_multi_gaussian self numOfComponents cList sList aList lS lI)
      = Ok (self', (out, components out))
    ∧ out = model_fit ("lin_" :: (g_prefix <$> seq 0 numOfComponents)) (flux self) pars
              (vel self) (weights self)
    ∧ linear_make_params "lin_" !! "lin_slope" = Some ps
    ∧ linear_make_params "lin_" !! "lin_intercept" = Some pi
    ∧ pars !! "lin_slope" = Some (mkParameter lS (pmin ps) (pmax ps) (vary ps) (expr ps))
    ∧ pars !! "lin_intercept"
      = Some (mkParameter lI (pmin pi) (pmax pi) (vary pi) (expr pi))
    ∧ ∀ i a, i < numOfComponents → aList !! i = Some a →
        pars !! g_key i "amplitude" = Some (mkParameter a (opp inf) inf true None).
Proof.
  intros Hzone Hn Hc Hs Ha.
  destruct (vary_flags_known _ (lineName self) Hzone) as [flags Hflags].
  destruct (fit_outcome_Ok self numOfComponents cList sList aList lS lI flags Hflags
              Hn Hc Hs Ha) as (pars & Hout & Hseeded).
  destruct (linear_params_set self lS lI) as (ps & pi & Hps & Hpi & Hs1 & Hs2).
  eexists _, _, ps, pi. cbv zeta. rewrite lin_and_multi_gaussian_outcome.
  split; [exact Hout|]. cbn [linGaussParams]. split; [done|].
  split; [done|]. split; [done|].
  assert (∃ gList, build_components self numOfComponents cList sList aList
            (<["lin_intercept" := mkParameter lI (pmin pi) (pmax pi) (vary pi) (expr pi)]>
               (<["lin_slope" := mkParameter lS (pmin ps) (pmax ps) (vary ps) (expr ps)]>
                  (linear_make_params "lin_"
                   ∪ linear_guess "lin_" (flux self) (vel self))))
          = Ok (gList, pars)) as [gList Hbuild].
  { unfold fit_outcome in Hout. cbv zeta in Hs1, Hs2. rewrite Hs1 in Hout.
    cbn [mbind result_bind] in Hout. rewrite Hs2 in Hout.
    cbn [mbind result_bind] in Hout.
    destruct (build_components _ _ _ _ _ _) as [[gList pars']|]; [|done].
    cbn [mbind result_bind] in Hout. exists gList.
    destruct (compose _ _); [|done]. cbn [mbind result_bind] in Hout.
    destruct (for_range_r _ _ _); [|done]. cbn [mbind result_bind] in Hout.
    destruct (getitem _ _); [|done]. cbn [mbind result_bind] in Hout.
    destruct (amplitude_total _ _); [|done].
    cbn [mbind result_bind mret result_ret] in Hout. by injection Hout as ->. }
  split; [|split].
  - rewrite (build_components_frame _ _ _ _ _ _ _ _ _ _ Hflags Hbuild)
      by (intros i field; apply (lin_key_not_component "slope")).
    rewrite lookup_insert_ne by done. by rewrite lookup_insert_eq.
  - rewrite (build_components_frame _ _ _ _ _ _ _ _ _ _ Hflags Hbuild)
      by (intros i field; apply (lin_key_not_component "intercept")).
    by rewrite lookup_insert_eq.
  - intros i a Hi Hai.
    destruct (lookup_lt_is_Some_2 cList i) as [c Hci]; [lia|].
    destruct (lookup_lt_is_Some_2 sList i) as [s Hsi]; [lia|].
    destruct (Hseeded i c s a Hi Hci Hsi Hai) as (_ & _ & Hamp).
    by rewrite g_key_prefix, Hamp, (vary_flags_amplitude _ _ _ Hflags).
Qed.
End seeds.

Lemma lin_and_multi_gaussian_seeds_witness :
  ∃ self' out,
    outcome (lin_and_multi_gaussian
               (FittingProfile_init [1; 2]%float [3; 4]%float 6562.5%float
                  "H-Beta" "low" None)
               2 [1; 2]%float [3; 4]%float [5; 6]%float 0.5%float 8%float)
      = Ok (self', (out, components out))
    ∧ value <$> linGaussParams self' !! "lin_slope" = Some 0.5%float
    ∧ value <$> linGaussParams self' !! "lin_intercept" = Some 8%float
    ∧ linGaussParams self' !! "g2_amplitude"
      = Some (mkParameter 6%float PrimFloat.neg_infinity PrimFloat.infinity true None).
Proof.
  destruct (lin_and_multi_gaussian_seeds
              (FittingProfile_init [1; 2]%float [3; 4]%float 6562.5%float
                 "H-Beta" "low" None)
              2 [1; 2]%float [3; 4]%float [5; 6]%float 0.5%float 8%float)
    as (self' & out & ps & pi & Hout & _ & _ & _ & Hslope & Hint & Hamp);
    [left; reflexivity | simpl; lia..|].
  exists self', out. split; [exact Hout|].
  split; [by rewrite Hslope|]. split; [by rewrite Hint|].
  exact (Hamp 1 6%float ltac:(lia) eq_refl).
Defined.

Lemma plot_loop {A} (n : nat) (comps : gmap string (list A)) (x : list A) :
  (∀ i, i < n → is_Some (comps !! g_prefix i)) →
  ∃ gs,
    length gs = n
    ∧ (∀ i comp, gs !! i = Some comp → comps !! g_prefix i = Some comp)
    ∧ for_range n (λ i _,
          comp ← lift (getitem comps (g_prefix i));
          emit (Plot x comp (g_prefix i))) ()
      = IO (imap (λ i comp, Plot x comp (g_prefix i)) gs) (Ok ()).
Proof.
  induction n as [|n IH]; intros Hcomps.
  - exists []. split; [done|]. split; [|done]. intros i comp Hi. done.
  - destruct IH as (gs & Hlen & Hgs & Hloop); [intros; apply Hcomps; lia|].
    destruct (Hcomps n) as [comp Hcomp]; [lia|].
    exists (gs ++ [comp]). split; [rewrite length_app; simpl; lia|]. split.
    + intros i c [Hi | [Hle Hi]]%lookup_app_Some; [by apply Hgs|].
      destruct (i - length gs) as [|j] eqn:Hj; [|done].
      injection Hi as <-. by replace i with n by lia.
    + cbn [for_range]. rewrite Hloop. cbn [mbind io_bind outcome output].
      rewrite (proj2 (getitem_Ok _ _ comp) Hcomp).
      cbn [lift emit outcome output app].
      rewrite imap_app. cbn [imap]. by rewrite Hlen, Nat.add_0_r.
Qed.

Section output.
Context `{Arith A, Unbounded A, Lmfit A, !LmfitLaws A}.

(** X14.  What a fit prints and draws.  In a known zone, with at least one
    component and lists that are long enough, the call prints the header
    and lmfit's report, opens one figure, draws the data, each Gaussian in
    turn under its prefix, the line, the combined best fit and the initial
    model, saves the figure under ['Figures/'] with the figure's name as
    file name, and then prints the two amplitude lines; it returns the fit
    result with its components. *)
Theorem lin_and_multi_gaussian_output (self : FittingProfile A) (numOfComponents : nat)
    (cList sList aList : list A) (lS lI : A) :
  zone self = "low" ∨ zone self = "high" →
  1 ≤ numOfComponents →
  numOfComponents ≤ length cList → numOfComponents ≤ length sList →
  numOfComponents ≤ length aList →
  ∃ self' out gs lin_comp total,
    let title := model_title self numOfComponents in
    let init := model_eval ("lin_" :: (g_prefix <$> seq 0 numOfComponents))
                  (linGaussParams self') (vel self) in
    lin_and_multi_gaussian self numOfComponents cList sList aList lS lI
    = IO ([Print "######## %s Linear and Multi-gaussian Model ##########"
             [AStr (lineName self)];
           Print "%s" [AStr (fit_report out)];
           Figure title;
           Plot (vel self) (flux self) "Original"]
          ++ imap (λ i comp, Plot (vel self) comp (g_prefix i)) gs
          ++ [Plot (vel self) lin_comp "lin_";
              Plot (vel self) (best_fit out) "Combined";
              Plot (vel self) init "init";
              Legend;
              Savefig ("Figures/" +:+ title);
              Print "Amplitude Total is %f" [ANum total];
              Print "Amplitude Final is %f"
                [ANum ((total / SpOfLi) * restWave self)%num]])
         (Ok (self', (out, components out)))
    ∧ out = model_fit ("lin_" :: (g_prefix <$> seq 0 numOfComponents)) (flux self)
              (linGaussParams self') (vel self) (weights self)
    ∧ length gs = numOfComponents
    ∧ (∀ i comp, gs !! i = Some comp → components out !! g_prefix i = Some comp)
    ∧ components out !! "lin_" = Some lin_comp
    ∧ amplitude_total numOfComponents out = Ok total.
Proof.
  intros Hzone Hn Hc Hs Ha.
  destruct (vary_flags_known _ (lineName self) Hzone) as [flags Hflags].
  destruct (linear_params_set self lS lI) as (ps & pi & _ & _ & Hs1 & Hs2).
  cbv zeta in Hs1, Hs2.
  match type of Hs2 with
  | _ = Ok ?p =>
      destruct (build_components_Ok self numOfComponents cList sList aList p flags
                  Hflags Hc Hs Ha) as (pars & Hbuild & Hseeded)
  end.
  set (model := "lin_" :: (g_prefix <$> seq 0 numOfComponents)).
  set (out := model_fit model (flux self) pars (vel self) (weights self)).
  assert (∀ i, i < numOfComponents → g_prefix i ∈ model) as Hmodel.
  { intros i Hi. apply elem_of_cons. right. apply list_elem_of_fmap.
    exists i. split; [done|]. apply elem_of_seq. lia. }
  destruct (plot_loop numOfComponents (components out) (vel self))
    as (gs & Hlen & Hgs & Hloop).
  { intros i Hi. apply model_fit_components. by apply Hmodel. }
  destruct (model_fit_components model (flux self) pars (vel self) (weights self) "lin_")
    as [lin_comp Hlin]; [by left|].
  destruct (amplitude_total_returns numOfComponents out) as [total Htotal].
  { intros i Hi. rewrite g_key_prefix.
    destruct (lookup_lt_is_Some_2 cList i) as [c Hci]; [lia|].
    destruct (lookup_lt_is_Some_2 sList i) as [s Hsi]; [lia|].
    destruct (lookup_lt_is_Some_2 aList i) as [a Hai]; [lia|].
    destruct (Hseeded i c s a Hi Hci Hsi Hai) as (_ & _ & Hamp).
    destruct (model_fit_best_values model (flux self) pars (vel self) (weights self)
                (g_prefix i) "amplitude" _ (Hmodel i Hi)
                (gaussian_fields_elem "amplitude" ltac:(tauto)) Hamp) as (b & Hb & _).
    by eexists. }
  eexists (mkFittingProfile (vel self) (flux self) (fluxError self) (restWave self)
             (lineName self) (zone self) (weights self) pars), out, gs, lin_comp, total.
  cbv zeta. cbn [linGaussParams]. split; [|done].
  unfold lin_and_multi_gaussian.
  rewrite Hs1, lift_Ok_bind, Hs2, lift_Ok_bind, Hbuild, lift_Ok_bind.
  cbv beta iota.
  assert (compose "lin_" (g_prefix <$> seq 0 numOfComponents) = Ok model) as ->.
  { destruct numOfComponents; [lia|]. done. }
  rewrite lift_Ok_bind. cbv zeta. cbn [vel flux weights lineName restWave].
  fold model out.
  assert (getitem (components out) "lin_" = Ok lin_comp) as Hlin' by (by apply getitem_Ok).
  rewrite Hloop, Hlin'.
  rewrite (get_amplitude_IO _ _ _ _ Htotal).
  cbv zeta. unfold model_title.
  cbn [mbind io_bind mret io_ret emit lift outcome output app vel flux weights lineName
         restWave].
  done.
Qed.
End output.

Lemma lin_and_multi_gaussian_output_witness :
  let self := FittingProfile_init [1; 2]%float [3; 4]%float 6562.5%float
                "H-Beta" "low" None in
  ∃ (out : ModelResult float) (gs : list (list float)),
    output (lin_and_multi_gaussian self 2 [1; 2]%float [3; 4]%float [5; 6]%float
              0.5%float 8%float) !! 2
      = Some (Figure "H-Beta 2 Component Linear-Gaussian Model")
    ∧ length gs = 2
    ∧ ∀ i comp, gs !! i = Some comp → components out !! g_prefix i = Some comp.
Proof.
  intros self.
  destruct (lin_and_multi_gaussian_output self
              2 [1; 2]%float [3; 4]%float [5; 6]%float 0.5%float 8%float)
    as (self' & out & gs & lin_comp & total & Hio & _ & Hlen & Hgs & _);
    [left; reflexivity | simpl; lia..|].
  exists out, gs. split; [by rewrite Hio|]. split; [exact Hlen | exact Hgs].
Defined.

(** ** Amplitudes that are missing *)

Section missing_amplitude.
Context `{Arith A}.

(** X15.  When the fit result has no best value for the amplitude of
    component [k + 1] (and has one for each component before it),
    [_get_amplitude] raises [KeyError] for that key and prints neither of
    its two lines. *)
Theorem get_amplitude_KeyError (self : FittingProfile A) (numOfComponents k : nat)
    (modelFit : ModelResult A) :
  k < numOfComponents →
  (∀ i, i < k → is_Some (best_values modelFit !! g_key i "amplitude")) →
  best_values modelFit !! g_key k "amplitude" = None →
  _get_amplitude self numOfComponents modelFit
  = IO [] (Raise (KeyError (g_key k "amplitude"))).
Proof.
  intros Hk Hbefore Hnone. unfold _get_amplitude.
  destruct (amplitude_total_returns k modelFit Hbefore) as [total Htotal].
  pose proof (amplitude_loop_silent k modelFit total Htotal) as Hloop.
  match goal with
  | |- for_range numOfComponents ?body ?acc ≫= _ = _ =>
      assert (for_range numOfComponents body acc
              = IO [] (Raise (KeyError (g_key k "amplitude")))) as ->; [|done]
  end.
  induction Hk as [|n Hle IH].
  - cbn [for_range]. rewrite Hloop. unfold getitem. by rewrite Hnone.
  - cbn [for_range]. by rewrite IH.
Qed.
End missing_amplitude.

Lemma get_amplitude_KeyError_witness :
  _get_amplitude (FittingProfile_init [] [] 6562.5%float "H-Alpha" "low" None) 3
    (mkModelResult (<["g1_amplitude" := 2%float]> ∅) [] ∅ ∅ "")
  = IO [] (Raise (KeyError "g2_amplitude")).
Proof.
  apply (get_amplitude_KeyError _ 3 1); [lia | | reflexivity].
  intros [|i] Hi; [by eexists | lia].
Defined.

(** ** The loop over the catalog *)

Lemma emProfiles_names_items `{Arith A} : (emProfiles_items (A:=A)).*1 = emProfiles_names.
Proof. reflexivity. Qed.

Section loop_steps.
Context `{Arith A, Unbounded A, Lmfit A, !LmfitLaws A}.
Variable mask :
  Z → string → Z → Z → result (list A * list A * option (list A) * option (list A)).

Lemma best_list_length (model : ModelResult A) (field : string) (l : list A) :
  best_list model field = Ok l → length l = numComps.
Proof.
  unfold best_list, numComps. cbn [for_range_r mbind result_bind mret result_ret].
  intros Hl.
  destruct (getitem _ (g_key 0 field)); [|done].
  destruct (getitem _ (g_key 1 field)); [|done].
  destruct (getitem _ (g_key 2 field)); [|done].
  cbn [mbind result_bind mret result_ret] in Hl. by injection Hl as <-.
Qed.

(** The fit of a reference line changes the catalog at that line only. *)
Lemma fit_reference_exact (fp : FittingProfile A) (emProfiles : gmap string (EmInfo A))
    (emName : string) (emInfo : EmInfo A) (seedC seedS : list A) (lS lI : A)
    (flags : bool * bool * bool) :
  vary_flags (zone fp) (lineName fp) = Some flags →
  emProfiles !! emName = Some emInfo →
  numComps ≤ length seedC → numComps ≤ length seedS →
  numComps ≤ length (emAmpList emInfo) →
  ∃ model comps centers sigmas,
    outcome (fit_reference fp emProfiles emName emInfo seedC seedS lS lI)
      = Ok (<[emName := set_sigmaList sigmas (set_centerList centers emInfo)]> emProfiles,
            model, comps)
    ∧ length centers = numComps ∧ length sigmas = numComps.
Proof.
  intros Hflags Hem Hc Hs Ha. unfold fit_reference.
  destruct (fit_seeded fp seedC seedS (emAmpList emInfo) lS lI _ Hflags Hc Hs Ha)
    as (pars & fp' & Hout & Hprops).
  rewrite outcome_bind, Hout. cbn [mbind result_bind].
  rewrite outcome_lift, (set_field_Ok _ _ _ _ Hem). cbn [mbind result_bind].
  rewrite outcome_lift, (set_field_Ok _ _ _ (set_centerList [] emInfo))
    by apply lookup_insert_eq.
  cbn [mbind result_bind].
  destruct (fitted_lists_Ok (model_fit ("lin_" :: (g_prefix <$> seq 0 numComps))
                               (flux fp) pars (vel fp) (weights fp)))
    as (cl & sl & Hloop & Hlc & Hls & _).
  { intros i Hi. destruct (Hprops i Hi) as (_ & _ & _ & _ & ? & ? & _). done. }
  rewrite outcome_lift, Hloop. cbn [mbind result_bind].
  rewrite outcome_lift,
    (set_field_Ok _ _ _ (set_sigmaList [] (set_centerList [] emInfo)))
    by apply lookup_insert_eq.
  cbn [mbind result_bind].
  rewrite outcome_lift,
    (set_field_Ok _ _ _ (set_centerList cl (set_sigmaList [] (set_centerList [] emInfo))))
    by apply lookup_insert_eq.
  cbn [mbind result_bind outcome mret io_ret].
  eexists _, _, cl, sl. rewrite !insert_insert_eq. done.
Qed.

(** One iteration on a line whose sources are on record. *)
Lemma iteration_step (st : script_state A) (emName : string) (emInfo : EmInfo A)
    (window : list A * list A * option (list A) * option (list A))
    (centers sigmas : list A) :
  let z := emZone emInfo in
  emProfiles st !! emName = Some emInfo →
  z = "low" ∨ z = "high" →
  mask (emOrder emInfo) (emFilter emInfo) (emMinI emInfo) (emMaxI emInfo) = Ok window →
  numComps ≤ length (emAmpList emInfo) →
  (emName ≠ spec_reference z →
     (emCenterList <$> emProfiles st !! spec_reference z) = Some (Some centers)
     ∧ (emSigmaList <$> emProfiles st !! spec_sigma_source z emName) = Some (Some sigmas)
     ∧ length centers = numComps ∧ length sigmas = numComps) →
  ∃ model cl sl row,
    outcome (iteration mask st emName)
      = Ok (mkState
              (<[emName := set_sigmaList sl (set_centerList cl emInfo)]> (emProfiles st))
              (if decide (z = "low") then lowZoneProfiles st ++ [row]
               else lowZoneProfiles st)
              (if decide (z = "low") then highZoneProfiles st
               else highZoneProfiles st ++ [row]),
            Some model)
    ∧ zpName _ row = emName
    ∧ length cl = numComps ∧ length sl = numComps
    ∧ (emName ≠ spec_reference z → cl = centers)
    ∧ (emName ≠ spec_reference z → sigma_free z emName = false → sl = sigmas).
Proof.
  intros z Hem Hzone Hmask Ha Hsources.
  destruct window as [[[wave1 flux1] wave1Error] flux1Error].
  unfold iteration.
  rewrite outcome_lift, (proj2 (getitem_Ok _ _ _) Hem). cbn [mbind result_bind].
  rewrite outcome_emit, outcome_lift, Hmask. cbn [mbind result_bind].
  set (fp := FittingProfile_init _ _ _ _ _ _).
  unfold sigma_free, spec_reference, spec_sigma_source in *. fold z.
  destruct Hzone as [Hlow | Hhigh].
  - rewrite Hlow in *. rewrite !(decide_True (P := "low" = "low")) in * by done.
    rewrite outcome_bind.
    destruct (decide (emName = "H-Alpha")) as [Href | Hnref].
    + assert (vary_flags (zone fp) (lineName fp) = Some (true, true, true)) as Hflags.
      { unfold vary_flags. cbn [zone lineName fp FittingProfile_init]. fold z.
        rewrite Hlow. rewrite decide_True by done. by rewrite decide_True. }
      destruct (fit_reference_exact fp (emProfiles st) emName emInfo
                  centerListLowZone sigmaListLowZone linSlopeLowZone linIntLowZone
                  _ Hflags Hem) as (model & comps & cl & sl & Hout & Hlc & Hls);
        [done..|].
      rewrite Hout. cbn [mbind result_bind outcome mret io_ret].
      eexists model, cl, sl, _. split; [reflexivity|]. done.
    + destruct (Hsources Hnref) as (Hcenters & Hsigmas & Hlc & Hls).
      apply fmap_Some in Hcenters as (ref & Href & Hcenters).
      apply fmap_Some in Hsigmas as (src & Hsrc & Hsigmas).
      symmetry in Hcenters, Hsigmas.
      destruct (bool_decide (emName ∈ ["NII-6584A"; "SII-6717A"; "OII-3729A"]))
        eqn:Hsemi.
      * pose proof (bool_decide_eq_true_1 _ Hsemi) as Hsemi'.
        assert (src = ref) as ->.
        { rewrite !elem_of_cons, elem_of_nil in Hsemi'.
          destruct Hsemi' as [->|[->|[->|[]]]]; simpl in Hsrc; congruence. }
        assert (vary_flags (zone fp) (lineName fp) = Some (false, true, true))
          as Hflags.
        { unfold vary_flags. cbn [zone lineName fp FittingProfile_init].
          fold z. rewrite Hlow. rewrite decide_True by done.
          rewrite decide_False by done. by rewrite Hsemi. }
        destruct (fit_seeded fp centers sigmas (emAmpList emInfo)
                    linSlopeLowZone linIntLowZone _ Hflags) as (pars & fp' & Hout & Hprops);
          [lia..|done|].
        rewrite outcome_lift, (get_field_Ok _ _ _ _ _ _ Href Hcenters).
        cbn [mbind result_bind].
        rewrite outcome_lift, (set_field_Ok _ _ _ _ Hem). cbn [mbind result_bind].
        assert (<[emName:=set_centerList centers emInfo]> (emProfiles st) !! "H-Alpha"
                = Some ref) as Href' by (by rewrite lookup_insert_ne).
        rewrite outcome_lift, (get_field_Ok _ _ _ _ _ _ Href' Hcenters).
        cbn [mbind result_bind].
        rewrite outcome_lift, (get_field_Ok _ _ _ _ _ _ Href' Hsigmas).
        cbn [mbind result_bind].
        rewrite outcome_bind, Hout. cbn [mbind result_bind].
        rewrite outcome_lift, (set_field_Ok _ _ _ (set_centerList centers emInfo))
          by apply lookup_insert_eq.
        cbn [mbind result_bind].
        destruct (best_list_Ok (model_fit ("lin_" :: (g_prefix <$> seq 0 numComps))
                                  (flux fp) pars (vel fp) (weights fp)) "sigma")
          as [fitted Hfitted]; [intros i Hi; apply (Hprops i Hi)|].
        rewrite outcome_lift, Hfitted. cbn [mbind result_bind].
        rewrite outcome_lift,
          (set_field_Ok _ _ _ (set_sigmaList [] (set_centerList centers emInfo)))
          by apply lookup_insert_eq.
        cbn [mbind result_bind outcome mret io_ret].
        eexists _, centers, fitted, _. rewrite !insert_insert_eq.
        split; [reflexivity|]. split; [done|]. split; [done|].
        split; [by apply best_list_length in Hfitted|]. split; [done|].
        intros _ Hfree. apply bool_decide_eq_false_1 in Hfree.
        destruct Hfree. done.
      * set (sibling := if decide (emName = "NII-6548A") then "NII-6584A"
                        else if decide (emName = "SII-6731A") then "SII-6717A"
                        else if decide (emName = "OII-3726A") then "OII-3729A"
                        else "H-Alpha") in *.
        pose proof (bool_decide_eq_false_1 _ Hsemi) as Hsemi'.
        assert (emName ≠ sibling) as Hsib.
        { rewrite !elem_of_cons, elem_of_nil in Hsemi'. subst sibling.
          repeat case_decide; subst; try done; intros ->; tauto. }
        assert (vary_flags (zone fp) (lineName fp) = Some (false, false, true))
          as Hflags.
        { unfold vary_flags. cbn [zone lineName fp FittingProfile_init].
          fold z. rewrite Hlow. rewrite decide_True by done.
          rewrite decide_False by done. by rewrite Hsemi. }
        destruct (fit_seeded fp centers sigmas (emAmpList emInfo)
                    linSlopeLowZone linIntLowZone _ Hflags) as (pars & fp' & Hout & Hprops);
          [lia..|done|].
        rewrite outcome_lift, (get_field_Ok _ _ _ _ _ _ Href Hcenters).
        cbn [mbind result_bind].
        rewrite outcome_lift, (set_field_Ok _ _ _ _ Hem). cbn [mbind result_bind].
        assert (<[emName:=set_centerList centers emInfo]> (emProfiles st) !! sibling
                = Some src) as Hsrc' by (by rewrite lookup_insert_ne).
        rewrite outcome_lift, (get_field_Ok _ _ _ _ _ _ Hsrc' Hsigmas).
        cbn [mbind result_bind].
        rewrite outcome_lift, (set_field_Ok _ _ _ (set_centerList centers emInfo))
          by apply lookup_insert_eq.
        cbn [mbind result_bind].
        rewrite outcome_lift,
          (get_field_Ok _ emName "centerList" emCenterList
             (set_sigmaList sigmas (set_centerList centers emInfo)) centers);
          [|apply lookup_insert_eq|reflexivity].
        cbn [mbind result_bind].
        rewrite outcome_lift,
          (get_field_Ok _ emName "sigmaList" emSigmaList
             (set_sigmaList sigmas (set_centerList centers emInfo)) sigmas);
          [|apply lookup_insert_eq|reflexivity].
        cbn [mbind result_bind].
        rewrite outcome_bind, Hout.
        cbn [mbind result_bind outcome mret io_ret].
        eexists _, centers, sigmas, _. rewrite !insert_insert_eq.
        split; [reflexivity|]. done.
  - rewrite Hhigh in *. rewrite !(decide_False (P := "high" = "low")) in * by done.
    rewrite decide_True by done. rewrite outcome_bind.
    destruct (decide (emName = "OIII-5007A")) as [Href | Hnref].
    + assert (vary_flags (zone fp) (lineName fp) = Some (true, true, true)) as Hflags.
      { unfold vary_flags. cbn [zone lineName fp FittingProfile_init]. fold z.
        rewrite Hhigh. rewrite decide_False by done. rewrite decide_True by done.
        by rewrite decide_True. }
      destruct (fit_reference_exact fp (emProfiles st) emName emInfo
                  centerListHighZone sigmaListHighZone linSlopeHighZone linIntHighZone
                  _ Hflags Hem) as (model & comps & cl & sl & Hout & Hlc & Hls);
        [done..|].
      rewrite Hout. cbn [mbind result_bind outcome mret io_ret].
      eexists model, cl, sl, _. split; [reflexivity|]. done.
    + destruct (Hsources Hnref) as (Hcenters & Hsigmas & Hlc & Hls).
      apply fmap_Some in Hcenters as (ref & Href & Hcenters).
      apply fmap_Some in Hsigmas as (src & Hsrc & Hsigmas).
      symmetry in Hcenters, Hsigmas.
      assert (src = ref) as -> by congruence.
      assert (vary_flags (zone fp) (lineName fp) = Some (false, false, true))
        as Hflags.
      { unfold vary_flags. cbn [zone lineName fp FittingProfile_init].
        fold z. rewrite Hhigh. rewrite decide_False by done.
        rewrite decide_True by done. by rewrite decide_False. }
      destruct (fit_seeded fp centers sigmas (emAmpList emInfo)
                  linSlopeHighZone linIntHighZone _ Hflags) as (pars & fp' & Hout & Hprops);
        [lia..|done|].
      rewrite outcome_lift, (get_field_Ok _ _ _ _ _ _ Href Hcenters).
      cbn [mbind result_bind].
      rewrite outcome_lift, (set_field_Ok _ _ _ _ Hem). cbn [mbind result_bind].
      assert (<[emName:=set_centerList centers emInfo]> (emProfiles st) !! "OIII-5007A"
              = Some ref) as Href' by (by rewrite lookup_insert_ne).
      rewrite outcome_lift, (get_field_Ok _ _ _ _ _ _ Href' Hsigmas).
      cbn [mbind result_bind].
      rewrite outcome_lift, (set_field_Ok _ _ _ (set_centerList centers emInfo))
        by apply lookup_insert_eq.
      cbn [mbind result_bind].
      rewrite outcome_lift,
        (get_field_Ok _ emName "centerList" emCenterList
           (set_sigmaList sigmas (set_centerList centers emInfo)) centers);
        [|apply lookup_insert_eq|reflexivity].
      cbn [mbind result_bind].
      rewrite outcome_lift,
        (get_field_Ok _ emName "sigmaList" emSigmaList
           (set_sigmaList sigmas (set_centerList centers emInfo)) sigmas);
        [|apply lookup_insert_eq|reflexivity].
      cbn [mbind result_bind].
      rewrite outcome_bind, Hout.
      cbn [mbind result_bind outcome mret io_ret].
      eexists _, centers, sigmas, _. rewrite !insert_insert_eq.
      split; [reflexivity|]. done.
Qed.
End loop_steps.

Lemma line_done_mono {A} (m0 m : gmap string (EmInfo A)) (done done' : list string)
    (name : string) :
  (∀ x, x ∈ done → x ∈ done') → line_done m0 m done name → line_done m0 m done' name.
Proof.
  intros Hsub (emInfo & cl & sl & H0 & Hm & Hlc & Hls & Hinh).
  exists emInfo, cl, sl. do 4 (split; [done|]).
  intros Hne. destruct (Hinh Hne) as (? & ? & ? & ?). auto.
Qed.

Lemma line_done_step {A} (m0 m : gmap string (EmInfo A)) (done : list string)
    (k name : string) (v : EmInfo A) :
  name ∈ done → k ∉ done → line_done m0 m done name →
  line_done m0 (<[k := v]> m) (k :: done) name.
Proof.
  intros Hname Hk (emInfo & cl & sl & H0 & Hm & Hlc & Hls & Hinh).
  exists emInfo, cl, sl. split; [done|].
  split; [rewrite lookup_insert_ne; [done | by intros ->]|].
  do 2 (split; [done|]).
  intros Hne. destruct (Hinh Hne) as (Hr & Hs & Hc & Hsig).
  split; [by apply elem_of_cons; right|]. split; [by apply elem_of_cons; right|].
  split; [rewrite lookup_insert_ne; [done | by intros ->]|].
  intros Hfree. rewrite lookup_insert_ne; [by apply Hsig | by intros ->].
Qed.

Section loop_invariant.
Context `{Arith A, Unbounded A, Lmfit A, !LmfitLaws A}.
Variable mask :
  Z → string → Z → Z → result (list A * list A * option (list A) * option (list A)).

(** The loop over names in an order it can process, from a state in which
    the lines of [done] have been processed: it returns, and every line is
    left as [line_done] says. *)
Lemma main_loop_invariant (st0 : script_state A) (names : list string) :
  ∀ (done : list string) (st : script_state A),
    ordered_catalog (emProfiles st0) done names = true →
    (∀ name, name ∉ done → emProfiles st !! name = emProfiles st0 !! name) →
    (∀ name, name ∈ done → line_done (emProfiles st0) (emProfiles st) done name) →
    (∀ emName emInfo, emName ∈ names → emProfiles st0 !! emName = Some emInfo →
       ∃ window, mask (emOrder emInfo) (emFilter emInfo) (emMinI emInfo) (emMaxI emInfo)
                 = Ok window) →
    ∃ st',
      outcome (main_loop mask names st) = Ok st'
      ∧ (∀ name, name ∉ names → name ∉ done →
           emProfiles st' !! name = emProfiles st0 !! name)
      ∧ (∀ name, name ∈ names ∨ name ∈ done →
           line_done (emProfiles st0) (emProfiles st') (names ++ done) name)
      ∧ zpName _ <$> lowZoneProfiles st'
        = (zpName _ <$> lowZoneProfiles st)
          ++ filter (λ name, emZone <$> emProfiles st0 !! name = Some "low") names
      ∧ zpName _ <$> highZoneProfiles st'
        = (zpName _ <$> highZoneProfiles st)
          ++ filter (λ name, emZone <$> emProfiles st0 !! name = Some "high") names.
Proof.
  induction names as [|emName names IH]; intros done st Hord Hframe Hdone Hmask.
  - exists st. split; [done|]. split; [auto|]. split.
    + intros name [Hin | Hin]; [by apply elem_of_nil in Hin | by apply Hdone].
    + by rewrite !filter_nil, !app_nil_r.
  - cbn [ordered_catalog] in Hord.
    destruct (emProfiles st0 !! emName) as [emInfo|] eqn:Hem0; [|done].
    apply andb_prop in Hord as [Hord Hrest].
    apply andb_prop in Hord as [Hord Hsrcs].
    apply andb_prop in Hord as [Hord Hnotin].
    apply andb_prop in Hord as [Hzone Hamp].
    apply bool_decide_eq_true_1 in Hzone, Hamp, Hnotin.
    assert (emProfiles st !! emName = Some emInfo) as Hem by (by rewrite Hframe).
    destruct (Hmask emName emInfo) as [window Hwindow]; [by left | done |].
    assert (∃ centers sigmas,
              emName ≠ spec_reference (emZone emInfo) →
              spec_reference (emZone emInfo) ∈ done
              ∧ spec_sigma_source (emZone emInfo) emName ∈ done
              ∧ (emCenterList <$> emProfiles st !! spec_reference (emZone emInfo))
                = Some (Some centers)
              ∧ (emSigmaList <$> emProfiles st !! spec_sigma_source (emZone emInfo) emName)
                = Some (Some sigmas)
              ∧ length centers = numComps ∧ length sigmas = numComps)
      as (centers & sigmas & Hsources).
    { destruct (decide (emName = spec_reference (emZone emInfo))) as [Heq | Hne].
      { by exists [], []. }
      unfold sources in Hsrcs. rewrite decide_False in Hsrcs by done.
      cbn [forallb] in Hsrcs.
      apply andb_prop in Hsrcs as [Hr Hs]. apply andb_prop in Hs as [Hs _].
      apply bool_decide_eq_true_1 in Hr, Hs.
      destruct (Hdone _ Hr) as (er & clr & slr & _ & Hmr & Hlr & _).
      destruct (Hdone _ Hs) as (es & cls & sls & _ & Hms & _ & Hls & _).
      exists clr, sls. intros _. rewrite Hmr, Hms. done. }
    destruct (iteration_step mask st emName emInfo window centers sigmas Hem Hzone
                Hwindow Hamp) as (model & cl & sl & row & Hiter & Hrow & Hlc & Hls & Hcl & Hsl).
    { intros Hne. destruct (Hsources Hne) as (_ & _ & ? & ? & ? & ?). done. }
    match type of Hiter with
    | _ = Ok (?s, _) => set (st1 := s) in *
    end.
    destruct (IH (emName :: done) st1) as (st' & Hloop & Hframe' & Hdone' & Hlow & Hhigh).
    + done.
    + intros name Hname. apply not_elem_of_cons in Hname as [Hne Hname].
      cbn [emProfiles st1]. rewrite lookup_insert_ne by done. by apply Hframe.
    + intros name [-> | Hname]%elem_of_cons.
      * exists emInfo, cl, sl. split; [done|].
        split; [cbn [emProfiles st1]; by rewrite lookup_insert_eq|].
        do 2 (split; [done|]). intros Hne.
        destruct (Hsources Hne) as (Hr & Hs & Hc & Hsig & _ & _).
        split; [by apply elem_of_cons; right|].
        split; [by apply elem_of_cons; right|].
        cbn [emProfiles st1]. split.
        -- rewrite lookup_insert_ne by done. by rewrite (Hcl Hne).
        -- intros Hfree.
           rewrite lookup_insert_ne by (intros Heq; apply Hnotin; by rewrite Heq).
           by rewrite (Hsl Hne Hfree).
      * cbn [emProfiles st1]. apply line_done_step; [done | done | by apply Hdone].
    + intros name emInfo' Hname. apply Hmask. by right.
    + exists st'. split.
      { cbn [main_loop]. rewrite outcome_bind, Hiter. done. }
      split.
      { intros name Hname Hnd. apply not_elem_of_cons in Hname as [Hne Hname].
        apply Hframe'; [done|]. by apply not_elem_of_cons. }
      split.
      { intros name Hname.
        apply (line_done_mono _ _ (names ++ emName :: done)).
        - intros x. cbn [app]. rewrite elem_of_app, !elem_of_cons, elem_of_app. tauto.
        - apply Hdone'. rewrite elem_of_cons in *. tauto. }
      rewrite Hlow, Hhigh. cbn [lowZoneProfiles highZoneProfiles st1].
      destruct Hzone as [Hz | Hz].
      * rewrite !decide_True by done.
        rewrite filter_cons_True by (rewrite Hem0; simpl; by rewrite Hz).
        rewrite filter_cons_False by (rewrite Hem0; simpl; by rewrite Hz).
        rewrite fmap_app. cbn [fmap list_fmap]. rewrite Hrow.
        by rewrite <- app_assoc.
      * rewrite !decide_False by (by rewrite Hz).
        rewrite filter_cons_False by (rewrite Hem0; simpl; by rewrite Hz).
        rewrite filter_cons_True by (rewrite Hem0; simpl; by rewrite Hz).
        rewrite fmap_app. cbn [fmap list_fmap]. rewrite Hrow.
        by rewrite <- app_assoc.
Qed.

(** X16.  The loop over a catalog in an order it can process (every line
    once, in zone ['low'] or ['high'], with [numComps] amplitudes or more,
    after the reference of its zone and after the line its sigmas come
    from), with a window for every line: it runs to its end without an
    exception.  It leaves the lines it was not given as they were; every
    line it was given has a center list and a sigma list of [numComps]
    entries on record, and its other fields as before; a line that is not
    the reference of its zone holds the center list of the reference and,
    unless its sigmas were free, the sigma list of the line they come from;
    and each zone's list of profiles has grown by the lines of that zone, in
    the order of the catalog. *)
Theorem main_loop_inherits (st : script_state A) (names : list string) :
  ordered_catalog (emProfiles st) [] names = true →
  (∀ emName emInfo, emName ∈ names → emProfiles st !! emName = Some emInfo →
     ∃ window, mask (emOrder emInfo) (emFilter emInfo) (emMinI emInfo) (emMaxI emInfo)
               = Ok window) →
  ∃ st',
    outcome (main_loop mask names st) = Ok st'
    ∧ (∀ name, name ∉ names → emProfiles st' !! name = emProfiles st !! name)
    ∧ (∀ emName, emName ∈ names →
         ∃ emInfo cl sl,
           emProfiles st !! emName = Some emInfo
           ∧ emProfiles st' !! emName = Some (set_sigmaList sl (set_centerList cl emInfo))
           ∧ length cl = numComps ∧ length sl = numComps
           ∧ (emName ≠ spec_reference (emZone emInfo) →
              (emCenterList <$> emProfiles st' !! spec_reference (emZone emInfo))
              = Some (Some cl)
              ∧ (sigma_free (emZone emInfo) emName = false →
                 (emSigmaList <$> emProfiles st' !! spec_sigma_source (emZone emInfo) emName)
                 = Some (Some sl))))
    ∧ zpName _ <$> lowZoneProfiles st'
      = (zpName _ <$> lowZoneProfiles st)
        ++ filter (λ name, emZone <$> emProfiles st !! name = Some "low") names
    ∧ zpName _ <$> highZoneProfiles st'
      = (zpName _ <$> highZoneProfiles st)
        ++ filter (λ name, emZone <$> emProfiles st !! name = Some "high") names.
Proof.
  intros Hord Hmask.
  destruct (main_loop_invariant st names [] st Hord) as (st' & Hloop & Hframe & Hdone & Hzones);
    [done | by intros name Hname%elem_of_nil | done |].
  exists st'. split; [done|]. split.
  { intros name Hname. apply Hframe; [done|]. apply not_elem_of_nil. }
  split; [|done].
  intros emName Hname.
  destruct (Hdone emName) as (emInfo & cl & sl & H0' & Hm & Hlc & Hls & Hinh); [by left|].
  exists emInfo, cl, sl. do 4 (split; [done|]).
  intros Hne. destruct (Hinh Hne) as (_ & _ & ? & ?). done.
Qed.
End loop_invariant.

Lemma main_loop_inherits_witness :
  ∃ st',
    outcome (main_loop Standin.mask_emission_line emProfiles_names initial_state) = Ok st'
    ∧ (∃ emInfo cl sl,
         emProfiles st' !! "NII-6548A"
         = Some (set_sigmaList sl (set_centerList cl emInfo))
         ∧ (emCenterList <$> emProfiles st' !! "H-Alpha") = Some (Some cl)
         ∧ (emSigmaList <$> emProfiles st' !! "NII-6584A") = Some (Some sl))
    ∧ zpName float <$> highZoneProfiles st'
      = ["OIII-5007A"; "OIII-4959A"; "NeIII-3868A"; "NeIII-3970A"; "NeIII-3967A"].
Proof.
  destruct (main_loop_inherits Standin.mask_emission_line initial_state emProfiles_names)
    as (st' & Hloop & _ & Hlines & _ & Hhigh).
  - vm_compute. reflexivity.
  - intros emName emInfo _ _. eexists. reflexivity.
  - exists st'. split; [exact Hloop|]. split.
    + destruct (Hlines "NII-6548A") as (emInfo & cl & sl & Hem & Hem' & _ & _ & Hinh).
      { apply (bool_decide_unpack _). vm_compute. reflexivity. }
      assert (emZone emInfo = "low") as Hz.
      { clear -Hem. vm_compute in Hem. by injection Hem as <-. }
      rewrite Hz in Hinh.
      destruct Hinh as [Hc Hs]; [discriminate|].
      exists emInfo, cl, sl. split; [exact Hem'|]. split; [exact Hc|].
      apply Hs. reflexivity.
    + rewrite Hhigh. vm_compute. reflexivity.
Defined.

Section script_loop.
Context `{Arith A, Unbounded A, Lmfit A, !LmfitLaws A}.
Variable mask :
  Z → string → Z → Z → result (list A * list A * option (list A) * option (list A)).

Lemma emProfiles_names_ordered :
  ordered_catalog (emProfiles (initial_state (A:=A))) [] emProfiles_names = true.
Proof. vm_compute. reflexivity. Qed.

Lemma initial_state_names (name : string) (emInfo : EmInfo A) :
  emProfiles initial_state !! name = Some emInfo → name ∈ emProfiles_names.
Proof.
  intros Hem%elem_of_list_to_map_2. rewrite <- emProfiles_names_items.
  apply list_elem_of_fmap. by exists (name, emInfo).
Qed.

(** X17.  The script's own loop, on its catalog of 23 lines in the order
    they are written: given a window for every line, it runs to its end
    without an exception, so the catalog's order never triggers the
    [KeyError] of a line fit before its source.  Afterwards every line of
    zone ['low'] holds one and the same center list, the one fit for
    ['H-Alpha'], every line of zone ['high'] holds the center list and the
    sigma list fit for ['OIII-5007A'], and the two lists of profiles hold
    the 18 lines of zone ['low'] and the 5 of zone ['high'], in the order of
    the catalog. *)
Theorem script_loop_completes :
  (∀ emName emInfo, emProfiles initial_state !! emName = Some emInfo →
     ∃ window, mask (emOrder emInfo) (emFilter emInfo) (emMinI emInfo) (emMaxI emInfo)
               = Ok window) →
  ∃ st' centersLow centersHigh sigmasHigh,
    outcome (main_loop mask emProfiles_names initial_state) = Ok st'
    ∧ length centersLow = numComps ∧ length centersHigh = numComps
    ∧ length sigmasHigh = numComps
    ∧ (∀ name emInfo, emProfiles st' !! name = Some emInfo → emZone emInfo = "low" →
         emCenterList emInfo = Some centersLow)
    ∧ (∀ name emInfo, emProfiles st' !! name = Some emInfo → emZone emInfo = "high" →
         emCenterList emInfo = Some centersHigh ∧ emSigmaList emInfo = Some sigmasHigh)
    ∧ zpName _ <$> lowZoneProfiles st'
      = ["H-Alpha"; "H-Beta"; "H-Gamma"; "H-Delta"; "NII-6584A"; "NII-6548A"; "SII-6717A";
         "SII-6731A"; "OII-3729A"; "OII-3726A"; "OI-6300A"; "SIII-9069A"; "ArIII-7136A";
         "HeIH8-3889A"; "HeI-4471A"; "HeI-5876A"; "HeI-6678A"; "HeI-7065A"]
    ∧ zpName _ <$> highZoneProfiles st'
      = ["OIII-5007A"; "OIII-4959A"; "NeIII-3868A"; "NeIII-3970A"; "NeIII-3967A"].
Proof.
  intros Hmask.
  destruct (main_loop_invariant mask initial_state emProfiles_names [] initial_state
              emProfiles_names_ordered)
    as (st' & Hloop & Hframe & Hdone & Hlow & Hhigh);
    [done | by intros name Hname%elem_of_nil | by intros; eapply Hmask |].
  assert (∀ name emInfo', emProfiles st' !! name = Some emInfo' →
            ∃ emInfo cl sl,
              emInfo' = set_sigmaList sl (set_centerList cl emInfo)
              ∧ length cl = numComps ∧ length sl = numComps
              ∧ (name ≠ spec_reference (emZone emInfo') →
                 (emCenterList <$> emProfiles st' !! spec_reference (emZone emInfo'))
                 = Some (Some cl)
                 ∧ (emZone emInfo' = "high" →
                    (emSigmaList <$> emProfiles st' !! "OIII-5007A") = Some (Some sl))))
    as Hlines.
  { intros name emInfo' Hem'.
    destruct (decide (name ∈ emProfiles_names)) as [Hin | Hnin].
    - destruct (Hdone name) as (emInfo & cl & sl & _ & Hm & Hlc & Hls & Hinh); [by left|].
      rewrite Hm in Hem'. injection Hem' as <-.
      exists emInfo, cl, sl. do 3 (split; [done|]).
      cbn [emZone set_sigmaList set_centerList]. intros Hne.
      destruct (Hinh Hne) as (_ & _ & Hc & Hs). split; [done|].
      intros Hz. rewrite Hz in Hs. apply Hs. unfold sigma_free.
      apply bool_decide_eq_false_2. by intros [? _].
    - rewrite Hframe in Hem' by (done || apply not_elem_of_nil).
      by apply initial_state_names in Hem'. }
  destruct (Hdone "H-Alpha") as (eL & cL & sL & _ & HmL & HlcL & _ & _).
  { left. apply (bool_decide_unpack _). vm_compute. reflexivity. }
  destruct (Hdone "OIII-5007A") as (eH & cH & sH & _ & HmH & HlcH & HlsH & _).
  { left. apply (bool_decide_unpack _). vm_compute. reflexivity. }
  exists st', cL, cH, sH. split; [done|]. do 3 (split; [done|]).
  split; [|split].
  - intros name emInfo' Hem' Hz.
    destruct (Hlines name emInfo' Hem') as (emInfo & cl & sl & -> & _ & _ & Hinh).
    cbn [emCenterList set_sigmaList set_centerList]. f_equal.
    rewrite Hz in Hinh. change (spec_reference "low") with "H-Alpha" in Hinh.
    destruct (decide (name = "H-Alpha")) as [-> | Hne].
    + rewrite HmL in Hem'.
      apply (f_equal (fmap (M:=option) emCenterList)) in Hem'.
      cbn [fmap option_fmap option_map emCenterList set_sigmaList set_centerList] in Hem'.
      by injection Hem' as <-.
    + destruct (Hinh Hne) as [Hc _]. rewrite HmL in Hc. by injection Hc as <-.
  - intros name emInfo' Hem' Hz.
    destruct (Hlines name emInfo' Hem') as (emInfo & cl & sl & -> & _ & _ & Hinh).
    cbn [emCenterList emSigmaList set_sigmaList set_centerList].
    rewrite Hz in Hinh. change (spec_reference "high") with "OIII-5007A" in Hinh.
    destruct (decide (name = "OIII-5007A")) as [-> | Hne].
    + rewrite HmH in Hem'.
      pose proof (f_equal (fmap (M:=option) emCenterList) Hem') as Hc.
      pose proof (f_equal (fmap (M:=option) emSigmaList) Hem') as Hs.
      cbn [fmap option_fmap option_map emCenterList emSigmaList set_sigmaList
             set_centerList] in Hc, Hs.
      injection Hc as <-. by injection Hs as <-.
    + destruct (Hinh Hne) as [Hc Hs]. specialize (Hs eq_refl).
      rewrite HmH in Hc, Hs. injection Hc as <-. by injection Hs as <-.
  - rewrite Hlow, Hhigh. split; vm_compute; reflexivity.
Qed.
End script_loop.

Lemma script_loop_completes_witness :
  ∃ st',
    outcome (main_loop Standin.mask_emission_line emProfiles_names initial_state) = Ok st'
    ∧ length (lowZoneProfiles st') = 18 ∧ length (highZoneProfiles st') = 5.
Proof.
  destruct (script_loop_completes Standin.mask_emission_line)
    as (st' & cL & cH & sH & Hloop & _ & _ & _ & _ & _ & Hlow & Hhigh).
  - intros emName emInfo _. eexists. reflexivity.
  - exists st'. split; [exact Hloop|].
    apply (f_equal length) in Hlow, Hhigh. rewrite length_fmap in Hlow, Hhigh.
    split; [exact Hlow | exact Hhigh].
Defined.

(** ** Lines the loop does not fit *)

Lemma emit_bind {A U} (e : event A) (f : () → io A U) :
  emit e ≫= f = IO (e :: output (f ())) (outcome (f ())).
Proof. unfold mbind, io_bind. simpl. by destruct (outcome (f ())). Qed.

Section not_fitted.
Context `{Arith A, Unbounded A, Lmfit A}.
Variable mask :
  Z → string → Z → Z → result (list A * list A * option (list A) * option (list A)).

(** X18.  For a line whose zone is neither ['low'] nor ['high'], lines 303
    to 350 of the iteration print the header and cut the window and do
    nothing else: nothing is fit, no profile is added, the catalog stays as
    it was, and [model] is not assigned.  (The report lines 353 to 359,
    which read [model] whatever the zone, are not modelled.) *)
Theorem iteration_unknown_zone (st : script_state A) (emName : string)
    (emInfo : EmInfo A) (window : list A * list A * option (list A) * option (list A)) :
  emProfiles st !! emName = Some emInfo →
  emZone emInfo ≠ "low" → emZone emInfo ≠ "high" →
  mask (emOrder emInfo) (emFilter emInfo) (emMinI emInfo) (emMaxI emInfo) = Ok window →
  iteration mask st emName
  = IO [Print "------------------ %s ----------------" [AStr emName]] (Ok (st, None)).
Proof.
  intros Hem Hlow Hhigh Hmask. unfold iteration.
  rewrite (proj2 (getitem_Ok _ _ _) Hem), lift_Ok_bind, emit_bind, Hmask, lift_Ok_bind.
  destruct window as [[[wave1 flux1] wave1Error] flux1Error].
  by rewrite !decide_False by done.
Qed.

(** X19.  A line of zone ['low'] or ['high'] that is processed before the
    reference of its zone has a center list on record is not fit: after
    the header the iteration raises [KeyError], for ['centerList'] when
    the reference is in the catalog and for the name of the reference when
    it is not. *)
Theorem dependent_before_reference (st : script_state A) (emName : string)
    (emInfo : EmInfo A) (window : list A * list A * option (list A) * option (list A)) :
  let z := emZone emInfo in
  emProfiles st !! emName = Some emInfo →
  z = "low" ∨ z = "high" →
  emName ≠ spec_reference z →
  mask (emOrder emInfo) (emFilter emInfo) (emMinI emInfo) (emMaxI emInfo) = Ok window →
  (∀ ref, emProfiles st !! spec_reference z = Some ref → emCenterList ref = None) →
  iteration mask st emName
  = IO [Print "------------------ %s ----------------" [AStr emName]]
       (Raise (KeyError (match emProfiles st !! spec_reference z with
                         | Some _ => "centerList"
                         | None => spec_reference z
                         end))).
Proof.
  intros z Hem Hzone Hnref Hmask Hnone. unfold iteration.
  rewrite (proj2 (getitem_Ok _ _ _) Hem), lift_Ok_bind, emit_bind, Hmask, lift_Ok_bind.
  destruct window as [[[wave1 flux1] wave1Error] flux1Error].
  assert (get_field (emProfiles st) (spec_reference z) emCenterList "centerList"
          = Raise (KeyError (match emProfiles st !! spec_reference z with
                             | Some _ => "centerList"
                             | None => spec_reference z
                             end))) as Hget.
  { unfold get_field, getitem.
    destruct (emProfiles st !! spec_reference z) as [ref|] eqn:Href; [|done].
    cbn [mbind result_bind]. by rewrite (Hnone ref). }
  unfold spec_reference in *. fold z.
  destruct Hzone as [Hz | Hz]; rewrite Hz in *.
  - rewrite !(decide_True (P := "low" = "low")) in * by done.
    rewrite decide_False by done.
    destruct (bool_decide _); by rewrite Hget.
  - rewrite !(decide_False (P := "high" = "low")) in * by done.
    rewrite decide_True by done. rewrite decide_False by done.
    by rewrite Hget.
Qed.
End not_fitted.

Lemma iteration_unknown_zone_witness :
  let emInfo := entry "b" 1 "red" 0 3 6562.5%float [1; 2; 3]%float "medium" 1%float in
  let st := mkState (<["H-Alpha" := emInfo]> ∅) [] [] in
  iteration Standin.mask_emission_line st "H-Alpha"
  = IO [Print "------------------ %s ----------------" [AStr "H-Alpha"]] (Ok (st, None)).
Proof.
  intros emInfo st.
  apply (iteration_unknown_zone Standin.mask_emission_line st "H-Alpha" emInfo
           ([6562; 6563; 6564]%float, [1; 2; 1]%float, Some [6562; 6563; 6564]%float,
            Some [1; 0; 2]%float));
    [reflexivity | discriminate | discriminate | reflexivity].
Defined.

Lemma dependent_before_reference_witness :
  iteration Standin.mask_emission_line initial_state "H-Beta"
  = IO [Print "------------------ %s ----------------" [AStr "H-Beta"]]
       (Raise (KeyError "centerList")).
Proof.
  pose proof (dependent_before_reference Standin.mask_emission_line initial_state "H-Beta"
                (entry "g" 36 "blue" 2150 2800 (dec 486133 2)
                   [dec 71034076 7; dec 69433769 7; dec 90872379 7] "low" (dec 16496 2))
                ([6562; 6563; 6564]%float, [1; 2; 1]%float, Some [6562; 6563; 6564]%float,
                 Some [1; 0; 2]%float)) as Hw.
  cbv zeta in Hw. cbn [emZone entry] in Hw.
  change (spec_reference "low") with "H-Alpha" in Hw.
  rewrite Hw; clear Hw.
  - destruct (emProfiles initial_state !! "H-Alpha") eqn:Href; [reflexivity|].
    by vm_compute in Href.
  - vm_compute. reflexivity.
  - left. reflexivity.
  - discriminate.
  - reflexivity.
  - intros ref Href. vm_compute in Href. by injection Href as <-.
Defined.

(** ** The correction of vel_dispersion *)

(** X20.  Over exact arithmetic, for a known filter, [sigmaObs] other than
    0, a thermal term that is not negative and a radicand that is not
    negative, the correction narrows the line: the intrinsic dispersion is
    at least 0 and below the absolute value of [sigmaObs], and its error
    is at most the error of [sigmaObs] in absolute value. *)
Theorem vel_dispersion_narrows (sigmaObs sigmaObsError sigmaTemp2 : scalar R)
    (filter : string) (sigmaInstr : R) :
  ((filter = "blue" ∧ sigmaInstr = 4.9) ∨ (filter = "red" ∧ sigmaInstr = 5.6) →
   val sigmaObs ≠ 0 →
   0 <= val sigmaTemp2 →
   sigmaInstr ^ 2 + val sigmaTemp2 <= val sigmaObs ^ 2 →
   ∃ intrinsic intrinsicError,
     vel_dispersion sigmaObs sigmaObsError sigmaTemp2 filter
       = Ok (intrinsic, intrinsicError)
     ∧ 0 <= val intrinsic < Rabs (val sigmaObs)
     ∧ Rabs (val intrinsicError) <= Rabs (val sigmaObsError))%R.
Proof.
  intros Hf Hso Ht Hrad.
  assert (sigmaInstr_of (A:=R) filter = Some (PyFloat sigmaInstr)
          ∧ 0 < sigmaInstr)%R as [Hsi Hpos].
  { destruct Hf as [[-> ->] | [-> ->]]; (split; [|lra]);
      unfold sigmaInstr_of, pyfloat; simpl; do 2 f_equal; lra. }
  destruct (vel_dispersion_R sigmaObs sigmaObsError sigmaTemp2 _ filter Hsi Hso)
    as (i & e & Hv & Hi & He).
  exists i, e. split; [done|]. cbn [val] in Hi.
  assert (0 <= val i < Rabs (val sigmaObs))%R as Hbound.
  { rewrite Hi. split; [apply sqrt_pos|].
    rewrite <- (sqrt_Rsqr_abs (val sigmaObs)). unfold Rsqr.
    apply sqrt_lt_1_alt. nra. }
  split; [done|].
  assert (val e = val sigmaObsError / val sigmaObs * val i)%R as ->.
  { rewrite He. field. done. }
  unfold Rdiv. rewrite !Rabs_mult, Rabs_inv.
  rewrite (Rabs_right (val i)) by lra.
  assert (0 < Rabs (val sigmaObs))%R as Habs by (by apply Rabs_pos_lt).
  pose proof (Rabs_pos (val sigmaObsError)) as Hse.
  apply (Rmult_le_reg_r (Rabs (val sigmaObs))); [done|].
  replace (Rabs (val sigmaObsError) * / Rabs (val sigmaObs) * val i * Rabs (val sigmaObs))%R
    with (Rabs (val sigmaObsError) * val i)%R by (field; lra).
  nra.
Qed.

Lemma vel_dispersion_narrows_witness :
  (∃ intrinsic intrinsicError,
    vel_dispersion (A:=R) (PyFloat (-10)) (PyFloat 0.5) (PyFloat 4) "red"
      = Ok (intrinsic, intrinsicError)
    ∧ 0 <= val intrinsic < 10
    ∧ Rabs (val intrinsicError) <= 0.5)%R.
Proof.
  destruct (vel_dispersion_narrows (PyFloat (-10)%R) (PyFloat 0.5%R) (PyFloat 4%R)
              "red" 5.6%R)
    as (i & e & Hv & Hi & He).
  - right. split; reflexivity.
  - simpl. lra.
  - simpl. lra.
  - simpl. lra.
  - exists i, e. split; [exact Hv|]. cbn [val] in Hi, He.
    rewrite Rabs_left in Hi by lra. rewrite (Rabs_right 0.5) in He by lra.
    split; [lra | exact He].
Defined.

Lemma reference_line_recorded_witness :
  ∃ st' model centers sigmas,
    outcome (iteration Standin.mask_emission_line initial_state "OIII-5007A")
      = Ok (st', Some model)
    ∧ (emCenterList <$> emProfiles st' !! "OIII-5007A") = Some (Some centers)
    ∧ (emSigmaList <$> emProfiles st' !! "OIII-5007A") = Some (Some sigmas)
    ∧ centers !! 0 = best_values model !! "g1_center"
    ∧ sigmas !! 2 = best_values model !! "g3_sigma".
Proof.
  destruct (reference_line_recorded Standin.mask_emission_line initial_state "OIII-5007A"
              (entry "b" 5 "red" 1600 2100 (dec 500684 2)
                 [dec 221758322 7; dec 265388225 7; dec 272491337 7] "high" (dec 4154 2))
              [6562; 6563; 6564]%float [1; 2; 1]%float
              (Some [6562; 6563; 6564]%float) (Some [1; 0; 2]%float))
    as (st' & model & centers & sigmas & Hout & Hc & Hs & _ & _ & Hfit).
  - vm_compute. reflexivity.
  - right. reflexivity.
  - reflexivity.
  - reflexivity.
  - simpl. unfold numComps. lia.
  - exists st', model, centers, sigmas.
    split; [exact Hout|]. split; [exact Hc|]. split; [exact Hs|].
    split; [exact (proj1 (Hfit 0 ltac:(unfold numComps; lia)))
           | exact (proj2 (Hfit 2 ltac:(unfold numComps; lia)))].
Defined.

(** ** A rest wavelength of zero *)

Section zero_rest_wavelength.
Local Open Scope float_scope.

Lemma velocity_entry_zero_rest (restWave w : float) :
  (restWave =? 0) = true →
  let v := (w - restWave) / restWave * SpOfLi in
  v = PrimFloat.nan ∨ ∃ s, Prim2SF v = S754_infinity s.
Proof.
  rewrite float_eqb_zero. intros [s0 Hs0] v.
  assert (∃ m e, Prim2SF (SpOfLi (A:=float)) = S754_finite false m e) as (m & e & Hc)
    by (vm_compute; eauto).
  assert (Prim2SF v = S754_nan ∨ ∃ s, Prim2SF v = S754_infinity s) as [Hv | Hv].
  { unfold v. rewrite mul_spec, div_spec, sub_spec, Hs0, Hc.
    destruct (Prim2SF w) as [s|s| |s mw ew]; simpl.
    - left. by destruct s, s0.
    - right. eauto.
    - by left.
    - right. eauto. }
  - left. apply Prim2SF_inj. by rewrite Hv.
  - by right.
Qed.

(** X22.  In binary64, a rest wavelength of zero ([0.0] or [-0.0]) raises
    nothing in [_velocity]: the division by zero makes every velocity NaN
    or infinite, and the array keeps its length. *)
Theorem velocity_zero_rest_wavelength (restWave : float) (wave : list float) :
  (restWave =? 0) = true →
  length (_velocity restWave wave) = length wave
  ∧ Forall (λ v, PrimFloat.is_nan v = true ∨ PrimFloat.is_infinity v = true)
      (_velocity restWave wave).
Proof.
  intros Hzero. unfold _velocity. split; [by rewrite length_fmap|].
  apply Forall_fmap, Forall_forall. intros w _. cbn [compose].
  destruct (velocity_entry_zero_rest restWave w Hzero) as [Hv | Hv].
  - left. cbn [sub div mul Arith_float]. by rewrite Hv.
  - right. by apply float_is_infinity.
Qed.
End zero_rest_wavelength.

Lemma velocity_zero_rest_wavelength_witness :
  length (_velocity 0%float [0; 6562.5]%float) = 2
  ∧ Forall (λ v, PrimFloat.is_nan v = true ∨ PrimFloat.is_infinity v = true)
      (_velocity 0%float [0; 6562.5]%float).
Proof. exact (velocity_zero_rest_wavelength 0%float [0; 6562.5]%float eq_refl). Defined.

(** ** Bounds counted from the end *)

Lemma py_slice_from_end {V} (a : list V) (lo hi : Z) :
  let n := Z.of_nat (length a) in
  let from_end b := if decide (b < 0)%Z then (b + n)%Z else b in
  (- n ≤ lo)%Z → (- n ≤ hi)%Z →
  py_slice a lo hi = py_slice a (from_end lo) (from_end hi).
Proof.
  intros n from_end Hlo Hhi. unfold py_slice. fold n.
  assert (∀ b, (- n ≤ b)%Z → slice_bound n (from_end b) = slice_bound n b) as Hb.
  { intros b Hbn. unfold slice_bound, from_end.
    destruct (decide (b < 0)%Z) as [Hneg | Hpos].
    - rewrite decide_False by lia. lia.
    - by rewrite decide_False by done. }
  by rewrite !Hb.
Qed.

Section from_end.
Context `{Arith A}.

(** X23.  A negative [minIndex] or [maxIndex] counts from the end of the
    order: when the order has [n] samples in both arrays, a bound [b] from
    [-n] to [-1] selects what the bound [b + n] selects. *)
Theorem mask_emission_line_from_end (self : GalaxyRegion A) (orderNum : Z)
    (filt : string) (minIndex maxIndex : Z) (n : nat) (x y : list (list A))
    (xo yo : list A) :
  let from_end b := if decide (b < 0)%Z then (b + Z.of_nat n)%Z else b in
  filter_locals self filt = Some (x, y, None) →
  (1 ≤ orderNum)%Z →
  x !! Z.to_nat (orderNum - 1) = Some xo →
  y !! Z.to_nat (orderNum - 1) = Some yo →
  length xo = n → length yo = n →
  (- Z.of_nat n ≤ minIndex)%Z → (- Z.of_nat n ≤ maxIndex)%Z →
  mask_emission_line self orderNum filt minIndex maxIndex
  = mask_emission_line self orderNum filt (from_end minIndex) (from_end maxIndex).
Proof.
  intros from_end Hf Ho Hx Hy Hlx Hly Hlo Hhi. unfold mask_emission_line.
  rewrite (filter_argument_known _ _ _ _ _ Hf).
  cbn [mbind run_bind ended printed].
  rewrite (np_getitem_Ok x _ xo), (np_getitem_Ok y _ yo) by (done || lia).
  cbn [mbind result_bind mret result_ret run_result ended printed app].
  rewrite (py_slice_from_end xo minIndex maxIndex) by (rewrite Hlx; lia).
  rewrite (py_slice_from_end yo minIndex maxIndex) by (rewrite Hly; lia).
  cbv zeta. rewrite Hlx, Hly. done.
Qed.
End from_end.

Lemma mask_emission_line_from_end_witness :
  mask_emission_line example_region 1 "blue" (-3) (-1)
  = mask_emission_line example_region 1 "blue" 1 3.
Proof.
  exact (mask_emission_line_from_end example_region 1 "blue" (-3) (-1) 4
           (xBlue example_region) (yBlue example_region)
           [4100; 4101; 4102; 4103]%float [2; 4; 8; 4]%float
           eq_refl ltac:(lia) eq_refl eq_refl eq_refl eq_refl ltac:(lia) ltac:(lia)).
Defined.

(** ** A negative width *)

(** X24.  Over exact arithmetic, the sign of [sigmaObs] does not change the
    intrinsic dispersion but is carried into its error: for a known filter
    and [sigmaObs] other than 0, the call with [-sigmaObs] returns the same
    dispersion and the opposite error.  (No bound keeps the fitted sigma
    positive.) *)
Theorem vel_dispersion_negative_sigma (sigmaObs sigmaObs' sigmaObsError sigmaTemp2 : scalar R)
    (filter : string) :
  (filter = "blue" ∨ filter = "red" →
   val sigmaObs ≠ 0 →
   val sigmaObs' = - val sigmaObs →
   ∃ intrinsic intrinsicError intrinsic' intrinsicError',
     vel_dispersion sigmaObs sigmaObsError sigmaTemp2 filter
       = Ok (intrinsic, intrinsicError)
     ∧ vel_dispersion sigmaObs' sigmaObsError sigmaTemp2 filter
       = Ok (intrinsic', intrinsicError')
     ∧ val intrinsic' = val intrinsic
     ∧ val intrinsicError' = - val intrinsicError)%R.
Proof.
  intros Hf Hso Hneg.
  assert (∃ si, sigmaInstr_of (A:=R) filter = Some si) as [si Hsi].
  { destruct Hf as [-> | ->]; eexists; reflexivity. }
  destruct (vel_dispersion_R sigmaObs sigmaObsError sigmaTemp2 si filter Hsi Hso)
    as (i & e & Hv & Hi & He).
  destruct (vel_dispersion_R sigmaObs' sigmaObsError sigmaTemp2 si filter Hsi)
    as (i' & e' & Hv' & Hi' & He'); [rewrite Hneg; lra|].
  exists i, e, i', e'. split; [done|]. split; [done|].
  assert (val i' = val i) as Heq.
  { rewrite Hi', Hi, Hneg. f_equal. lra. }
  split; [done|]. rewrite He', He, Heq, Hneg. field. done.
Qed.

Lemma vel_dispersion_negative_sigma_witness :
  (∃ intrinsic intrinsicError intrinsic' intrinsicError',
    vel_dispersion (A:=R) (PyFloat 10) (PyFloat 0.5) (PyFloat 4) "red"
      = Ok (intrinsic, intrinsicError)
    ∧ vel_dispersion (A:=R) (NpFloat64 (-10)) (PyFloat 0.5) (PyFloat 4) "red"
      = Ok (intrinsic', intrinsicError')
    ∧ val intrinsic' = val intrinsic
    ∧ val intrinsicError' = - val intrinsicError)%R.
Proof.
  apply (vel_dispersion_negative_sigma (PyFloat 10%R) (NpFloat64 (-10)%R)
           (PyFloat 0.5%R) (PyFloat 4%R) "red").
  - right. reflexivity.
  - simpl. lra.
  - reflexivity.
Defined.
